(** * Voice Typer: the dictation app's configuration, recorder and session
    state machine, embedded from [voice_typer.py].

    Conventions of the embedding.
    - A Python [str] is a [string]; its characters are the code points
      U+0000..U+00FF, one [ascii] each.  [str.lower], [str.strip] and the
      other string methods are written out on that range.
    - A Python [int] is a [Z], a [dict] is a [gmap]; [d.get(k)] is [d !! k].
    - A call that may raise returns a [result]; an exception is its class
      together with its message.
    - A text file is its text; how it is coded in bytes is left out, and a
      file that cannot be opened, read or decoded is a file whose reading
      raises.
    - The audio driver, the speech backends, the keyboard and the file
      system are outside the program: what they answer is an argument of the
      function that calls them.
    - [tomllib] is a library: any function that answers as the reader of
      this file does, on the documents that reader covers.
    - The interpreter refuses to convert between [int] and [str] a number of
      more than 4300 decimal digits (the default [sys.int_max_str_digits]).
    - The lock of the app makes what it guards one step; the steps of the
      hotkey thread, the driver's callback and the background threads follow
      one another in any order. *)

From Stdlib Require Import ZArith Ascii String List Bool Lia.
From Stdlib Require Import DecimalFacts DecimalPos DecimalZ.
From Stdlib Require Import Floats.SpecFloat.
From stdpp Require Import gmap strings list.

Local Open Scope string_scope.
Local Open Scope Z_scope.

(** ** Exceptions and results *)

(** An exception: one of the classes the program raises or catches by name
    (a subclass counts as its class), or one of another class, which no
    handler of the program but [except Exception] catches. *)
Inductive exn : Type :=
  | RuntimeError (msg : string)
  | ValueError (msg : string)
  | TypeError (msg : string)
  | OverflowError (msg : string)
  | TimeoutError (msg : string)
  | OSError (msg : string)
  | TOMLDecodeError
  | OtherError (cls msg : string).

Inductive result (A : Type) : Type :=
  | Ok (a : A)
  | Raise (e : exn).
Arguments Ok {A} a.
Arguments Raise {A} e.

Definition is_ok {A} (r : result A) : bool :=
  match r with Ok _ => true | Raise _ => false end.

(** [str(exc)]: the message an exception prints as.  The message of a decode
    error names a position in the document; a fixed text stands for it. *)
Definition exn_str (e : exn) : string :=
  match e with
  | RuntimeError m | ValueError m | TypeError m | OverflowError m
  | TimeoutError m | OSError m | OtherError _ m => m
  | TOMLDecodeError => "Invalid TOML document"
  end.

(** ** Python's string methods *)

Module Py.

Definition chars (s : string) : list ascii := list_ascii_of_string s.
Definition str (l : list ascii) : string := string_of_list_ascii l.

Definition code (c : ascii) : N := N_of_ascii c.

(** [c.isspace()] on U+0000..U+00FF: TAB..CR, FS..US, SPACE, NEL, NBSP. *)
Definition isspace (c : ascii) : bool :=
  let n := code c in
  ((9 <=? n) && (n <=? 13) || (28 <=? n) && (n <=? 32)
   || (n =? 133) || (n =? 160))%N.

(** [c.lower()]: A..Z and the Latin-1 capitals U+00C0..U+00DE (the
    multiplication sign U+00D7 apart) move up by 32. *)
Definition lower_char (c : ascii) : ascii :=
  let n := code c in
  if ((65 <=? n) && (n <=? 90)
      || (192 <=? n) && (n <=? 222) && negb (n =? 215))%N
  then ascii_of_N (n + 32) else c.

Definition lower (s : string) : string := str (map lower_char (chars s)).

(** [c in s] for a single character [c]. *)
Definition contains (c : ascii) (s : string) : bool :=
  existsb (Ascii.eqb c) (chars s).

Fixpoint dropwhile {A} (p : A -> bool) (l : list A) : list A :=
  match l with
  | [] => []
  | x :: l' => if p x then dropwhile p l' else l
  end.

Fixpoint takewhile {A} (p : A -> bool) (l : list A) : list A :=
  match l with
  | [] => []
  | x :: l' => if p x then x :: takewhile p l' else []
  end.

Definition lstrip_chars (l : list ascii) : list ascii :=
  dropwhile isspace l.
Definition rstrip_chars (l : list ascii) : list ascii :=
  rev (dropwhile isspace (rev l)).
Definition strip_chars (l : list ascii) : list ascii :=
  rstrip_chars (lstrip_chars l).

(** [s.strip()] *)
Definition strip (s : string) : string := str (strip_chars (chars s)).

(** [s.split(sep)] for a one-character separator: never the empty list. *)
Fixpoint split_chars (sep : ascii) (l : list ascii) : list (list ascii) :=
  match l with
  | [] => [[]]
  | c :: l' =>
      if Ascii.eqb c sep then [] :: split_chars sep l'
      else match split_chars sep l' with
           | [] => [[c]]
           | w :: ws => (c :: w) :: ws
           end
  end.

Definition split (sep : ascii) (s : string) : list string :=
  map str (split_chars sep (chars s)).

(** [sep.join(parts)] *)
Fixpoint join_chars (sep : list ascii) (parts : list (list ascii))
  : list ascii :=
  match parts with
  | [] => []
  | [p] => p
  | p :: ps => p ++ sep ++ join_chars sep ps
  end.

Definition join (sep : string) (parts : list string) : string :=
  str (join_chars (chars sep) (map chars parts)).

(** [s.startswith(c)] and [s.endswith(c)] for a single character. *)
Definition startswith (c : ascii) (s : string) : bool :=
  match chars s with
  | c' :: _ => Ascii.eqb c' c
  | [] => false
  end.

Definition endswith (c : ascii) (s : string) : bool :=
  match rev (chars s) with
  | c' :: _ => Ascii.eqb c' c
  | [] => false
  end.

(** [s.replace(c, by)] for a single character [c]. *)
Definition replace_chars (c : ascii) (by_ : list ascii) (l : list ascii)
  : list ascii :=
  flat_map (fun x => if Ascii.eqb x c then by_ else [x]) l.

Definition replace (c : ascii) (by_ : string) (s : string) : string :=
  str (replace_chars c (chars by_) (chars s)).

(** Truthiness of a string: [bool(s)]. *)
Definition nonempty (s : string) : bool :=
  match s with EmptyString => false | _ => true end.

End Py.

(** ** Language codes *)

(** [normalize_google_language]: a code with a region is kept; a bare code
    is looked up, lower-cased, in the table of default regions. *)
Definition google_defaults : gmap string string :=
  {[ "nl" := "nl-NL"; "en" := "en-US"; "de" := "de-DE";
     "fr" := "fr-FR"; "es" := "es-ES" ]}.

Definition normalize_google_language (language : string) : string :=
  if Py.contains "-" language then language
  else default language (google_defaults !! Py.lower language).

(** [normalize_assemblyai_language]: the part before the first ["-"]. *)
Definition normalize_assemblyai_language (language : string) : string :=
  if Py.contains "-" language
  then match Py.split "-" language with
       | first :: _ => first
       | [] => language
       end
  else language.

(** ** Hotkey chords *)

Definition token_map : gmap string string :=
  {[ "ctrl" := "<ctrl>"; "control" := "<ctrl>";
     "alt" := "<alt>"; "option" := "<alt>";
     "shift" := "<shift>";
     "cmd" := "<cmd>"; "command" := "<cmd>";
     "win" := "<cmd>"; "windows" := "<cmd>" ]}.

(** [[part.strip() for part in hotkey.split("+") if part.strip()]] *)
Definition hotkey_parts (hotkey : string) : list string :=
  List.filter Py.nonempty (map Py.strip (Py.split "+" hotkey)).

(** One round of the loop over [parts]: what is appended to [normalized]. *)
Definition normalize_part (part : string) : string :=
  let raw := Py.lower part in
  if Py.startswith "<" raw && Py.endswith ">" raw then raw
  else default raw (token_map !! raw).

Definition normalize_hotkey (hotkey : string) : result string :=
  match hotkey_parts hotkey with
  | [] => Raise (ValueError "Hotkey is leeg.")
  | parts => Ok (Py.join "+" (map normalize_part parts))
  end.

(** ** Configuration *)

Record AppConfig : Type := {
  engine : string;
  hotkey : string;
  language : string;
  sample_rate : Z;
  append_space : bool;
  whisper_model : string;
  whisper_device : string;
  whisper_compute_type : string;
  assemblyai_api_key : string;
  google_credentials_path : string;
  gemini_api_key : string;
}.

(** [AppConfig()]: the dataclass defaults. *)
Definition default_config : AppConfig := {|
  engine := "whisper";
  hotkey := "<ctrl>+<alt>+d";
  language := "nl";
  sample_rate := 16000;
  append_space := true;
  whisper_model := "small";
  whisper_device := "auto";
  whisper_compute_type := "int8";
  assemblyai_api_key := EmptyString;
  google_credentials_path := EmptyString;
  gemini_api_key := EmptyString;
|}.

(** A value of the parsed document.  A float is a binary64 number
    ([spec_float]) together with the text [str()] prints for it; a date, a
    time, an array or a table is kept as what [str()] makes of it, the one
    thing the program can get out of it: a text, or the exception [str()]
    raises (for an array that holds too long an integer). *)
Inductive toml_value : Type :=
  | TStr (s : string)
  | TInt (n : Z)
  | TFloat (x : spec_float) (shown : string)
  | TBool (b : bool)
  | TOther (shown : result string).

(** *** [str(int)] and [int(...)] *)

(** Decimal digits, most significant first, are a [Decimal.uint]. *)
Fixpoint digit_chars (d : Decimal.uint) : list ascii :=
  match d with
  | Decimal.Nil => []
  | Decimal.D0 d => "0"%char :: digit_chars d
  | Decimal.D1 d => "1"%char :: digit_chars d
  | Decimal.D2 d => "2"%char :: digit_chars d
  | Decimal.D3 d => "3"%char :: digit_chars d
  | Decimal.D4 d => "4"%char :: digit_chars d
  | Decimal.D5 d => "5"%char :: digit_chars d
  | Decimal.D6 d => "6"%char :: digit_chars d
  | Decimal.D7 d => "7"%char :: digit_chars d
  | Decimal.D8 d => "8"%char :: digit_chars d
  | Decimal.D9 d => "9"%char :: digit_chars d
  end.

Definition int_chars (z : Z) : list ascii :=
  match Z.to_int z with
  | Decimal.Pos d => digit_chars d
  | Decimal.Neg d => "-"%char :: digit_chars d
  end.

(** A number written in decimal. *)
Definition decimal (z : Z) : string := Py.str (int_chars z).

(** How many decimal digits a number has: its sign does not count. *)
Definition digits (z : Z) : Z :=
  match Z.to_int z with
  | Decimal.Pos d | Decimal.Neg d => Z.of_nat (Decimal.nb_digits d)
  end.

(** [sys.int_max_str_digits], as the interpreter starts with it. *)
Definition int_max_str_digits : Z := 4300.

Definition str_limit : exn :=
  ValueError
    "Exceeds the limit (4300 digits) for integer string conversion; use sys.set_int_max_str_digits() to increase the limit".

Definition int_limit (count : Z) : exn :=
  ValueError
    ("Exceeds the limit (4300 digits) for integer string conversion: value has "
     +:+ decimal count
     +:+ " digits; use sys.set_int_max_str_digits() to increase the limit").

(** [str(z)], also what [f"{z}"] prints: a number of more than 4300 digits
    is refused. *)
Definition str_of_int (z : Z) : result string :=
  if int_max_str_digits <? digits z then Raise str_limit
  else Ok (decimal z).

Definition digit_of_char (c : ascii) : option (Decimal.uint -> Decimal.uint) :=
  match c with
  | "0" => Some Decimal.D0 | "1" => Some Decimal.D1 | "2" => Some Decimal.D2
  | "3" => Some Decimal.D3 | "4" => Some Decimal.D4 | "5" => Some Decimal.D5
  | "6" => Some Decimal.D6 | "7" => Some Decimal.D7 | "8" => Some Decimal.D8
  | "9" => Some Decimal.D9
  | _ => None
  end%char.

(** The longest run of digits, each one possibly after a single underscore:
    the digits and what follows them. *)
Fixpoint lex_digits_tail (l : list ascii) : Decimal.uint * list ascii :=
  match l with
  | [] => (Decimal.Nil, [])
  | c :: l' =>
      match digit_of_char c with
      | Some D => let '(d, rest) := lex_digits_tail l' in (D d, rest)
      | None =>
          if Ascii.eqb c "_" then
            match l' with
            | c' :: l'' =>
                match digit_of_char c' with
                | Some D => let '(d, rest) := lex_digits_tail l'' in (D d, rest)
                | None => (Decimal.Nil, l)
                end
            | [] => (Decimal.Nil, l)
            end
          else (Decimal.Nil, l)
      end
  end.

(** The same, starting with a digit. *)
Definition lex_digits (l : list ascii) : option (Decimal.uint * list ascii) :=
  match l with
  | c :: l' =>
      match digit_of_char c with
      | Some D => let '(d, rest) := lex_digits_tail l' in Some (D d, rest)
      | None => None
      end
  | [] => None
  end.

Definition signed (negative : bool) (d : Decimal.uint) : Z :=
  if negative then Z.opp (Z.of_uint d) else Z.of_uint d.

(** An optional sign: whether it is a minus, and what follows it. *)
Definition split_sign (l : list ascii) : bool * list ascii :=
  match l with
  | c :: l' =>
      if Ascii.eqb c "-" then (true, l')
      else if Ascii.eqb c "+" then (false, l')
      else (false, l)
  | [] => (false, l)
  end.

(** White space [int()] skips around a number: TAB..CR and SPACE, and NEL
    and NBSP, which it first turns into spaces. *)
Definition isspace_int (c : ascii) : bool :=
  let n := Py.code c in
  ((9 <=? n) && (n <=? 13) || (n =? 32) || (n =? 133) || (n =? 160))%N.

(** An underscore where the digits stop: one at the end, or two in a row. *)
Definition misplaced_underscore (rest : list ascii) : bool :=
  match rest with
  | c :: _ => Ascii.eqb c "_"
  | [] => false
  end.

Definition invalid_literal : exn :=
  ValueError "invalid literal for int() with base 10".

(** [int(s)] for a string: white space, a sign, digits with single
    underscores between them, white space.  The digits are counted, zeros
    in front included, once the underscores are seen to be in place and
    before what follows the digits is looked at: more than 4300 of them
    are refused. *)
Definition int_of_str (s : string) : result Z :=
  let '(negative, l) :=
    split_sign (Py.dropwhile isspace_int (Py.chars s)) in
  match lex_digits l with
  | Some (d, rest) =>
      let count := Z.of_nat (Decimal.nb_digits d) in
      if misplaced_underscore rest then Raise invalid_literal
      else if int_max_str_digits <? count then Raise (int_limit count)
      else if forallb isspace_int rest then Ok (signed negative d)
      else Raise invalid_literal
  | None => Raise invalid_literal
  end.

(** [int(x)] for a float: the value cut towards zero. *)
Definition int_of_float (x : spec_float) : result Z :=
  match x with
  | S754_zero _ => Ok 0
  | S754_infinity _ =>
      Raise (OverflowError "cannot convert float infinity to integer")
  | S754_nan => Raise (ValueError "cannot convert float NaN to integer")
  | S754_finite negative m e =>
      let magnitude :=
        if 0 <=? e then Z.pos m * 2 ^ e else Z.pos m / 2 ^ (- e) in
      Ok (if negative then - magnitude else magnitude)
  end.

Definition not_a_number : exn :=
  TypeError "int() argument must be a string, a bytes-like object or a real number".

(** [int(value)] where [value] is [data.get(key)]: [None] when the key is
    missing. *)
Definition py_int (value : option toml_value) : result Z :=
  match value with
  | Some (TInt n) => Ok n
  | Some (TBool b) => Ok (if b then 1 else 0)
  | Some (TFloat x _) => int_of_float x
  | Some (TStr s) => int_of_str s
  | Some (TOther _) | None => Raise not_a_number
  end.

(** [bool(x)] for a float: everything but the two zeros. *)
Definition float_truth (x : spec_float) : bool :=
  match x with S754_zero _ => false | _ => true end.

(** [str(value)] *)
Definition py_str (value : toml_value) : result string :=
  match value with
  | TStr s => Ok s
  | TInt n => str_of_int n
  | TBool b => Ok (if b then "True" else "False")
  | TFloat _ shown => Ok shown
  | TOther shown => shown
  end.

(** *** The three coercions of [load_config] *)

Definition truthy_words : list string := ["1"; "true"; "yes"; "y"; "on"].

Definition _as_bool (value : option toml_value) (default : bool) : bool :=
  match value with
  | Some (TBool b) => b
  | Some (TInt n) => negb (n =? 0)
  | Some (TFloat x _) => float_truth x
  | Some (TStr s) =>
      existsb (String.eqb (Py.lower (Py.strip s))) truthy_words
  | Some (TOther _) | None => default
  end.

(** [except (TypeError, ValueError)]: any other exception goes through. *)
Definition _as_int (value : option toml_value) (default : Z) : result Z :=
  match py_int value with
  | Ok n => Ok n
  | Raise (TypeError _) | Raise (ValueError _) => Ok default
  | Raise e => Raise e
  end.

Definition _as_str (value : option toml_value) (default : string)
  : result string :=
  match value with
  | None => Ok default
  | Some v => py_str v
  end.

(** *** Sequencing of calls that may raise *)

Definition bind {A B} (r : result A) (k : A -> result B) : result B :=
  match r with
  | Ok a => k a
  | Raise e => Raise e
  end.

Notation "'let*' x ':=' r 'in' k" := (bind r (fun x => k))
  (at level 10, x pattern, r at level 100, k at level 200).

(** *** The document reader

    [toml_loads] says what [tomllib.loads] does on flat documents: lines of
    [key = value] with a bare key and a basic string, a decimal integer, a
    boolean or one of the special floats, blank lines and comments.  There
    it reads the document as the library does, or refuses it with the
    library's error.  A document that uses anything else of the format
    (tables, arrays, dates, other floats and integers, quoted or dotted
    keys, literal and multi-line strings, the long escapes) is [Beyond] it:
    the reader says nothing about what the library does there. *)

Inductive reading (A : Type) : Type :=
  | Read (a : A)
  | Refused (e : exn)
  | Beyond (what : string).
Arguments Read {A} a.
Arguments Refused {A} e.
Arguments Beyond {A} what.

Definition and_then {A B} (r : reading A) (k : A -> reading B) : reading B :=
  match r with
  | Read a => k a
  | Refused e => Refused e
  | Beyond what => Beyond what
  end.

Notation "'let+' x ':=' r 'in' k" := (and_then r (fun x => k))
  (at level 10, x pattern, r at level 100, k at level 200).

Definition TAB : ascii := "009"%char.
Definition LF : ascii := "010"%char.
Definition CR : ascii := "013"%char.
Definition DQUOTE : ascii := "034"%char.
Definition BACKSLASH : ascii := "092"%char.

Definition toml_ws (c : ascii) : bool :=
  Ascii.eqb c " " || Ascii.eqb c TAB.

(** The control characters a string or a comment may not hold: U+0000 to
    U+001F without TAB, and U+007F. *)
Definition illegal_ctrl (c : ascii) : bool :=
  let n := Py.code c in
  ((n <? 32) && negb (n =? 9) || (n =? 127))%N.

Definition bare_key_char (c : ascii) : bool :=
  let n := Py.code c in
  ((65 <=? n) && (n <=? 90) || (97 <=? n) && (n <=? 122)
   || (48 <=? n) && (n <=? 57) || (n =? 95) || (n =? 45))%N.

Inductive escape : Type :=
  | Escaped (c : ascii)
  | EscapeOutside
  | EscapeInvalid.

(** What follows a backslash in a basic string. *)
Definition escape_of (e : ascii) : escape :=
  if Ascii.eqb e "b" then Escaped "008"%char
  else if Ascii.eqb e "t" then Escaped TAB
  else if Ascii.eqb e "n" then Escaped LF
  else if Ascii.eqb e "f" then Escaped "012"%char
  else if Ascii.eqb e "r" then Escaped CR
  else if Ascii.eqb e DQUOTE then Escaped DQUOTE
  else if Ascii.eqb e BACKSLASH then Escaped BACKSLASH
  else if Ascii.eqb e "u" || Ascii.eqb e "U" || Ascii.eqb e "x"
          || Ascii.eqb e "e"
  then EscapeOutside
  else EscapeInvalid.

(** The body of a basic string, after its opening quote: the text and what
    follows the closing quote.  The line ends before the string does: an
    error. *)
Fixpoint basic_str (l : list ascii) : reading (list ascii * list ascii) :=
  match l with
  | [] => Refused TOMLDecodeError
  | c :: l' =>
      if Ascii.eqb c DQUOTE then Read ([], l')
      else if Ascii.eqb c BACKSLASH then
        match l' with
        | e :: l'' =>
            match escape_of e with
            | Escaped c' =>
                let+ (s, rest) := basic_str l'' in Read (c' :: s, rest)
            | EscapeOutside => Beyond "long escape"
            | EscapeInvalid => Refused TOMLDecodeError
            end
        | [] => Refused TOMLDecodeError
        end
      else if illegal_ctrl c then Refused TOMLDecodeError
      else let+ (s, rest) := basic_str l' in Read (c :: s, rest)
  end.

Fixpoint starts_with (prefix l : list ascii) : bool :=
  match prefix, l with
  | [], _ => true
  | p :: prefix', c :: l' => Ascii.eqb p c && starts_with prefix' l'
  | _ :: _, [] => false
  end.

(** A decimal integer ends the value only where nothing that could continue
    a number, a date or a time follows. *)
Definition ends_number (rest : list ascii) : bool :=
  match rest with
  | [] => true
  | c :: _ => toml_ws c || Ascii.eqb c "#"
  end.

(** A decimal integer after its sign: a lone zero, or digits that do not
    start with a zero, single underscores allowed between them. *)
Definition lex_toml_digits (l : list ascii)
  : option (Decimal.uint * list ascii) :=
  match l with
  | c :: l' => if Ascii.eqb c "0" then Some (Decimal.D0 Decimal.Nil, l')
               else lex_digits l
  | [] => None
  end.

Definition special_float (negative : bool) (l : list ascii)
  : reading (toml_value * list ascii) :=
  if starts_with (Py.chars "inf") l then
    Read (TFloat (S754_infinity negative) (if negative then "-inf" else "inf"),
          drop 3 l)
  else if starts_with (Py.chars "nan") l then
    Read (TFloat S754_nan "nan", drop 3 l)
  else Refused TOMLDecodeError.

(** A decimal integer is handed to [int()], which refuses more than 4300
    digits with its own [ValueError]. *)
Definition parse_number (l : list ascii)
  : reading (toml_value * list ascii) :=
  let '(negative, body) := split_sign l in
  match lex_toml_digits body with
  | Some (d, rest) =>
      if ends_number rest then
        let count := Z.of_nat (Decimal.nb_digits d) in
        if int_max_str_digits <? count then Refused (int_limit count)
        else Read (TInt (signed negative d), rest)
      else Beyond "number, date or time"
  | None => special_float negative body
  end.

(** [parse_value] *)
Definition parse_value (l : list ascii) : reading (toml_value * list ascii) :=
  match l with
  | [] => Refused TOMLDecodeError
  | c :: l' =>
      if Ascii.eqb c DQUOTE then
        if starts_with [DQUOTE; DQUOTE] l'
        then Beyond "multi-line string"
        else let+ (s, rest) := basic_str l' in Read (TStr (Py.str s), rest)
      else if Ascii.eqb c "'" then Beyond "literal string"
      else if starts_with (Py.chars "true") l then Read (TBool true, drop 4 l)
      else if starts_with (Py.chars "false") l
      then Read (TBool false, drop 5 l)
      else if Ascii.eqb c "[" then Beyond "array"
      else if Ascii.eqb c "{" then Beyond "inline table"
      else parse_number l
  end.

(** After a statement: white space, then a comment or the end of the line. *)
Definition end_of_line (l : list ascii) : reading unit :=
  match Py.dropwhile toml_ws l with
  | [] => Read tt
  | c :: comment =>
      if Ascii.eqb c "#" && negb (existsb illegal_ctrl comment) then Read tt
      else Refused TOMLDecodeError
  end.

(** One line of the document: nothing, or a key and its value. *)
Definition parse_line (line : list ascii)
  : reading (option (string * toml_value)) :=
  match Py.dropwhile toml_ws line with
  | [] => Read None
  | (c :: _) as l =>
      if bare_key_char c then
        let key := Py.takewhile bare_key_char l in
        match Py.dropwhile toml_ws (Py.dropwhile bare_key_char l) with
        | c' :: rest =>
            if Ascii.eqb c' "=" then
              let+ (v, rest) := parse_value (Py.dropwhile toml_ws rest) in
              let+ _ := end_of_line rest in
              Read (Some (Py.str key, v))
            else if Ascii.eqb c' "." then Beyond "dotted key"
            else Refused TOMLDecodeError
        | [] => Refused TOMLDecodeError
        end
      else if Ascii.eqb c DQUOTE || Ascii.eqb c "'"
      then Beyond "quoted key"
      else if Ascii.eqb c "[" then Beyond "table"
      else if Ascii.eqb c "#" then
        let+ _ := end_of_line l in Read None
      else Refused TOMLDecodeError
  end.

(** [s.replace("\r\n", "\n")] *)
Fixpoint unix_newlines (l : list ascii) : list ascii :=
  match l with
  | [] => []
  | c :: l' =>
      match l' with
      | c' :: l'' =>
          if Ascii.eqb c CR && Ascii.eqb c' LF then LF :: unix_newlines l''
          else c :: unix_newlines l'
      | [] => [c]
      end
  end.

(** A key may be given once. *)
Definition add_line (data : reading (gmap string toml_value))
    (line : list ascii) : reading (gmap string toml_value) :=
  let+ data := data in
  let+ statement := parse_line line in
  match statement with
  | None => Read data
  | Some (key, v) =>
      match data !! key with
      | Some _ => Refused TOMLDecodeError
      | None => Read (<[key := v]> data)
      end
  end.

Definition toml_loads (text : string) : reading (gmap string toml_value) :=
  fold_left add_line
    (Py.split_chars LF (unix_newlines (Py.chars text))) (Read ∅).

(** [tomllib]: a function from documents to what they hold, or to the
    exception they are refused with, that does as [toml_loads] says on the
    documents [toml_loads] covers. *)
Class Tomllib : Type := {
  loads : string -> result (gmap string toml_value);
  loads_read : forall text data,
    toml_loads text = Read data -> loads text = Ok data;
  loads_refused : forall text e,
    toml_loads text = Refused e -> loads text = Raise e;
}.

(** *** Loading and saving

    The file system is a map from a path to what is there: a file with its
    text, or something that cannot be reached, opened or read as text (a
    directory, a file without the permission, bytes that are no UTF-8),
    with the exception that the attempt raises. *)

Inductive node : Type :=
  | File (text : string)
  | Unreadable (e : exn).

Section Loading.

Context {tomllib : Tomllib}.

Definition load_config (fs : gmap string node) (config_path : string)
  : result AppConfig :=
  let config := default_config in
  match fs !! config_path with
  | None => Ok config
  | Some (Unreadable e) => Raise e
  | Some (File text) =>
      let* data := loads text in
      let* engine_ := _as_str (data !! "engine") (engine config) in
      let* hotkey_ := _as_str (data !! "hotkey") (hotkey config) in
      let* language_ := _as_str (data !! "language") (language config) in
      let* rate := _as_int (data !! "sample_rate") (sample_rate config) in
      let space := _as_bool (data !! "append_space") (append_space config) in
      let* model :=
        _as_str (data !! "whisper_model") (whisper_model config) in
      let* device :=
        _as_str (data !! "whisper_device") (whisper_device config) in
      let* compute_type :=
        _as_str (data !! "whisper_compute_type")
                (whisper_compute_type config) in
      let* assemblyai_key :=
        _as_str (data !! "assemblyai_api_key") EmptyString in
      let* credentials :=
        _as_str (data !! "google_credentials_path") EmptyString in
      let* gemini_key := _as_str (data !! "gemini_api_key") EmptyString in
      Ok {|
        engine := Py.lower engine_;
        hotkey := hotkey_;
        language := language_;
        sample_rate := rate;
        append_space := space;
        whisper_model := model;
        whisper_device := device;
        whisper_compute_type := compute_type;
        assemblyai_api_key := assemblyai_key;
        google_credentials_path := credentials;
        gemini_api_key := gemini_key;
      |}
  end.

End Loading.

(** The local [quote] of [save_config]: backslashes are doubled, then every
    double quote gets a backslash, and the whole is put between quotes. *)
Definition quote (value : string) : string :=
  let escaped :=
    Py.replace DQUOTE (Py.str [BACKSLASH; DQUOTE])
      (Py.replace BACKSLASH (Py.str [BACKSLASH; BACKSLASH]) value) in
  Py.str [DQUOTE] +:+ escaped +:+ Py.str [DQUOTE].

(** The [lines] of [save_config]: the f-string of the sample rate is the
    one that can raise. *)
Definition config_lines (config : AppConfig) : result (list string) :=
  let* rate := str_of_int (sample_rate config) in
  Ok [ "engine = " +:+ quote (engine config);
       "hotkey = " +:+ quote (hotkey config);
       "language = " +:+ quote (language config);
       "sample_rate = " +:+ rate;
       "append_space = " +:+ (if append_space config then "true" else "false");
       "whisper_model = " +:+ quote (whisper_model config);
       "whisper_device = " +:+ quote (whisper_device config);
       "whisper_compute_type = " +:+ quote (whisper_compute_type config);
       "assemblyai_api_key = " +:+ quote (assemblyai_api_key config);
       "google_credentials_path = "
         +:+ quote (google_credentials_path config);
       "gemini_api_key = " +:+ quote (gemini_api_key config);
       EmptyString ].

(** What the file system does for [save_config].  Making the directory
    of the file raises; or it makes the directories [made] that were
    missing (each a thing that cannot be read as a file) and the text is
    written; or the directories are made and writing raises, with the file
    as it was ([kept] is [None]: the file could not be opened) or with
    [kept] as the text of the file (the writing broke off). *)
Inductive saving : Type :=
  | MkdirFails (e : exn)
  | Saved (made : gmap string node)
  | SaveFails (made : gmap string node) (e : exn) (kept : option string).

(** [save_config]: the file at [config_path] becomes the lines joined by
    line feeds.  What was in the file system stays, but for that file. *)
Definition save_config (config : AppConfig) (config_path : string)
    (o : saving) (fs : gmap string node) : result unit * gmap string node :=
  match o with
  | MkdirFails e => (Raise e, fs)
  | Saved made =>
      match config_lines config with
      | Raise e => (Raise e, fs ∪ made)
      | Ok lines =>
          (Ok tt,
           <[config_path := File (Py.join (Py.str [LF]) lines)]> (fs ∪ made))
      end
  | SaveFails made e kept =>
      match config_lines config with
      | Raise e' => (Raise e', fs ∪ made)
      | Ok lines =>
          (Raise e,
           match kept with
           | None => fs ∪ made
           | Some text => <[config_path := File text]> (fs ∪ made)
           end)
      end
  end.

(** ** The machine the program runs on

    What can be imported, the environment variables, and whether loading a
    model or opening a client works are given; [allocated] records the
    models and clients that were built. *)

Inductive resource : Type :=
  | WhisperModel (model device compute_type : string)
  | SpeechClient
  | GenerativeModel (api_key name : string).

Record System : Type := {
  environ : gmap string string;
  importable : gset string;
  refuses : resource -> option exn;
  allocated : list resource;
}.

Definition set_environ (env : gmap string string) (sys : System) : System :=
  {| environ := env; importable := importable sys;
     refuses := refuses sys; allocated := allocated sys |}.

(** Building a model or a client: it is refused, or it is there from now on. *)
Definition allocate (r : resource) (sys : System) : result unit * System :=
  match refuses sys r with
  | Some e => (Raise e, sys)
  | None =>
      (Ok tt,
       {| environ := environ sys; importable := importable sys;
          refuses := refuses sys; allocated := allocated sys ++ [r] |})
  end.

(** [os.getenv(name, default)] *)
Definition getenv (sys : System) (name fallback : string) : string :=
  default fallback (environ sys !! name).

(** [os.environ.setdefault(name, value)] *)
Definition setdefault_env (name value : string) (sys : System) : System :=
  match environ sys !! name with
  | Some _ => sys
  | None => set_environ (<[name := value]> (environ sys)) sys
  end.

(** [a or b] on strings. *)
Definition or_else (a b : string) : string :=
  if Py.nonempty a then a else b.

(** ** Transcribers *)

Inductive Transcriber : Type :=
  | WhisperTranscriber (_model : resource) (_language : option string)
  | AssemblyAITranscriber (_api_key _language : string)
  | GoogleTranscriber (_sample_rate : Z) (_language : string)
  | GeminiTranscriber (_model : resource) (_language : string).

Definition new_WhisperTranscriber (config : AppConfig) (sys : System)
  : result Transcriber * System :=
  if decide ("faster_whisper" ∈ importable sys) then
    let model := WhisperModel (whisper_model config) (whisper_device config)
                              (whisper_compute_type config) in
    match allocate model sys with
    | (Ok _, sys') =>
        (Ok (WhisperTranscriber model
               (if Py.nonempty (language config)
                then Some (language config) else None)),
         sys')
    | (Raise e, sys') => (Raise e, sys')
    end
  else
    (Raise (RuntimeError
       "faster-whisper ontbreekt. Installeer met: pip install -r requirements.txt"),
     sys).

Definition new_AssemblyAITranscriber (config : AppConfig) (sys : System)
  : result Transcriber * System :=
  if decide ("requests" ∈ importable sys) then
    let api_key :=
      or_else (assemblyai_api_key config)
              (getenv sys "ASSEMBLYAI_API_KEY" EmptyString) in
    if Py.nonempty api_key then
      (Ok (AssemblyAITranscriber api_key
             (normalize_assemblyai_language
                (or_else (language config) "nl"))),
       sys)
    else
      (Raise (RuntimeError
         "AssemblyAI key ontbreekt. Zet assemblyai_api_key in config of ASSEMBLYAI_API_KEY."),
       sys)
  else
    (Raise (RuntimeError
       "requests ontbreekt. Installeer met: pip install -r requirements.txt"),
     sys).

Definition new_GoogleTranscriber (config : AppConfig) (sys : System)
  : result Transcriber * System :=
  let sys :=
    if Py.nonempty (google_credentials_path config)
    then setdefault_env "GOOGLE_APPLICATION_CREDENTIALS"
                        (google_credentials_path config) sys
    else sys in
  if decide ("google.cloud.speech" ∈ importable sys) then
    match allocate SpeechClient sys with
    | (Ok _, sys') =>
        (Ok (GoogleTranscriber (sample_rate config)
               (normalize_google_language
                  (or_else (language config) "nl-NL"))),
         sys')
    | (Raise e, sys') => (Raise e, sys')
    end
  else
    (Raise (RuntimeError
       "google-cloud-speech ontbreekt. Installeer met: pip install -r requirements.txt"),
     sys).

Definition new_GeminiTranscriber (config : AppConfig) (sys : System)
  : result Transcriber * System :=
  if decide ("google.generativeai" ∈ importable sys) then
    let api_key :=
      or_else (gemini_api_key config)
              (getenv sys "GEMINI_API_KEY" EmptyString) in
    if Py.nonempty api_key then
      let model := GenerativeModel api_key "gemini-2.0-flash" in
      match allocate model sys with
      | (Ok _, sys') =>
          (Ok (GeminiTranscriber model (or_else (language config) "nl")),
           sys')
      | (Raise e, sys') => (Raise e, sys')
      end
    else
      (Raise (RuntimeError
         "Gemini key ontbreekt. Zet gemini_api_key in config of GEMINI_API_KEY."),
       sys)
  else
    (Raise (RuntimeError
       "google-generativeai ontbreekt. Installeer met: pip install google-generativeai"),
     sys).

Definition invalid_engine : exn :=
  ValueError "Ongeldige engine. Kies whisper, assemblyai, google of gemini.".

Definition create_transcriber (config : AppConfig) (sys : System)
  : result Transcriber * System :=
  if String.eqb (engine config) "whisper"
  then new_WhisperTranscriber config sys
  else if String.eqb (engine config) "assemblyai"
  then new_AssemblyAITranscriber config sys
  else if String.eqb (engine config) "google"
  then new_GoogleTranscriber config sys
  else if String.eqb (engine config) "gemini"
  then new_GeminiTranscriber config sys
  else (Raise invalid_engine, sys).

(** The four variants, by name. *)
Inductive variant : Type := Whisper | AssemblyAI | Google | Gemini.

Definition variant_of (t : Transcriber) : variant :=
  match t with
  | WhisperTranscriber _ _ => Whisper
  | AssemblyAITranscriber _ _ => AssemblyAI
  | GoogleTranscriber _ _ => Google
  | GeminiTranscriber _ _ => Gemini
  end.

Definition engine_name (v : variant) : string :=
  match v with
  | Whisper => "whisper"
  | AssemblyAI => "assemblyai"
  | Google => "google"
  | Gemini => "gemini"
  end.

Definition construct (v : variant)
  : AppConfig -> System -> result Transcriber * System :=
  match v with
  | Whisper => new_WhisperTranscriber
  | AssemblyAI => new_AssemblyAITranscriber
  | Google => new_GoogleTranscriber
  | Gemini => new_GeminiTranscriber
  end.

(** ** The recorder *)

(** A block of float32 samples as the driver hands it over, each sample by
    its bit pattern. *)
Definition chunk : Type := list Z.

(** An input stream: mono, float32, at this rate. *)
Inductive stream : Type := InputStream (samplerate : Z).

(** A file in the directory of temporary files: a sound file, mono, two
    bytes a sample, at [framerate], known by the samples it was made from
    (their clipping and scaling to 16 bits is floating point arithmetic and
    is left out), or a file the writer gave up on. *)
Inductive file : Type :=
  | Wav (framerate : Z) (recorded : list Z)
  | Partial.

(** What the driver does when a stream is opened and started. *)
Inductive opening : Type :=
  | OpenFails (e : exn)
  | StartFails (e : exn)
  | Started.

(** What the driver does when a stream is stopped and closed. *)
Inductive closing : Type :=
  | StopFails (e : exn)
  | CloseFails (e : exn)
  | Closed.

(** What happens to the sound file: [mkstemp] fails, or it picks a path and
    the writer fails, or the file is written at the path it picked. *)
Inductive writing : Type :=
  | MkstempFails (e : exn)
  | WriteFails (path : string) (e : exn)
  | Written (path : string).

Definition _recording_to_wav (audio : list Z) (rate : Z)
    (o : writing) (tmp : gmap string file)
  : result string * gmap string file :=
  match o with
  | MkstempFails e => (Raise e, tmp)
  | WriteFails path e => (Raise e, <[path := Partial]> tmp)
  | Written path => (Ok path, <[path := Wav rate audio]> tmp)
  end.

Module AudioRecorder.

Record t : Type := {
  sample_rate : Z;
  _frames : list chunk;
  _stream : option stream;
}.

Definition already_started : exn := RuntimeError "Opname is al gestart.".
Definition not_active : exn := RuntimeError "Opname is niet actief.".
Definition no_audio : exn :=
  RuntimeError "Geen audio ontvangen. Controleer microfooninstellingen.".
Definition missing_dependencies : exn :=
  RuntimeError
    "Audio dependencies ontbreken. Installeer met: pip install -r requirements.txt".

(** [__init__] *)
Definition new (rate : Z) (sys : System) : result t :=
  if decide ("numpy" ∈ importable sys ∧ "sounddevice" ∈ importable sys)
  then Ok {| sample_rate := rate; _frames := []; _stream := None |}
  else Raise missing_dependencies.

(** [_callback]: when the driver reports a status a warning goes to the
    standard error, and the block is appended.  [status] is [None] for a
    status that is not set, and the text it prints as otherwise.  The
    lines for the standard error come first in the result. *)
Definition _callback (indata : chunk) (status : option string) (r : t)
  : list string * t :=
  (match status with
   | Some flags => ["[audio] waarschuwing: " +:+ flags]
   | None => []
   end,
   {| sample_rate := sample_rate r;
      _frames := _frames r ++ [indata];
      _stream := _stream r |}).

Definition start (o : opening) (r : t) : result unit * t :=
  match _stream r with
  | Some _ => (Raise already_started, r)
  | None =>
      let cleared :=
        {| sample_rate := sample_rate r; _frames := [];
           _stream := None |} in
      let opened :=
        {| sample_rate := sample_rate r; _frames := [];
           _stream := Some (InputStream (sample_rate r)) |} in
      match o with
      | OpenFails e => (Raise e, cleared)
      | StartFails e => (Raise e, opened)
      | Started => (Ok tt, opened)
      end
  end.

Definition stop (c : closing) (o : writing)
    (r : t) (tmp : gmap string file)
  : result string * t * gmap string file :=
  match _stream r with
  | None => (Raise not_active, r, tmp)
  | Some _ =>
      match c with
      | StopFails e | CloseFails e => (Raise e, r, tmp)
      | Closed =>
          let closed :=
            {| sample_rate := sample_rate r; _frames := _frames r;
               _stream := None |} in
          match _frames r with
          | [] => (Raise no_audio, closed, tmp)
          | _ =>
              let audio_data := concat (_frames r) in
              let '(path, tmp') :=
                _recording_to_wav audio_data (sample_rate r) o tmp in
              (path, closed, tmp')
          end
      end
  end.

End AudioRecorder.

(** ** The typer *)

Inductive TextTyper : Type := Controller.

Definition new_TextTyper (sys : System) : result TextTyper :=
  if decide ("pynput.keyboard" ∈ importable sys) then Ok Controller
  else Raise (RuntimeError
    "Keyboard dependency ontbreekt. Installeer met: pip install -r requirements.txt").

(** ** The app *)

(** A background thread of the app: it is still transcribing and typing for
    the sound file it was started with, or it has deleted the file and waits
    for the lock to clear the busy flag. *)
Inductive task : Type :=
  | Running (audio_path : string)
  | Finishing.

(** What the app acts on besides itself: the temporary files, its
    background threads, the text typed at the cursor, the lines the program
    prints on the two output streams, and the exceptions that ended a
    background thread (the interpreter reports each on the standard error,
    with a traceback that is not part of [stderr] here). *)
Record World : Type := {
  tmp : gmap string file;
  threads : list task;
  typed : list string;
  stdout : list string;
  stderr : list string;
  uncaught : list exn;
}.

Definition set_tmp (f : gmap string file) (w : World) : World :=
  {| tmp := f; threads := threads w; typed := typed w;
     stdout := stdout w; stderr := stderr w; uncaught := uncaught w |}.

Definition set_threads (ts : list task) (w : World) : World :=
  {| tmp := tmp w; threads := ts; typed := typed w;
     stdout := stdout w; stderr := stderr w; uncaught := uncaught w |}.

(** [print(msg)] and [print(msg, file=sys.stderr)] *)
Definition print (msg : string) (w : World) : World :=
  {| tmp := tmp w; threads := threads w; typed := typed w;
     stdout := stdout w ++ [msg]; stderr := stderr w;
     uncaught := uncaught w |}.

Definition eprint (msg : string) (w : World) : World :=
  {| tmp := tmp w; threads := threads w; typed := typed w;
     stdout := stdout w; stderr := stderr w ++ [msg];
     uncaught := uncaught w |}.

(** [TextTyper.type_text] when the keyboard takes the text. *)
Definition type_text (text : string) (w : World) : World :=
  {| tmp := tmp w; threads := threads w; typed := typed w ++ [text];
     stdout := stdout w; stderr := stderr w; uncaught := uncaught w |}.

(** An exception leaves a background thread. *)
Definition escape_thread (e : exn) (w : World) : World :=
  {| tmp := tmp w; threads := threads w; typed := typed w;
     stdout := stdout w; stderr := stderr w;
     uncaught := uncaught w ++ [e] |}.

(** [audio_path.unlink(missing_ok=True)]: a path that is not there is no
    error, and a file that is there is deleted, unless the file system
    refuses ([refusal] is the exception it raises) and leaves it there. *)
Definition unlink (path : string) (refusal : option exn) (w : World)
  : result unit * World :=
  match refusal with
  | None => (Ok tt, set_tmp (delete path (tmp w)) w)
  | Some e => (Raise e, w)
  end.

(** [threading.Thread(target=..., args=(audio_path,)).start()] *)
Definition spawn (audio_path : string) (w : World) : World :=
  set_threads (threads w ++ [Running audio_path]) w.

(** The session as the specification names it. *)
Inductive session : Type := Idle | Recording | Transcribing.

Definition busy_notice : string := "Nog bezig met de vorige transcriptie.".

Module VoiceTyperApp.

Record t : Type := {
  config : AppConfig;
  recorder : AudioRecorder.t;
  typer : TextTyper;
  transcriber : Transcriber;
  _is_recording : bool;
  _is_busy : bool;
}.

Definition set_recorder (r : AudioRecorder.t) (app : t) : t :=
  {| config := config app; recorder := r; typer := typer app;
     transcriber := transcriber app;
     _is_recording := _is_recording app; _is_busy := _is_busy app |}.

Definition set_is_recording (b : bool) (app : t) : t :=
  {| config := config app; recorder := recorder app; typer := typer app;
     transcriber := transcriber app;
     _is_recording := b; _is_busy := _is_busy app |}.

Definition set_is_busy (b : bool) (app : t) : t :=
  {| config := config app; recorder := recorder app; typer := typer app;
     transcriber := transcriber app;
     _is_recording := _is_recording app; _is_busy := b |}.

(** [__init__] once its three parts are built. *)
Definition assemble (c : AppConfig) (r : AudioRecorder.t) (ty : TextTyper)
    (tr : Transcriber) : t :=
  {| config := c; recorder := r; typer := ty; transcriber := tr;
     _is_recording := false; _is_busy := false |}.

(** [__init__] *)
Definition new (c : AppConfig) (sys : System) : result t * System :=
  match AudioRecorder.new (sample_rate c) sys with
  | Raise e => (Raise e, sys)
  | Ok r =>
      match new_TextTyper sys with
      | Raise e => (Raise e, sys)
      | Ok ty =>
          match create_transcriber c sys with
          | (Raise e, sys') => (Raise e, sys')
          | (Ok tr, sys') => (Ok (assemble c r ty tr), sys')
          end
      end
  end.

(** The two flags read as a session state; both set is none of them. *)
Definition state (app : t) : option session :=
  match _is_recording app, _is_busy app with
  | false, false => Some Idle
  | true, false => Some Recording
  | false, true => Some Transcribing
  | true, true => None
  end.

(** What the microphone driver and the file system answer during one
    press of the hotkey. *)
Record Driver : Type := {
  on_start : opening;
  on_stop : closing;
  on_write : writing;
}.

Definition toggle_recording (d : Driver) (st : t * World) : t * World :=
  let '(app, w) := st in
  if _is_busy app then
    (app, print busy_notice w)
  else if negb (_is_recording app) then
    match AudioRecorder.start (on_start d) (recorder app) with
    | (Raise exc, r) =>
        (set_recorder r app,
         eprint ("Kon opname niet starten: " +:+ exn_str exc) w)
    | (Ok _, r) =>
        (set_is_recording true (set_recorder r app),
         print "Opname gestart..." w)
    end
  else
    match AudioRecorder.stop (on_stop d) (on_write d)
                             (recorder app) (tmp w) with
    | (Raise exc, r, files) =>
        (set_is_recording false (set_recorder r app),
         eprint ("Kon opname niet stoppen: " +:+ exn_str exc)
                (set_tmp files w))
    | (Ok audio_path, r, files) =>
        (set_is_busy true (set_is_recording false (set_recorder r app)),
         spawn audio_path (print "Transcriberen..." (set_tmp files w)))
    end.

(** What the world outside answers to a background thread: what the
    backend makes of the sound file, whether the keyboard refuses the text,
    and whether the file system refuses to delete the file. *)
Record Backend : Type := {
  heard : result string;
  refused : option exn;
  unlinked : option exn;
}.

(** [_transcribe_and_type] up to the lock: the [try] with its handler,
    then the first statement of [finally].  An exception of [unlink] leaves
    the function there. *)
Definition transcribe_and_unlink (audio_path : string) (b : Backend)
    (app : t) (w : World) : result unit * World :=
  let w :=
    match heard b with
    | Ok answer =>
        let text := Py.strip answer in
        if negb (Py.nonempty text) then print "Geen tekst herkend." w
        else
          let text_to_type :=
            if append_space (config app) then text +:+ " " else text in
          match refused b with
          | None => print ("Getypt: " +:+ text) (type_text text_to_type w)
          | Some exc =>
              eprint ("Transcriptie mislukt: " +:+ exn_str exc) w
          end
    | Raise exc => eprint ("Transcriptie mislukt: " +:+ exn_str exc) w
    end in
  unlink audio_path (unlinked b) w.

(** The rest of [finally], under the lock. *)
Definition release (app : t) : t := set_is_busy false app.

(** [_transcribe_and_type], run in one go: the busy flag is cleared when
    [unlink] has returned, and not when it has raised. *)
Definition _transcribe_and_type (audio_path : string) (b : Backend)
    (st : t * World) : result unit * (t * World) :=
  let '(app, w) := st in
  match transcribe_and_unlink audio_path b app w with
  | (Ok _, w') => (Ok tt, (release app, w'))
  | (Raise e, w') => (Raise e, (app, w'))
  end.

(** What can happen to a running app: the hotkey is pressed; the driver
    delivers a block of samples to an open stream, with no status or with
    one; the [i]-th background thread gets its answer and deletes its file,
    or ends there when the file system raises; or it takes the lock and
    ends. *)
Inductive event : Type :=
  | Hotkey (d : Driver)
  | Audio (indata : chunk)
  | AudioStatus (indata : chunk) (flags : string)
  | Transcribes (i : nat) (b : Backend)
  | Releases (i : nat).

(** The driver calls [_callback] of a recorder whose stream is open. *)
Definition deliver (indata : chunk) (status : option string)
    (st : t * World) : t * World :=
  let '(app, w) := st in
  match AudioRecorder._stream (recorder app) with
  | Some _ =>
      let '(warnings, r) :=
        AudioRecorder._callback indata status (recorder app) in
      (set_recorder r app,
       fold_left (fun w warning => eprint warning w) warnings w)
  | None => st
  end.

Definition step (st : t * World) (e : event) : t * World :=
  let '(app, w) := st in
  match e with
  | Hotkey d => toggle_recording d st
  | Audio indata => deliver indata None st
  | AudioStatus indata flags => deliver indata (Some flags) st
  | Transcribes i b =>
      match threads w !! i with
      | Some (Running audio_path) =>
          match transcribe_and_unlink audio_path b app w with
          | (Ok _, w') =>
              (app, set_threads (<[i := Finishing]> (threads w)) w')
          | (Raise exc, w') =>
              (app,
               escape_thread exc (set_threads (delete i (threads w)) w'))
          end
      | _ => st
      end
  | Releases i =>
      match threads w !! i with
      | Some Finishing =>
          (release app, set_threads (delete i (threads w)) w)
      | _ => st
      end
  end.

Definition run (events : list event) (st : t * World) : t * World :=
  fold_left step events st.

End VoiceTyperApp.

(** ** Sample machines and configurations *)

(** A machine with everything installed, no variable set, and no model or
    client refused. *)
Definition bare_machine : System := {|
  environ := ∅;
  importable :=
    {[ "numpy"; "sounddevice"; "pynput.keyboard"; "faster_whisper";
       "requests"; "google.cloud.speech"; "google.generativeai" ]};
  refuses := fun _ => None;
  allocated := [];
|}.

Definition assemblyai_without_key : AppConfig := {|
  engine := "assemblyai";
  hotkey := "<ctrl>+<alt>+d";
  language := "nl";
  sample_rate := 16000;
  append_space := true;
  whisper_model := "small";
  whisper_device := "auto";
  whisper_compute_type := "int8";
  assemblyai_api_key := EmptyString;
  google_credentials_path := EmptyString;
  gemini_api_key := EmptyString;
|}.

Definition gemini_with_key : AppConfig := {|
  engine := "gemini";
  hotkey := "<ctrl>+<alt>+d";
  language := "nl";
  sample_rate := 16000;
  append_space := true;
  whisper_model := "small";
  whisper_device := "auto";
  whisper_compute_type := "int8";
  assemblyai_api_key := EmptyString;
  google_credentials_path := EmptyString;
  gemini_api_key := "k";
|}.

Definition unknown_engine : AppConfig := {|
  engine := "vosk";
  hotkey := "<ctrl>+<alt>+d";
  language := "nl";
  sample_rate := 16000;
  append_space := true;
  whisper_model := "small";
  whisper_device := "auto";
  whisper_compute_type := "int8";
  assemblyai_api_key := EmptyString;
  google_credentials_path := EmptyString;
  gemini_api_key := EmptyString;
|}.

Definition idle_recorder : AudioRecorder.t := {|
  AudioRecorder.sample_rate := 16000;
  AudioRecorder._frames := [];
  AudioRecorder._stream := None;
|}.

(** The app as [__init__] leaves it, with the default configuration. *)
Definition fresh_app : VoiceTyperApp.t :=
  VoiceTyperApp.assemble default_config idle_recorder Controller
    (WhisperTranscriber (WhisperModel "small" "auto" "int8") (Some "nl")).

Definition empty_world : World := {|
  tmp := ∅; threads := []; typed := []; stdout := []; stderr := [];
  uncaught := [];
|}.

(** A driver that does as asked, the sound file going to [path]. *)
Definition willing (path : string) : VoiceTyperApp.Driver := {|
  VoiceTyperApp.on_start := Started;
  VoiceTyperApp.on_stop := Closed;
  VoiceTyperApp.on_write := Written path;
|}.

Definition backend_down : VoiceTyperApp.Backend := {|
  VoiceTyperApp.heard := Raise (RuntimeError "AssemblyAI transcriptie mislukt.");
  VoiceTyperApp.refused := None;
  VoiceTyperApp.unlinked := None;
|}.

Definition backend_hears (text : string) : VoiceTyperApp.Backend := {|
  VoiceTyperApp.heard := Ok text;
  VoiceTyperApp.refused := None;
  VoiceTyperApp.unlinked := None;
|}.

(** The backend hears [text] and the file system then refuses to delete
    the sound file. *)
Definition file_stays (text : string) : VoiceTyperApp.Backend := {|
  VoiceTyperApp.heard := Ok text;
  VoiceTyperApp.refused := None;
  VoiceTyperApp.unlinked := Some (OSError "[Errno 13] Permission denied");
|}.

(** ** Invariants of the session *)

(** The two flags are never set together. *)
Definition exclusive (st : VoiceTyperApp.t * World) : Prop :=
  VoiceTyperApp._is_recording st.1 && VoiceTyperApp._is_busy st.1 = false.

(** There is never more than one background thread, and none while the
    busy flag is clear; as long as no exception has ended a thread there is
    exactly one while the flag is set. *)
Definition one_thread (st : VoiceTyperApp.t * World) : Prop :=
  (length (threads st.2)
   <= if VoiceTyperApp._is_busy st.1 then 1 else 0)%nat
  /\ (uncaught st.2 = [] ->
      length (threads st.2)
      = if VoiceTyperApp._is_busy st.1 then 1%nat else 0%nat).

(** The busy flag is set and nothing is left to clear it: the thread that
    would have was ended by an exception. *)
Definition stuck (st : VoiceTyperApp.t * World) : Prop :=
  VoiceTyperApp._is_busy st.1 = true /\ threads st.2 = []
  /\ uncaught st.2 <> [].

(** ** The modifier aliases as the specification lists them *)

Definition modifier_aliases : list (string * string) :=
  [ ("ctrl", "<ctrl>"); ("control", "<ctrl>");
    ("alt", "<alt>"); ("option", "<alt>");
    ("shift", "<shift>");
    ("cmd", "<cmd>"); ("command", "<cmd>");
    ("win", "<cmd>"); ("windows", "<cmd>") ].

(** A token in brackets. *)
Definition bracketed (part : string) : bool :=
  Py.startswith "<" part && Py.endswith ">" part.

(** What a normalized part looks like: no ["+"] in it, no blank around it,
    not empty, and left as it is by [normalize_part]. *)
Definition settled (n : string) : Prop :=
  Py.contains "+" n = false /\ Py.strip n = n /\ Py.nonempty n = true
  /\ normalize_part n = n.

(** ** Sample configuration files *)

(** The string fields of the configuration: key, field and default. *)
Definition string_fields : list (string * (AppConfig -> string) * string) :=
  [ ("hotkey", hotkey, "<ctrl>+<alt>+d");
    ("language", language, "nl");
    ("whisper_model", whisper_model, "small");
    ("whisper_device", whisper_device, "auto");
    ("whisper_compute_type", whisper_compute_type, "int8");
    ("assemblyai_api_key", assemblyai_api_key, EmptyString);
    ("google_credentials_path", google_credentials_path, EmptyString);
    ("gemini_api_key", gemini_api_key, EmptyString) ].

Definition lines (ls : list string) : string :=
  Py.join (Py.str [LF]) (ls ++ [EmptyString]).

(** A file whose [append_space] is a word that is no boolean. *)
Definition maybe_toml : string :=
  lines [ "append_space = " +:+ quote "maybe" ].

(** A file with values of the wrong kind in several fields. *)
Definition odd_toml : string :=
  lines [ "# written by hand";
          "hotkey = 5";
          "sample_rate = " +:+ quote "fast";
          "append_space = " +:+ quote " On ";
          "whisper_model = true";
          "engine = " +:+ quote "Google" ].

(** A file whose sample rate is the float infinity. *)
Definition infinite_toml : string :=
  lines [ "sample_rate = inf" ].

(** A file whose language is written with the escape for a line feed, and
    the configuration it is read as. *)
Definition escaped_toml : string :=
  lines [ "language = " +:+ Py.str [DQUOTE] +:+ "nl\nNL" +:+ Py.str [DQUOTE] ].

Definition two_line_language : AppConfig := {|
  engine := "whisper";
  hotkey := "<ctrl>+<alt>+d";
  language := Py.str ["n"; "l"; LF; "N"; "L"]%char;
  sample_rate := 16000;
  append_space := true;
  whisper_model := "small";
  whisper_device := "auto";
  whisper_compute_type := "int8";
  assemblyai_api_key := EmptyString;
  google_credentials_path := EmptyString;
  gemini_api_key := EmptyString;
|}.

(** What [odd_toml] reads as. *)
Definition odd_data : gmap string toml_value :=
  {[ "hotkey" := TInt 5;
     "sample_rate" := TStr "fast";
     "append_space" := TStr " On ";
     "whisper_model" := TBool true;
     "engine" := TStr "Google" ]}.

(** A file with a float, an array, a date, a table and an integer in
    hexadecimal, and what the library reads it as: 44100.5 is
    6061126567591936 * 2^-37. *)
Definition mixed_toml : string :=
  lines [ "sample_rate = 44100.5";
          "hotkey = [1, 2]";
          "append_space = 1979-05-27";
          "language = {a = 1}";
          "whisper_model = 0x10" ].

Definition mixed_data : gmap string toml_value :=
  {[ "sample_rate" := TFloat (S754_finite false 6061126567591936 (-37))
                             "44100.5";
     "hotkey" := TOther (Ok "[1, 2]");
     "append_space" := TOther (Ok "1979-05-27");
     "language" := TOther (Ok "{'a': 1}");
     "whisper_model" := TInt 16 ]}.

(** A library that reads the documents the reader covers as the reader
    says, and the others as [beyond] says. *)
Definition loads_with (beyond : string -> result (gmap string toml_value))
    (text : string) : result (gmap string toml_value) :=
  match toml_loads text with
  | Read data => Ok data
  | Refused e => Raise e
  | Beyond _ => beyond text
  end.

Definition tomllib_with (beyond : string -> result (gmap string toml_value))
  : Tomllib := {|
  loads := loads_with beyond;
  loads_read := fun text data H =>
    eq_ind_r (x := Read data)
      (fun r => match r with
                | Read d => Ok d
                | Refused e => Raise e
                | Beyond _ => beyond text
                end = Ok data) eq_refl H;
  loads_refused := fun text e H =>
    eq_ind_r (x := Refused e)
      (fun r => match r with
                | Read d => Ok d
                | Refused e' => Raise e'
                | Beyond _ => beyond text
                end = Raise e) eq_refl H;
|}.

(** One that refuses what the reader does not cover, and one that reads
    [mixed_toml]. *)
Definition strict_tomllib : Tomllib :=
  tomllib_with (fun _ => Raise TOMLDecodeError).

Definition mixed_tomllib : Tomllib :=
  tomllib_with (fun text => if String.eqb text mixed_toml then Ok mixed_data
                             else Raise TOMLDecodeError).

(** ** What [save_config] can write and [load_config] read back *)

(** A string without control characters, TAB apart. *)
Definition plain (s : string) : bool :=
  forallb (fun c => negb (illegal_ctrl c)) (Py.chars s).

(** The fields [save_config] writes as strings are all [plain]. *)
Definition plain_config (config : AppConfig) : bool :=
  plain (engine config) && plain (hotkey config) && plain (language config)
  && plain (whisper_model config) && plain (whisper_device config)
  && plain (whisper_compute_type config) && plain (assemblyai_api_key config)
  && plain (google_credentials_path config) && plain (gemini_api_key config).

(** A number in decimal without needless zeros in front. *)
Definition no_leading_zero (d : Decimal.uint) : bool :=
  match d with
  | Decimal.Nil => false
  | Decimal.D0 Decimal.Nil => true
  | Decimal.D0 _ => false
  | _ => true
  end.

(** The document [save_config] writes, once read. *)
Definition saved_data (config : AppConfig) : gmap string toml_value :=
  <["gemini_api_key" := TStr (gemini_api_key config)]>
  (<["google_credentials_path" := TStr (google_credentials_path config)]>
  (<["assemblyai_api_key" := TStr (assemblyai_api_key config)]>
  (<["whisper_compute_type" := TStr (whisper_compute_type config)]>
  (<["whisper_device" := TStr (whisper_device config)]>
  (<["whisper_model" := TStr (whisper_model config)]>
  (<["append_space" := TBool (append_space config)]>
  (<["sample_rate" := TInt (sample_rate config)]>
  (<["language" := TStr (language config)]>
  (<["hotkey" := TStr (hotkey config)]>
  (<["engine" := TStr (engine config)]> ∅)))))))))).

(** The characters [quote] puts between the quotes. *)
Definition escaped_chars (l : list ascii) : list ascii :=
  Py.replace_chars DQUOTE [BACKSLASH; DQUOTE]
    (Py.replace_chars BACKSLASH [BACKSLASH; BACKSLASH] l).

(** The four engines. *)
Definition engines : list string :=
  ["whisper"; "assemblyai"; "google"; "gemini"].

(** ** Overrides from the command line *)

(** The parsed arguments: an attribute the parser did not set is [None]. *)
Record Namespace : Type := {
  args_command : option string;
  args_config : string;
  args_engine : option string;
  args_hotkey : option string;
  args_language : option string;
  args_no_space : bool;
}.

Definition with_engine (e : string) (c : AppConfig) : AppConfig :=
  {| engine := e; hotkey := hotkey c; language := language c;
     sample_rate := sample_rate c; append_space := append_space c;
     whisper_model := whisper_model c; whisper_device := whisper_device c;
     whisper_compute_type := whisper_compute_type c;
     assemblyai_api_key := assemblyai_api_key c;
     google_credentials_path := google_credentials_path c;
     gemini_api_key := gemini_api_key c |}.

Definition with_hotkey (h : string) (c : AppConfig) : AppConfig :=
  {| engine := engine c; hotkey := h; language := language c;
     sample_rate := sample_rate c; append_space := append_space c;
     whisper_model := whisper_model c; whisper_device := whisper_device c;
     whisper_compute_type := whisper_compute_type c;
     assemblyai_api_key := assemblyai_api_key c;
     google_credentials_path := google_credentials_path c;
     gemini_api_key := gemini_api_key c |}.

Definition with_language (l : string) (c : AppConfig) : AppConfig :=
  {| engine := engine c; hotkey := hotkey c; language := l;
     sample_rate := sample_rate c; append_space := append_space c;
     whisper_model := whisper_model c; whisper_device := whisper_device c;
     whisper_compute_type := whisper_compute_type c;
     assemblyai_api_key := assemblyai_api_key c;
     google_credentials_path := google_credentials_path c;
     gemini_api_key := gemini_api_key c |}.

Definition with_append_space (b : bool) (c : AppConfig) : AppConfig :=
  {| engine := engine c; hotkey := hotkey c; language := language c;
     sample_rate := sample_rate c; append_space := b;
     whisper_model := whisper_model c; whisper_device := whisper_device c;
     whisper_compute_type := whisper_compute_type c;
     assemblyai_api_key := assemblyai_api_key c;
     google_credentials_path := google_credentials_path c;
     gemini_api_key := gemini_api_key c |}.

(** [if getattr(args, name, None): ...]: the attribute counts when it is set
    and not the empty string. *)
Definition given (attribute : option string) : option string :=
  match attribute with
  | Some s => if Py.nonempty s then Some s else None
  | None => None
  end.

Definition apply_runtime_overrides (config : AppConfig) (args : Namespace)
  : AppConfig :=
  let config :=
    match given (args_engine args) with
    | Some e => with_engine e config
    | None => config
    end in
  let config :=
    match given (args_hotkey args) with
    | Some h => with_hotkey h config
    | None => config
    end in
  let config :=
    match given (args_language args) with
    | Some l => with_language l config
    | None => config
    end in
  if args_no_space args then with_append_space false config else config.

(** ** The setup dialogue *)

(** The terminal: the lines still to be typed in, and what was written to
    it, one entry for each [print] and each prompt of [input]. *)
Record Terminal : Type := {
  pending : list string;
  shown : list string;
}.

(** What a step of the dialogue ends in: a value, the end of the input
    ([input] raises [EOFError]), or another exception. *)
Inductive outcome (A : Type) : Type :=
  | Done (a : A)
  | EndOfInput
  | Throws (e : exn).
Arguments Done {A} a.
Arguments EndOfInput {A}.
Arguments Throws {A} e.

Definition console (A : Type) : Type := Terminal -> outcome A * Terminal.

Definition ret {A} (a : A) : console A := fun t => (Done a, t).

Definition then_ {A B} (c : console A) (k : A -> console B) : console B :=
  fun t =>
    match c t with
    | (Done a, t') => k a t'
    | (EndOfInput, t') => (EndOfInput, t')
    | (Throws e, t') => (Throws e, t')
    end.

Notation "'do' x '<~' c 'in' k" := (then_ c (fun x => k))
  (at level 10, x name, c at level 100, k at level 200).

(** [print(text)] on the terminal. *)
Definition shows (text : string) (t : Terminal) : Terminal :=
  {| pending := pending t; shown := shown t ++ [text] |}.

Definition say (text : string) : console unit :=
  fun t => (Done tt, shows text t).

(** [input(text)] *)
Definition input (text : string) : console string :=
  fun t =>
    match pending t with
    | line :: rest =>
        (Done line, {| pending := rest; shown := shown t ++ [text] |})
    | [] => (EndOfInput, {| pending := []; shown := shown t ++ [text] |})
    end.

(** A call that may raise, inside the dialogue. *)
Definition lift {A} (r : result A) : console A :=
  fun t => match r with Ok a => (Done a, t) | Raise e => (Throws e, t) end.

Definition prompt (question fallback : string) : console string :=
  do line <~ input (question +:+ " [" +:+ fallback +:+ "]: ") in
  ret (or_else (Py.strip line) fallback).

(** [engine in {"whisper", "assemblyai", "google", "gemini"}] *)
Definition known_engine (e : string) : bool :=
  existsb (String.eqb e) engines.

Definition engine_question : string :=
  "Engine (whisper / assemblyai / google / gemini)".

(** The [while] loop of [run_setup]: it asks again until the engine is one
    of the four.  Every round reads a line, so the loop runs along the lines
    that are left. *)
Fixpoint ask_engine_again (fallback e : string) (lines : list string)
    (out : list string) : outcome string * Terminal :=
  if known_engine e then (Done e, {| pending := lines; shown := out |})
  else
    let out :=
      (out ++ [ "Kies whisper, assemblyai, google of gemini.";
                engine_question +:+ " [" +:+ fallback +:+ "]: " ])%list in
    match lines with
    | line :: rest =>
        ask_engine_again fallback
          (Py.lower (or_else (Py.strip line) fallback)) rest out
    | [] => (EndOfInput, {| pending := []; shown := out |})
    end.

Definition ask_engine (fallback : string) : console string :=
  do e <~ prompt engine_question fallback in
  fun t => ask_engine_again fallback (Py.lower e) (pending t) (shown t).

(** The questions of [run_setup], from the engine on: the configuration
    that the answers make of the existing one. *)
Definition setup_dialogue (existing : AppConfig) : console AppConfig :=
  do e <~ ask_engine (engine existing) in
  do h <~ prompt "Hotkey (bijv. ctrl+alt+d)" (hotkey existing) in
  do l <~ prompt "Taalcode (bijv. nl of nl-NL)" (language existing) in
  do rate_shown <~ lift (str_of_int (sample_rate existing)) in
  do rate_text <~ prompt "Sample rate" rate_shown in
  do rate <~ lift (_as_int (Some (TStr rate_text)) 16000) in
  do space_text <~ prompt "Spatie toevoegen na elke transcriptie? (y/n)"
                       (if append_space existing then "y" else "n") in
  let space := Py.startswith "y" (Py.lower space_text) in
  do models <~ (if String.eqb e "whisper" then
               do m <~ prompt "Whisper model (tiny/base/small/medium/large-v3)"
                           (whisper_model existing) in
               do d <~ prompt "Whisper device (auto/cpu/cuda)"
                           (whisper_device existing) in
               do c <~ prompt "Whisper compute_type (int8/float16/float32)"
                           (whisper_compute_type existing) in
               ret (m, d, c)
             else ret (whisper_model existing, whisper_device existing,
                       whisper_compute_type existing)) in
  do akey <~ (if String.eqb e "assemblyai" then
             prompt "AssemblyAI API key"
                    (or_else (assemblyai_api_key existing) "plak-hier-je-key")
           else ret (assemblyai_api_key existing)) in
  do gpath <~ (if String.eqb e "google" then
              prompt "Pad naar Google credentials JSON"
                     (or_else (google_credentials_path existing)
                              "C:/pad/naar/key.json")
            else ret (google_credentials_path existing)) in
  do gkey <~ (if String.eqb e "gemini" then
             prompt "Gemini API key"
                    (or_else (gemini_api_key existing) "plak-hier-je-key")
           else ret (gemini_api_key existing)) in
  ret {| engine := e; hotkey := h; language := l; sample_rate := rate;
         append_space := space;
         whisper_model := models.1.1; whisper_device := models.1.2;
         whisper_compute_type := models.2;
         assemblyai_api_key := akey; google_credentials_path := gpath;
         gemini_api_key := gkey |}.

(** [run_setup]: how it ends, what the terminal shows and the file system
    it leaves. *)
Definition run_setup {tomllib : Tomllib} (config_path : string) (o : saving)
    (fs : gmap string node) (t : Terminal)
  : outcome unit * Terminal * gmap string node :=
  let dialogue :=
    do existing <~ lift (load_config fs config_path) in
    do _ <~ say ("Configuratiebestand: " +:+ config_path) in
    setup_dialogue existing in
  match dialogue t with
  | (Done config, t') =>
      match save_config config config_path o fs with
      | (Ok _, fs') => (Done tt, shows "Configuratie opgeslagen." t', fs')
      | (Raise e, fs') => (Throws e, t', fs')
      end
  | (EndOfInput, t') => (EndOfInput, t', fs)
  | (Throws e, t') => (Throws e, t', fs)
  end.

(** What the dialogue makes of a configuration when every question is
    answered with the Enter key: the key or the path that the chosen
    engine asks for, when empty, becomes the text of its prompt. *)
Definition accepted (existing : AppConfig) : AppConfig := {|
  engine := engine existing;
  hotkey := hotkey existing;
  language := language existing;
  sample_rate := sample_rate existing;
  append_space := append_space existing;
  whisper_model := whisper_model existing;
  whisper_device := whisper_device existing;
  whisper_compute_type := whisper_compute_type existing;
  assemblyai_api_key :=
    if String.eqb (engine existing) "assemblyai"
    then or_else (assemblyai_api_key existing) "plak-hier-je-key"
    else assemblyai_api_key existing;
  google_credentials_path :=
    if String.eqb (engine existing) "google"
    then or_else (google_credentials_path existing) "C:/pad/naar/key.json"
    else google_credentials_path existing;
  gemini_api_key :=
    if String.eqb (engine existing) "gemini"
    then or_else (gemini_api_key existing) "plak-hier-je-key"
    else gemini_api_key existing;
|}.

(** ** Running the app from the command line *)

(** What waiting on the hotkey listener (or on the menu bar) ends in. *)
Inductive listening : Type :=
  | Quits
  | Interrupted
  | Crashes (e : exn).

(** How [VoiceTyperApp.run] ends: it returns, a [KeyboardInterrupt] leaves
    it, or another exception does. *)
Inductive ending : Type :=
  | Returned
  | KeyboardInterrupt
  | Failed (e : exn).

(** [VoiceTyperApp.run]: the import check, the hotkey, the four lines it
    prints, and then the listener, during which [events] happen to the
    app. *)
Definition app_run (app : VoiceTyperApp.t) (sys : System) (l : listening)
    (events : list VoiceTyperApp.event) (w : World) : ending * World :=
  if decide ("pynput.keyboard" ∈ importable sys) then
    match normalize_hotkey (hotkey (VoiceTyperApp.config app)) with
    | Raise e => (Failed e, w)
    | Ok normalized_hotkey =>
        let w := print "Voice Typer actief." w in
        let w := print ("Engine: " +:+ engine (VoiceTyperApp.config app)) w in
        let w := print ("Hotkey: " +:+ normalized_hotkey) w in
        let w :=
          print
            "Druk dezelfde hotkey om opname te starten/stoppen. Stop met Ctrl+C."
            w in
        let w := (VoiceTyperApp.run events (app, w)).2 in
        (match l with
         | Quits => Returned
         | Interrupted => KeyboardInterrupt
         | Crashes e => Failed e
         end, w)
    end
  else
    (Failed (RuntimeError
       "pynput ontbreekt. Installeer met: pip install -r requirements.txt"),
     w).

(** [main] for the command [run], from the parsed arguments on, with
    [args_config] as the path of the configuration once its [~] is
    expanded: the exit code, or the exception that leaves [main]. *)
Definition main_run {tomllib : Tomllib} (args : Namespace)
    (fs : gmap string node) (sys : System) (l : listening)
    (events : list VoiceTyperApp.event) (w : World)
  : result Z * System * World :=
  match load_config fs (args_config args) with
  | Raise e => (Raise e, sys, w)
  | Ok loaded =>
      let config := apply_runtime_overrides loaded args in
      match VoiceTyperApp.new config sys with
      | (Raise exc, sys') =>
          (Ok 1, sys', eprint ("Fout: " +:+ exn_str exc) w)
      | (Ok app, sys') =>
          match app_run app sys' l events w with
          | (Returned, w') => (Ok 0, sys', w')
          | (KeyboardInterrupt, w') =>
              (Ok 0, sys', print (Py.str [LF] +:+ "Afgesloten.") w')
          | (Failed exc, w') =>
              (Ok 1, sys', eprint ("Fout: " +:+ exn_str exc) w')
          end
      end
  end.

(** ** The settings window *)

(** A message box. *)
Inductive dialog : Type :=
  | ShowError (title message : string)
  | ShowInfo (title message : string).

(** The variables behind the widgets.  Reading the sample rate fails when
    the text in its box is no number. *)
Record Form : Type := {
  engine_var : string;
  hotkey_var : string;
  language_var : string;
  sample_rate_var : result Z;
  append_space_var : bool;
  whisper_model_var : string;
  whisper_device_var : string;
  whisper_compute_var : string;
  assemblyai_key_var : string;
  google_creds_var : string;
  gemini_key_var : string;
}.

Module SettingsWindow.

Record t : Type := {
  config_path : string;
  config : AppConfig;
  form : Form;
  result_ : option AppConfig;
  destroyed : bool;
  dialogs : list dialog;
}.

Definition _populate_from_config (c : AppConfig) : Form := {|
  engine_var := engine c;
  hotkey_var := hotkey c;
  language_var := language c;
  sample_rate_var := Ok (sample_rate c);
  append_space_var := append_space c;
  whisper_model_var := whisper_model c;
  whisper_device_var := whisper_device c;
  whisper_compute_var := whisper_compute_type c;
  assemblyai_key_var := assemblyai_api_key c;
  google_creds_var := google_credentials_path c;
  gemini_key_var := gemini_api_key c;
|}.

(** [__init__]: the configuration is loaded and shown. *)
Definition new {tomllib : Tomllib} (path : string) (fs : gmap string node)
  : result t :=
  let* c := load_config fs path in
  Ok {| config_path := path; config := c;
        form := _populate_from_config c;
        result_ := None; destroyed := false; dialogs := [] |}.

(** The user changes what the widgets hold. *)
Definition edit (f : Form) (win : t) : t :=
  {| config_path := config_path win; config := config win; form := f;
     result_ := result_ win; destroyed := destroyed win;
     dialogs := dialogs win |}.

Definition show (d : dialog) (win : t) : t :=
  {| config_path := config_path win; config := config win;
     form := form win; result_ := result_ win; destroyed := destroyed win;
     dialogs := dialogs win ++ [d] |}.

(** [_on_save]: how the call ends, the window and the file system.  An
    exception of reading the sample rate or of [save_config] leaves the
    method with the window as it was. *)
Definition _on_save (win : t) (o : saving) (fs : gmap string node)
  : result unit * t * gmap string node :=
  let f := form win in
  let hotkey_raw := Py.strip (hotkey_var f) in
  if negb (Py.nonempty hotkey_raw) then
    (Ok tt, show (ShowError "Fout" "Hotkey mag niet leeg zijn.") win, fs)
  else
    match normalize_hotkey hotkey_raw with
    | Raise exc => (Ok tt, show (ShowError "Fout" (exn_str exc)) win, fs)
    | Ok normalized =>
        match sample_rate_var f with
        | Raise e => (Raise e, win, fs)
        | Ok rate =>
            let new_config := {|
              engine := engine_var f;
              hotkey := normalized;
              language := or_else (Py.strip (language_var f)) "nl";
              sample_rate := rate;
              append_space := append_space_var f;
              whisper_model := whisper_model_var f;
              whisper_device := whisper_device_var f;
              whisper_compute_type := whisper_compute_var f;
              assemblyai_api_key := Py.strip (assemblyai_key_var f);
              google_credentials_path := Py.strip (google_creds_var f);
              gemini_api_key := Py.strip (gemini_key_var f);
            |} in
            match save_config new_config (config_path win) o fs with
            | (Raise e, fs') => (Raise e, win, fs')
            | (Ok _, fs') =>
                (Ok tt,
                 {| config_path := config_path win; config := config win;
                    form := f; result_ := Some new_config;
                    destroyed := true;
                    dialogs :=
                      dialogs win ++
                      [ShowInfo "Opgeslagen"
                         ("Configuratie opgeslagen naar" +:+ Py.str [LF]
                          +:+ config_path win)] |},
                 fs')
            end
        end
    end.

Definition _on_cancel (win : t) : t :=
  {| config_path := config_path win; config := config win;
     form := form win; result_ := result_ win; destroyed := true;
     dialogs := dialogs win |}.

End SettingsWindow.

(** ** The text a backend returns *)

(** [WhisperTranscriber.transcribe], from the texts of the segments the
    model found. *)
Definition whisper_text (segments : list string) : string :=
  let parts := List.filter Py.nonempty (map Py.strip segments) in
  Py.strip (Py.join " " parts).

(** [GoogleTranscriber.transcribe], from the transcripts of the alternatives
    of each result of the response. *)
Definition google_text (results : list (list string)) : string :=
  let firsts :=
    flat_map (fun alternatives =>
                match alternatives with
                | first :: _ => [Py.strip first]
                | [] => []
                end) results in
  Py.strip (Py.join " " (List.filter Py.nonempty firsts)).

(** A recorder whose stream handle is set while the app is not recording
    nor busy: what a failed start or stop of the stream leaves behind. *)
Definition wedged (st : VoiceTyperApp.t * World) : Prop :=
  AudioRecorder._stream (VoiceTyperApp.recorder st.1) <> None
  /\ VoiceTyperApp._is_recording st.1 = false
  /\ VoiceTyperApp._is_busy st.1 = false.

(** Every sound file in the temporary directory is the one a running
    background thread was started with. *)
Definition owned (st : VoiceTyperApp.t * World) : Prop :=
  forall path rate samples,
    tmp st.2 !! path = Some (Wav rate samples) ->
    Running path ∈ threads st.2.

(** Every text typed so far is more than white space. *)
Definition spoken (st : VoiceTyperApp.t * World) : Prop :=
  Forall (fun text => Py.nonempty (Py.strip text) = true) (typed st.2).

(** What the background thread types for an answer: the answer without the
    white space around it, with a space after it when the configuration
    asks for one, and nothing for a blank answer, a failed backend or a
    keyboard that refuses. *)
Definition spoken_text (app : VoiceTyperApp.t) (b : VoiceTyperApp.Backend)
  : list string :=
  match VoiceTyperApp.heard b, VoiceTyperApp.refused b with
  | Ok answer, None =>
      if Py.nonempty (Py.strip answer)
      then [if append_space (VoiceTyperApp.config app)
            then Py.strip answer +:+ " " else Py.strip answer]
      else []
  | _, _ => []
  end.

(** What a transcriber holds that had to be built: a model or a client. *)
Definition built (t : Transcriber) : list resource :=
  match t with
  | WhisperTranscriber model _ => [model]
  | AssemblyAITranscriber _ _ => []
  | GoogleTranscriber _ _ => [SpeechClient]
  | GeminiTranscriber model _ => [model]
  end.

(** A character that cannot start a part of a chord: the separator or
    white space. *)
Definition blank_char (c : ascii) : bool := Ascii.eqb c "+" || Py.isspace c.

(** A configuration with a capital in its engine, and a quote, a backslash
    and a TAB in its strings. *)
Definition odd_config : AppConfig := {|
  engine := "Gemini";
  hotkey := "<ctrl>+" +:+ Py.str [DQUOTE];
  language := "nl";
  sample_rate := -44100;
  append_space := false;
  whisper_model := "small";
  whisper_device := "auto";
  whisper_compute_type := "int8";
  assemblyai_api_key := EmptyString;
  google_credentials_path := "C:" +:+ Py.str [BACKSLASH] +:+ "key.json";
  gemini_api_key := "k" +:+ Py.str [TAB];
|}.

(** An event that writes no file at [path]: every event but a press of the
    hotkey for which the file system picks that path. *)
Definition avoids (path : string) (e : VoiceTyperApp.event) : Prop :=
  match e with
  | VoiceTyperApp.Hotkey d =>
      match VoiceTyperApp.on_write d with
      | Written p | WriteFails p _ => p <> path
      | MkstempFails _ => True
      end
  | _ => True
  end.

(** A file the writer gave up on, at a path that no background thread was
    started with. *)
Definition abandoned (path : string) (st : VoiceTyperApp.t * World) : Prop :=
  tmp st.2 !! path = Some Partial /\ Running path ∉ threads st.2.

(** * Properties *)

(** ** Strings and characters *)

Lemma chars_str (l : list ascii) : Py.chars (Py.str l) = l.
Proof. apply list_ascii_of_string_of_list_ascii. Qed.

Lemma str_chars (s : string) : Py.str (Py.chars s) = s.
Proof. apply string_of_list_ascii_of_string. Qed.

Lemma str_inj (l1 l2 : list ascii) : Py.str l1 = Py.str l2 -> l1 = l2.
Proof.
  intros H. rewrite <- (chars_str l1), <- (chars_str l2). now rewrite H.
Qed.

Lemma chars_inj (s1 s2 : string) : Py.chars s1 = Py.chars s2 -> s1 = s2.
Proof.
  intros H. rewrite <- (str_chars s1), <- (str_chars s2). now rewrite H.
Qed.

(** ** Language codes *)

Lemma google_defaults_miss (code : string) :
  code ∉ ["nl"; "en"; "de"; "fr"; "es"] -> google_defaults !! code = None.
Proof.
  intros H. unfold google_defaults.
  rewrite !lookup_insert_ne, lookup_singleton_ne; trivial;
    intros <-; apply H; set_solver.
Qed.

(** Claim C9.  The locale derived for the Google variant: the bare code
    ["nl"] becomes ["nl-NL"], and a code that already holds a ["-"], such as
    ["en-GB"], is returned as it is. *)
Theorem normalize_google_language_region (language : string) :
  Py.contains "-" language = true ->
  normalize_google_language "nl" = "nl-NL"
  /\ normalize_google_language "en-GB" = "en-GB"
  /\ normalize_google_language language = language.
Proof.
  intros H. split; [reflexivity|]. split; [reflexivity|].
  unfold normalize_google_language. now rewrite H.
Qed.

Lemma normalize_google_language_region_witness :
  Py.contains "-" "fr-CA" = true
  /\ normalize_google_language "fr-CA" = "fr-CA".
Proof.
  split; [reflexivity|].
  apply (normalize_google_language_region "fr-CA"). reflexivity.
Defined.

(** Claim C10.  A bare code, without ["-"], whose lower-case form is none of
    ["nl"], ["en"], ["de"], ["fr"], ["es"] is returned as it is: it gets no
    region, and a Google transcriber built for such a language, when it is
    not the empty string, holds the bare code. *)
Theorem normalize_google_language_unlisted (code : string) :
  Py.contains "-" code = false ->
  Py.lower code ∉ ["nl"; "en"; "de"; "fr"; "es"] ->
  normalize_google_language code = code
  /\ (Py.nonempty code = true ->
      forall config sys t sys',
        language config = code ->
        new_GoogleTranscriber config sys = (Ok t, sys') ->
        t = GoogleTranscriber (sample_rate config) code).
Proof.
  intros Hbare Hmiss.
  assert (H : normalize_google_language code = code).
  { unfold normalize_google_language.
    rewrite Hbare, (google_defaults_miss _ Hmiss). reflexivity. }
  split; [exact H|].
  intros Hne config sys t sys' Hlang. unfold new_GoogleTranscriber.
  rewrite Hlang. unfold or_else. rewrite Hne, H.
  case_decide; [|discriminate].
  destruct (allocate _ _) as [[u|e] sys'']; [|discriminate].
  now intros [= <- _].
Qed.

Lemma normalize_google_language_unlisted_witness :
  normalize_google_language "PT" = "PT"
  /\ forall config sys t sys',
       language config = "PT" ->
       new_GoogleTranscriber config sys = (Ok t, sys') ->
       t = GoogleTranscriber (sample_rate config) "PT".
Proof.
  destruct (normalize_google_language_unlisted "PT") as [H Hnew].
  - reflexivity.
  - rewrite !elem_of_cons, elem_of_nil. vm_compute.
    intros [H|[H|[H|[H|[H|[]]]]]]; discriminate H.
  - split; [exact H|]. exact (Hnew eq_refl).
Defined.

(** ** The recorder *)

Section Recorder.

Import AudioRecorder.

Lemma start_closed (r : AudioRecorder.t) :
  _stream r = None ->
  start Started r =
    (Ok tt, {| sample_rate := sample_rate r; _frames := [];
               _stream := Some (InputStream (sample_rate r)) |}).
Proof. intros H. unfold start. now rewrite H. Qed.

Lemma start_open (o : opening) (r : AudioRecorder.t) :
  _stream r <> None -> start o r = (Raise already_started, r).
Proof. intros H. unfold start. destruct (_stream r); congruence. Qed.

Lemma callbacks_frames (blocks : list chunk) (r : AudioRecorder.t) :
  _frames (fold_left (fun r b => (_callback b None r).2) blocks r)
  = (_frames r ++ blocks)%list.
Proof.
  revert r. induction blocks as [|b blocks IH]; intros r; simpl.
  - now rewrite app_nil_r.
  - rewrite IH. simpl. now rewrite <- app_assoc.
Qed.

(** Claim C7.  [stop()] on an open stream that delivered no block, the
    driver closing the stream: the call fails with the no-audio error, the
    stream handle is cleared, no file is made, and a [start()] after it
    succeeds. *)
Theorem stop_without_audio (r : AudioRecorder.t) (o : writing)
    (files : gmap string file) :
  _stream r <> None ->
  _frames r = [] ->
  exists r' r'',
    stop Closed o r files = (Raise no_audio, r', files)
    /\ _stream r' = None
    /\ start Started r' = (Ok tt, r'')
    /\ _stream r'' = Some (InputStream (sample_rate r)).
Proof.
  intros Hopen Hnone.
  exists {| sample_rate := sample_rate r; _frames := _frames r;
            _stream := None |}.
  eexists. unfold stop.
  destruct (_stream r) as [s|]; [|congruence].
  rewrite Hnone. simpl. repeat split; reflexivity.
Qed.

Lemma stop_without_audio_witness :
  let r := {| sample_rate := 16000; _frames := [];
              _stream := Some (InputStream 16000) |} in
  exists r' r'',
    stop Closed (Written "/tmp/voice_typer_1.wav") r ∅
      = (Raise no_audio, r', ∅)
    /\ _stream r' = None
    /\ start Started r' = (Ok tt, r'')
    /\ _stream r'' = Some (InputStream 16000).
Proof.
  intros r.
  apply (stop_without_audio r (Written "/tmp/voice_typer_1.wav") ∅).
  - discriminate.
  - reflexivity.
Defined.

End Recorder.

(** ** The transcriber factory *)

Lemma construct_variant (v : variant) (config : AppConfig) (sys sys' : System)
    (t : Transcriber) :
  construct v config sys = (Ok t, sys') -> variant_of t = v.
Proof.
  destruct v; simpl;
    [ unfold new_WhisperTranscriber | unfold new_AssemblyAITranscriber
    | unfold new_GoogleTranscriber | unfold new_GeminiTranscriber ];
    repeat (case_decide || case_match); intros [= <- <-]; reflexivity.
Qed.

Lemma create_transcriber_named (v : variant) (config : AppConfig)
    (sys : System) :
  engine config = engine_name v ->
  create_transcriber config sys = construct v config sys.
Proof.
  intros H. unfold create_transcriber. rewrite H. now destruct v.
Qed.

(** Claim C8, where it fails: the engine is a recognized name, and the
    factory returns no transcriber, since the variant it selects refuses to
    be built without a key. *)
Lemma create_transcriber_key_missing :
  engine assemblyai_without_key = engine_name AssemblyAI
  /\ create_transcriber assemblyai_without_key bare_machine
     = (Raise (RuntimeError
          "AssemblyAI key ontbreekt. Zet assemblyai_api_key in config of ASSEMBLYAI_API_KEY."),
        bare_machine)
  /\ ~ exists t sys',
       create_transcriber assemblyai_without_key bare_machine = (Ok t, sys').
Proof.
  assert (H : create_transcriber assemblyai_without_key bare_machine
     = (Raise (RuntimeError
          "AssemblyAI key ontbreekt. Zet assemblyai_api_key in config of ASSEMBLYAI_API_KEY."),
        bare_machine)) by (vm_compute; reflexivity).
  split; [reflexivity|]. split; [exact H|].
  intros (t & sys' & Ht). rewrite H in Ht. discriminate Ht.
Qed.

(** Claim C8, amended.  An engine that is none of the four names makes the
    factory fail with the invalid-engine error, nothing built and the
    machine as it was.  One of the four names makes it run the constructor
    of exactly that variant: what it returns is what that constructor
    returns, a transcriber of that variant or the constructor's failure. *)
Theorem create_transcriber_selects (config : AppConfig) (sys : System) :
  (engine config ∉ ["whisper"; "assemblyai"; "google"; "gemini"] ->
   create_transcriber config sys = (Raise invalid_engine, sys))
  /\ (forall v, engine config = engine_name v ->
        create_transcriber config sys = construct v config sys
        /\ forall t sys',
             create_transcriber config sys = (Ok t, sys') ->
             variant_of t = v).
Proof.
  split.
  - intros H. unfold create_transcriber.
    repeat match goal with
    | |- context [String.eqb ?a ?b] =>
        destruct (String.eqb_spec a b) as [Heq|_];
        [exfalso; apply H; rewrite Heq; set_solver|]
    end.
    reflexivity.
  - intros v Hv. split; [now apply create_transcriber_named|].
    intros t sys' Ht. rewrite (create_transcriber_named v) in Ht by exact Hv.
    eapply construct_variant, Ht.
Qed.

Lemma create_transcriber_selects_witness :
  create_transcriber unknown_engine bare_machine
    = (Raise invalid_engine, bare_machine)
  /\ exists t sys',
       create_transcriber gemini_with_key bare_machine = (Ok t, sys')
       /\ variant_of t = Gemini
       /\ allocated sys' = [GenerativeModel "k" "gemini-2.0-flash"].
Proof.
  split.
  - apply (create_transcriber_selects unknown_engine bare_machine).
    rewrite !elem_of_cons, elem_of_nil. vm_compute.
    intros [H|[H|[H|[H|[]]]]]; discriminate H.
  - destruct (create_transcriber gemini_with_key bare_machine)
      as [[t|e] sys'] eqn:E; [|vm_compute in E; discriminate E].
    exists t, sys'. split; [reflexivity|]. split.
    + destruct (create_transcriber_selects gemini_with_key bare_machine)
        as [_ Hnamed].
      destruct (Hnamed Gemini eq_refl) as [_ Hvariant].
      exact (Hvariant t sys' E).
    + vm_compute in E. now injection E as <- <-.
Defined.

(** ** The session state machine *)

Section Session.

Import VoiceTyperApp.

Lemma toggle_busy (d : Driver) (app : VoiceTyperApp.t) (w : World) :
  _is_busy app = true ->
  toggle_recording d (app, w) = (app, print busy_notice w).
Proof. intros H. unfold toggle_recording. now rewrite H. Qed.

Lemma state_idle (app : VoiceTyperApp.t) :
  state app = Some Idle <-> _is_recording app = false /\ _is_busy app = false.
Proof.
  unfold state. destruct (_is_recording app), (_is_busy app);
    split; try intros [? ?]; try discriminate; auto.
Qed.

Lemma state_transcribing (app : VoiceTyperApp.t) :
  state app = Some Transcribing
  <-> _is_recording app = false /\ _is_busy app = true.
Proof.
  unfold state. destruct (_is_recording app), (_is_busy app);
    split; try intros [? ?]; try discriminate; auto.
Qed.

(** Blocks of samples reach the recorder of a recording app in order, and
    touch nothing else. *)
Lemma run_audio (blocks : list chunk) (app : VoiceTyperApp.t) (w : World) :
  AudioRecorder._stream (recorder app) <> None ->
  run (map Audio blocks) (app, w)
  = (set_recorder
       (fold_left (fun r b => (AudioRecorder._callback b None r).2) blocks
                  (recorder app)) app,
     w).
Proof.
  revert app. induction blocks as [|b blocks IH]; intros app Hopen.
  - now destruct app.
  - unfold run in *. cbn [map fold_left step]. unfold deliver.
    destruct (AudioRecorder._stream (recorder app)) eqn:E; [|congruence].
    cbn [AudioRecorder._callback fold_left].
    rewrite IH; [reflexivity|]. simpl. now rewrite E.
Qed.

(** Claim C1.  From Idle, with a recorder that is not running: a first
    press whose [start()] succeeds gives Recording; after the driver has
    delivered its blocks, a second press whose [stop()] succeeds gives
    Transcribing and starts one background thread on the sound file that
    was written; a third press in that state changes nothing in the app
    and only prints the busy notice. *)
Theorem toggle_three_times (app : VoiceTyperApp.t) (w : World)
    (d1 d2 d3 : Driver) (blocks : list chunk) :
  let st1 := toggle_recording d1 (app, w) in
  let st1' := run (map Audio blocks) st1 in
  let st2 := toggle_recording d2 st1' in
  state app = Some Idle ->
  is_ok (AudioRecorder.start (on_start d1) (recorder app)).1 = true ->
  is_ok (AudioRecorder.stop (on_stop d2) (on_write d2)
                            (recorder st1'.1) (tmp st1'.2)).1.1 = true ->
  state st1.1 = Some Recording
  /\ state st2.1 = Some Transcribing
  /\ (exists audio_path,
        threads st2.2 = (threads w ++ [Running audio_path])%list
        /\ tmp st2.2 !! audio_path
           = Some (Wav (AudioRecorder.sample_rate (recorder app))
                       (concat blocks)))
  /\ toggle_recording d3 st2 = (st2.1, print busy_notice st2.2).
Proof.
  intros st1 st1' st2 Hidle Hstart Hstop.
  apply state_idle in Hidle as [Hrec Hbusy].
  (* the first press *)
  assert (Hopen : AudioRecorder._stream (recorder app) = None).
  { unfold AudioRecorder.start in Hstart.
    destruct (AudioRecorder._stream (recorder app)); [discriminate|easy]. }
  assert (E1 : st1 =
    (set_is_recording true
       (set_recorder
          {| AudioRecorder.sample_rate :=
               AudioRecorder.sample_rate (recorder app);
             AudioRecorder._frames := [];
             AudioRecorder._stream :=
               Some (InputStream (AudioRecorder.sample_rate (recorder app)))
          |} app),
     print "Opname gestart..." w)).
  { subst st1. unfold toggle_recording. rewrite Hbusy, Hrec. simpl.
    unfold AudioRecorder.start in *. rewrite Hopen in *.
    destruct (on_start d1); try discriminate Hstart. reflexivity. }
  (* the blocks *)
  assert (E1' : st1' =
    (set_is_recording true
       (set_recorder
          {| AudioRecorder.sample_rate :=
               AudioRecorder.sample_rate (recorder app);
             AudioRecorder._frames := blocks;
             AudioRecorder._stream :=
               Some (InputStream (AudioRecorder.sample_rate (recorder app)))
          |} app),
     print "Opname gestart..." w)).
  { subst st1'. rewrite E1, run_audio by (simpl; discriminate).
    unfold set_recorder, set_is_recording. simpl. f_equal. f_equal.
    pose proof (callbacks_frames blocks
      {| AudioRecorder.sample_rate :=
           AudioRecorder.sample_rate (recorder app);
         AudioRecorder._frames := [];
         AudioRecorder._stream :=
           Some (InputStream (AudioRecorder.sample_rate (recorder app)))
      |}) as Hframes.
    simpl in Hframes.
    destruct (fold_left _ blocks _) as [rate frames strm] eqn:Efold.
    simpl in Hframes. subst frames.
    assert (Hkeep : forall bs r,
      AudioRecorder.sample_rate
        (fold_left (fun r b => (AudioRecorder._callback b None r).2) bs r)
        = AudioRecorder.sample_rate r
      /\ AudioRecorder._stream
        (fold_left (fun r b => (AudioRecorder._callback b None r).2) bs r)
        = AudioRecorder._stream r).
    { induction bs as [|b bs IH]; intros r; cbn [fold_left]; [easy|].
      destruct (IH (AudioRecorder._callback b None r).2) as [-> ->]. easy. }
    destruct (Hkeep blocks
      {| AudioRecorder.sample_rate :=
           AudioRecorder.sample_rate (recorder app);
         AudioRecorder._frames := [];
         AudioRecorder._stream :=
           Some (InputStream (AudioRecorder.sample_rate (recorder app)))
      |}) as [Hr Hs].
    simpl in Hr, Hs. rewrite Efold in Hr, Hs. simpl in Hr, Hs. now subst. }
  (* the second press *)
  rewrite E1' in Hstop. simpl in Hstop.
  unfold AudioRecorder.stop in Hstop. simpl in Hstop.
  destruct (on_stop d2) eqn:Ec; try discriminate Hstop.
  destruct blocks as [|b blocks]; [discriminate Hstop|].
  destruct (on_write d2) as [e|p e|audio_path] eqn:Ew;
    try discriminate Hstop.
  assert (E2 : st2 =
    (set_is_busy true (set_is_recording false
       (set_recorder
          {| AudioRecorder.sample_rate :=
               AudioRecorder.sample_rate (recorder app);
             AudioRecorder._frames := b :: blocks;
             AudioRecorder._stream := None |} app)),
     spawn audio_path
       (print "Transcriberen..."
          (set_tmp (<[audio_path :=
                      Wav (AudioRecorder.sample_rate (recorder app))
                          (concat (b :: blocks))]> (tmp w))
                   (print "Opname gestart..." w))))).
  { subst st2. rewrite E1'. unfold toggle_recording. simpl.
    rewrite Hbusy. simpl. unfold AudioRecorder.stop. simpl.
    rewrite Ec, Ew. reflexivity. }
  split; [now rewrite E1; unfold state; simpl; rewrite Hbusy|].
  split; [now rewrite E2|].
  split.
  - exists audio_path. rewrite E2. simpl. split; [reflexivity|].
    apply lookup_insert_eq.
  - rewrite E2. apply toggle_busy. reflexivity.
Qed.

(** The thread that runs and then takes the lock is [_transcribe_and_type];
    the one that [unlink] ends never takes it. *)
Lemma thread_runs (audio_path : string) (b : Backend)
    (app : VoiceTyperApp.t) (w : World) :
  threads w = [Running audio_path] ->
  run [Transcribes 0 b; Releases 0] (app, w)
  = (let '(outcome, (app', w')) :=
       _transcribe_and_type audio_path b (app, w) in
     (app',
      match outcome with
      | Ok _ => set_threads [] w'
      | Raise exc => escape_thread exc (set_threads [] w')
      end)).
Proof.
  intros H. unfold run, _transcribe_and_type. cbn [fold_left step].
  rewrite H. cbn [lookup list_lookup].
  destruct (transcribe_and_unlink audio_path b app w) as [[u|exc] w'];
    reflexivity.
Qed.

(** A text that is heard is stripped, gets its space and is typed. *)
Lemma transcribe_and_type_types :
  let w := set_tmp {[ "/tmp/voice_typer_a.wav" := Wav 16000 [1; 2; 3] ]}
                   empty_world in
  _transcribe_and_type "/tmp/voice_typer_a.wav" (backend_hears " hallo  ")
                       (set_is_busy true fresh_app, w)
  = (Ok tt,
     (fresh_app, print "Getypt: hallo" (type_text "hallo " empty_world))).
Proof. vm_compute. reflexivity. Qed.

Lemma transcribe_and_unlink_outcome (audio_path : string) (b : Backend)
    (app : VoiceTyperApp.t) (w : World) :
  (transcribe_and_unlink audio_path b app w).1
  = match unlinked b with None => Ok tt | Some exc => Raise exc end.
Proof.
  unfold transcribe_and_unlink, unlink. now destruct (unlinked b).
Qed.

Lemma transcribe_and_unlink_tmp (audio_path : string) (b : Backend)
    (app : VoiceTyperApp.t) (w : World) :
  tmp (transcribe_and_unlink audio_path b app w).2
  = match unlinked b with
    | None => delete audio_path (tmp w)
    | Some _ => tmp w
    end.
Proof.
  unfold transcribe_and_unlink, unlink.
  destruct (unlinked b);
    (destruct (heard b) as [answer|exc]; simpl; [|reflexivity]);
    (destruct (Py.nonempty (Py.strip answer)); simpl; [|reflexivity]);
    destruct (refused b); reflexivity.
Qed.

Lemma transcribe_and_unlink_threads (audio_path : string) (b : Backend)
    (app : VoiceTyperApp.t) (w : World) :
  threads (transcribe_and_unlink audio_path b app w).2 = threads w
  /\ uncaught (transcribe_and_unlink audio_path b app w).2 = uncaught w.
Proof.
  unfold transcribe_and_unlink, unlink.
  destruct (unlinked b);
    (destruct (heard b) as [answer|exc]; simpl; [|split; reflexivity]);
    (destruct (Py.nonempty (Py.strip answer)); simpl;
     [|split; reflexivity]);
    destruct (refused b); split; reflexivity.
Qed.



End Session.

Section SessionRuns.

Import VoiceTyperApp.

Lemma toggle_three_times_witness :
  let d := willing "/tmp/voice_typer_a.wav" in
  let st1 := toggle_recording d (fresh_app, empty_world) in
  let st1' := run [Audio [1; 2]; Audio [3]] st1 in
  let st2 := toggle_recording d st1' in
  state st1.1 = Some Recording
  /\ state st2.1 = Some Transcribing
  /\ (exists audio_path,
        threads st2.2 = [Running audio_path]
        /\ tmp st2.2 !! audio_path = Some (Wav 16000 [1; 2; 3]))
  /\ toggle_recording d st2 = (st2.1, print busy_notice st2.2).
Proof.
  intros d.
  apply (toggle_three_times fresh_app empty_world d d d [[1; 2]; [3]]);
    reflexivity.
Defined.


Lemma step_exclusive (st : VoiceTyperApp.t * World) (e : event) :
  exclusive st -> exclusive (step st e).
Proof.
  destruct st as [app w]. unfold exclusive. simpl. intros H.
  destruct e as [d|indata|indata flags|i b|i]; simpl.
  - unfold toggle_recording.
    destruct (_is_busy app) eqn:Hbusy; [simpl; now rewrite Hbusy|].
    destruct (_is_recording app) eqn:Hrec; simpl.
    + destruct (AudioRecorder.stop _ _ _ _) as [[[path|exc] r] files];
        reflexivity.
    + destruct (AudioRecorder.start _ _) as [[u|exc] r]; simpl;
        [now rewrite Hbusy | now rewrite Hrec].
  - destruct (AudioRecorder._stream (recorder app)); exact H.
  - destruct (AudioRecorder._stream (recorder app)); exact H.
  - destruct (threads w !! i) as [[audio_path|]|]; try exact H.
    destruct (transcribe_and_unlink _ _ _ _) as [[u|exc] w']; exact H.
  - destruct (threads w !! i) as [[audio_path|]|]; simpl;
      [exact H | apply andb_false_r | exact H].
Qed.

Lemma run_exclusive (events : list event) (st : VoiceTyperApp.t * World) :
  exclusive st -> exclusive (run events st).
Proof.
  revert st. induction events as [|e events IH]; intros st H; [exact H|].
  apply IH, step_exclusive, H.
Qed.

(** Claim C3.  Start from the app as [__init__] leaves it and let any
    presses of the hotkey, blocks of samples and steps of background threads
    follow one another: the recording flag and the busy flag are never set
    together, and a press while the busy flag is set leaves the app, both
    flags included, as it was, printing the busy notice and nothing more. *)
Theorem single_flight (c : AppConfig) (r : AudioRecorder.t) (ty : TextTyper)
    (tr : Transcriber) (w : World) (events : list event) :
  let '(app, w') := run events (assemble c r ty tr, w) in
  (_is_recording app && _is_busy app = false)
  /\ (_is_busy app = true ->
      forall d, toggle_recording d (app, w') = (app, print busy_notice w')).
Proof.
  pose proof (run_exclusive events (assemble c r ty tr, w) eq_refl) as H.
  destruct (run events (assemble c r ty tr, w)) as [app w'].
  split; [exact H|].
  intros Hbusy d. now apply toggle_busy.
Qed.

Lemma single_flight_witness :
  let d := willing "/tmp/voice_typer_a.wav" in
  let '(app, w') :=
    run [Hotkey d; Audio [1; 2]; Hotkey d] (fresh_app, empty_world) in
  _is_busy app = true
  /\ _is_recording app = false
  /\ toggle_recording d (app, w') = (app, print busy_notice w').
Proof.
  intros d.
  pose proof (single_flight default_config idle_recorder Controller
    (WhisperTranscriber (WhisperModel "small" "auto" "int8") (Some "nl"))
    empty_world [Hotkey d; Audio [1; 2]; Hotkey d]) as H.
  change (assemble _ _ _ _) with fresh_app in H.
  destruct (run [Hotkey d; Audio [1; 2]; Hotkey d] (fresh_app, empty_world))
    as [app w'] eqn:E.
  assert (Hbusy : _is_busy app = true).
  { vm_compute in E. injection E as <- <-. reflexivity. }
  destruct H as [Hexcl Htoggle].
  split; [exact Hbusy|]. split.
  - rewrite Hbusy, andb_true_r in Hexcl. exact Hexcl.
  - exact (Htoggle Hbusy d).
Defined.

Lemma step_one_thread (st : VoiceTyperApp.t * World) (e : event) :
  one_thread st -> one_thread (step st e).
Proof.
  destruct st as [app w]. unfold one_thread. cbn [fst snd].
  intros [Hmost Hone].
  destruct e as [d|indata|indata flags|i b|i]; cbn [step].
  - unfold toggle_recording.
    destruct (_is_busy app) eqn:Hbusy; [cbn; now rewrite Hbusy|].
    destruct (_is_recording app) eqn:Hrec; cbn [negb].
    + destruct (AudioRecorder.stop _ _ _ _) as [[[path|exc] r] files];
        cbn; [|now rewrite Hbusy].
      rewrite length_app. cbn. split; [lia|]. intros Hnone. lia.
    + destruct (AudioRecorder.start _ _) as [[u|exc] r]; cbn;
        now rewrite Hbusy.
  - unfold deliver. destruct (AudioRecorder._stream (recorder app)); cbn; auto.
  - unfold deliver. destruct (AudioRecorder._stream (recorder app)); cbn; auto.
  - destruct (threads w !! i) as [[audio_path|]|] eqn:E; cbn; auto.
    pose proof (transcribe_and_unlink_threads audio_path b app w)
      as [_ Hu].
    destruct (transcribe_and_unlink audio_path b app w) as [[u|exc] w'];
      cbn in *.
    + rewrite length_insert, Hu. auto.
    + rewrite length_delete by (rewrite E; eauto). split; [lia|].
      intros Hnone. now apply app_eq_nil in Hnone as [_ ?].
  - destruct (threads w !! i) as [[audio_path|]|] eqn:E; cbn; auto.
    rewrite length_delete by (rewrite E; eauto).
    destruct (_is_busy app); split; lia.
Qed.

Lemma run_one_thread (events : list event) (st : VoiceTyperApp.t * World) :
  one_thread st -> one_thread (run events st).
Proof.
  revert st. induction events as [|e events IH]; intros st H; [exact H|].
  apply IH, step_one_thread, H.
Qed.

End SessionRuns.

(** ** Characters

    Each fact is checked on all 256 characters. *)

Ltac each_char c :=
  destruct c as [[] [] [] [] [] [] [] []]; vm_compute; reflexivity.

Lemma lower_char_idem (c : ascii) :
  Py.lower_char (Py.lower_char c) = Py.lower_char c.
Proof. each_char c. Qed.

Lemma isspace_lower_char (c : ascii) :
  Py.isspace (Py.lower_char c) = Py.isspace c.
Proof. each_char c. Qed.

Lemma lower_char_plus (c : ascii) :
  Ascii.eqb (Py.lower_char c) "+" = Ascii.eqb c "+".
Proof. each_char c. Qed.

Lemma lower_char_lt (c : ascii) :
  Ascii.eqb (Py.lower_char c) "<" = Ascii.eqb c "<".
Proof. each_char c. Qed.

Lemma lower_char_gt (c : ascii) :
  Ascii.eqb (Py.lower_char c) ">" = Ascii.eqb c ">".
Proof. each_char c. Qed.

(** ** Lists of characters *)

Section Dropwhile.

Context {A : Type} (p : A -> bool).

Lemma dropwhile_idem (l : list A) :
  Py.dropwhile p (Py.dropwhile p l) = Py.dropwhile p l.
Proof.
  induction l as [|x l IH]; simpl; [reflexivity|].
  destruct (p x) eqn:E; [exact IH|]. simpl. now rewrite E.
Qed.

Lemma dropwhile_In (x : A) (l : list A) :
  In x (Py.dropwhile p l) -> In x l.
Proof.
  induction l as [|y l IH]; simpl; [easy|].
  destruct (p y); simpl; auto.
Qed.

Lemma dropwhile_app_stop (l : list A) (x : A) (l' : list A) :
  p x = false ->
  Py.dropwhile p (l ++ x :: l') = (Py.dropwhile p l ++ x :: l')%list.
Proof.
  intros Hx. induction l as [|y l IH]; simpl.
  - now rewrite Hx.
  - destruct (p y); [exact IH|reflexivity].
Qed.

Lemma dropwhile_head (l : list A) :
  match Py.dropwhile p l with
  | [] => True
  | x :: _ => p x = false
  end.
Proof.
  induction l as [|y l IH]; simpl; [exact I|].
  destruct (p y) eqn:E; [exact IH|exact E].
Qed.

Lemma dropwhile_fixed (l : list A) :
  match l with [] => True | x :: _ => p x = false end ->
  Py.dropwhile p l = l.
Proof. destruct l as [|x l]; simpl; [easy|]. now intros ->. Qed.

Lemma takewhile_dropwhile (l : list A) :
  (Py.takewhile p l ++ Py.dropwhile p l)%list = l.
Proof.
  induction l as [|x l IH]; simpl; [reflexivity|].
  destruct (p x); simpl; [now rewrite IH|reflexivity].
Qed.

Lemma takewhile_app_stop (l : list A) (x : A) (l' : list A) :
  forallb p l = true -> p x = false ->
  Py.takewhile p (l ++ x :: l') = l /\ Py.dropwhile p (l ++ x :: l') = x :: l'.
Proof.
  intros Hl Hx. induction l as [|y l IH]; simpl in *.
  - now rewrite Hx.
  - apply andb_prop in Hl as [Hy Hl]. rewrite Hy.
    destruct (IH Hl) as [-> ->]. easy.
Qed.

End Dropwhile.

Lemma dropwhile_map {A B : Type} (p : B -> bool) (q : A -> bool)
    (f : A -> B) (l : list A) :
  (forall x, p (f x) = q x) ->
  Py.dropwhile p (map f l) = map f (Py.dropwhile q l).
Proof.
  intros H. induction l as [|x l IH]; simpl; [reflexivity|].
  rewrite H. destruct (q x); [exact IH|reflexivity].
Qed.

(** *** [strip] *)

Lemma strip_chars_head (l : list ascii) :
  match Py.strip_chars l with
  | [] => True
  | x :: _ => Py.isspace x = false
  end.
Proof.
  unfold Py.strip_chars, Py.rstrip_chars, Py.lstrip_chars.
  pose proof (dropwhile_head Py.isspace l) as H.
  destruct (Py.dropwhile Py.isspace l) as [|x m]; [exact I|].
  simpl rev. rewrite dropwhile_app_stop by exact H.
  rewrite rev_app_distr. simpl. exact H.
Qed.

Lemma strip_chars_idem (l : list ascii) :
  Py.strip_chars (Py.strip_chars l) = Py.strip_chars l.
Proof.
  pose proof (strip_chars_head l) as H.
  unfold Py.strip_chars at 1. unfold Py.lstrip_chars.
  rewrite (dropwhile_fixed _ _ H).
  unfold Py.strip_chars, Py.rstrip_chars.
  now rewrite rev_involutive, dropwhile_idem.
Qed.

Lemma strip_chars_In (x : ascii) (l : list ascii) :
  In x (Py.strip_chars l) -> In x l.
Proof.
  unfold Py.strip_chars, Py.rstrip_chars, Py.lstrip_chars.
  rewrite <- in_rev. intros H. apply dropwhile_In in H.
  rewrite <- in_rev in H. eapply dropwhile_In, H.
Qed.

Lemma strip_chars_lower (l : list ascii) :
  Py.strip_chars (map Py.lower_char l) = map Py.lower_char (Py.strip_chars l).
Proof.
  unfold Py.strip_chars, Py.rstrip_chars, Py.lstrip_chars.
  rewrite (dropwhile_map Py.isspace Py.isspace) by apply isspace_lower_char.
  rewrite <- map_rev.
  rewrite (dropwhile_map Py.isspace Py.isspace) by apply isspace_lower_char.
  now rewrite map_rev.
Qed.

(** *** [split] and [join] *)

Lemma split_chars_free (sep : ascii) (l : list ascii) :
  ~ In sep l -> Py.split_chars sep l = [l].
Proof.
  induction l as [|x l IH]; simpl; [reflexivity|].
  intros H. destruct (Ascii.eqb_spec x sep) as [->|_];
    [exfalso; apply H; now left|].
  rewrite IH by (intros Hin; apply H; now right). reflexivity.
Qed.

Lemma split_chars_app (sep : ascii) (p rest : list ascii) :
  ~ In sep p ->
  Py.split_chars sep (p ++ sep :: rest) = p :: Py.split_chars sep rest.
Proof.
  induction p as [|x p IH]; simpl; intros H.
  - now rewrite Ascii.eqb_refl.
  - destruct (Ascii.eqb_spec x sep) as [->|_];
      [exfalso; apply H; now left|].
    rewrite IH by (intros Hin; apply H; now right). reflexivity.
Qed.

Lemma split_join_chars (sep : ascii) (parts : list (list ascii)) :
  parts <> [] ->
  Forall (fun p => ~ In sep p) parts ->
  Py.split_chars sep (Py.join_chars [sep] parts) = parts.
Proof.
  induction parts as [|p parts IH]; [easy|]. intros _ H.
  apply Forall_cons in H as [Hp Hparts].
  destruct parts as [|q parts].
  - simpl. now apply split_chars_free.
  - change (Py.join_chars [sep] (p :: q :: parts))
      with (p ++ sep :: Py.join_chars [sep] (q :: parts))%list.
    rewrite split_chars_app by exact Hp.
    now rewrite IH.
Qed.

Lemma split_chars_parts (sep : ascii) (l : list ascii) :
  Forall (fun p => ~ In sep p) (Py.split_chars sep l).
Proof.
  induction l as [|x l IH]; simpl.
  - constructor; [easy|constructor].
  - destruct (Ascii.eqb_spec x sep) as [->|Hne].
    + constructor; [easy|exact IH].
    + destruct (Py.split_chars sep l) as [|w ws].
      * constructor; [|constructor]. intros [H|[]]. congruence.
      * apply Forall_cons in IH as [Hw Hws].
        constructor; [|exact Hws]. intros [H|H]; [congruence|auto].
Qed.

Lemma contains_In (c : ascii) (s : string) :
  Py.contains c s = false <-> ~ In c (Py.chars s).
Proof.
  unfold Py.contains. split.
  - intros H Hin.
    assert (existsb (Ascii.eqb c) (Py.chars s) = true) as E.
    { apply existsb_exists. exists c. split; [exact Hin|apply Ascii.eqb_refl]. }
    congruence.
  - intros H. destruct (existsb _ _) eqn:E; [|reflexivity].
    apply existsb_exists in E as (x & Hin & Hx).
    apply Ascii.eqb_eq in Hx. subst x. contradiction.
Qed.

Lemma split_join (sep : ascii) (tokens : list string) :
  tokens <> [] ->
  Forall (fun t => Py.contains sep t = false) tokens ->
  Py.split sep (Py.join (Py.str [sep]) tokens) = tokens.
Proof.
  intros Hne H. unfold Py.split, Py.join. rewrite !chars_str.
  rewrite split_join_chars.
  - rewrite map_map. rewrite <- (map_id tokens) at 2.
    apply map_ext. intros t. apply str_chars.
  - destruct tokens; [easy|discriminate].
  - apply Forall_map. eapply Forall_impl; [exact H|].
    intros t Ht. now apply contains_In.
Qed.

(** ** Strings *)

Lemma nonempty_str (l : list ascii) :
  Py.nonempty (Py.str l) = match l with [] => false | _ => true end.
Proof. now destruct l. Qed.

Lemma nonempty_chars (s : string) :
  Py.nonempty s = match Py.chars s with [] => false | _ => true end.
Proof. now destruct s. Qed.

Lemma lower_idem (s : string) : Py.lower (Py.lower s) = Py.lower s.
Proof.
  unfold Py.lower. rewrite chars_str, map_map. f_equal.
  apply map_ext, lower_char_idem.
Qed.

Lemma strip_idem (s : string) : Py.strip (Py.strip s) = Py.strip s.
Proof. unfold Py.strip. now rewrite chars_str, strip_chars_idem. Qed.

Lemma strip_lower (s : string) :
  Py.strip (Py.lower s) = Py.lower (Py.strip s).
Proof.
  unfold Py.strip, Py.lower. now rewrite !chars_str, strip_chars_lower.
Qed.

Lemma nonempty_lower (s : string) : Py.nonempty (Py.lower s) = Py.nonempty s.
Proof.
  unfold Py.lower. rewrite nonempty_str, nonempty_chars.
  now destruct (Py.chars s).
Qed.

Lemma contains_strip (c : ascii) (s : string) :
  Py.contains c s = false -> Py.contains c (Py.strip s) = false.
Proof.
  rewrite !contains_In. unfold Py.strip. rewrite chars_str.
  intros H Hin. apply H. eapply strip_chars_In, Hin.
Qed.

Lemma contains_plus_lower (s : string) :
  Py.contains "+" (Py.lower s) = Py.contains "+" s.
Proof.
  unfold Py.contains, Py.lower. rewrite chars_str.
  induction (Py.chars s) as [|x l IH]; cbn [map existsb]; [reflexivity|].
  rewrite IH. f_equal.
  rewrite (Ascii.eqb_sym "+" (Py.lower_char x)), (Ascii.eqb_sym "+" x).
  apply lower_char_plus.
Qed.

Lemma startswith_lower (s : string) :
  Py.startswith "<" (Py.lower s) = Py.startswith "<" s.
Proof.
  unfold Py.startswith, Py.lower. rewrite chars_str.
  destruct (Py.chars s) as [|x l]; cbn [map]; [reflexivity|].
  apply lower_char_lt.
Qed.

Lemma endswith_lower (s : string) :
  Py.endswith ">" (Py.lower s) = Py.endswith ">" s.
Proof.
  unfold Py.endswith, Py.lower. rewrite chars_str, <- map_rev.
  destruct (rev (Py.chars s)) as [|x l]; cbn [map]; [reflexivity|].
  apply lower_char_gt.
Qed.

Lemma bracketed_lower (s : string) : bracketed (Py.lower s) = bracketed s.
Proof. unfold bracketed. now rewrite startswith_lower, endswith_lower. Qed.

(** ** Hotkey chords *)

Lemma token_map_values (raw v : string) :
  token_map !! raw = Some v ->
  (raw, v) ∈ modifier_aliases.
Proof.
  unfold token_map, modifier_aliases. intros H.
  repeat (apply lookup_insert_Some in H as [[<- <-]|[_ H]]; [set_solver|]).
  apply lookup_singleton_Some in H as [<- <-]. set_solver.
Qed.

Lemma token_map_aliases (alias canon : string) :
  (alias, canon) ∈ modifier_aliases ->
  token_map !! alias = Some canon /\ bracketed alias = false
  /\ canon ∈ ["<ctrl>"; "<alt>"; "<shift>"; "<cmd>"].
Proof.
  unfold modifier_aliases. rewrite !elem_of_cons, elem_of_nil.
  intros H.
  repeat (destruct H as [[= -> ->]|H];
          [split; [reflexivity|split; [reflexivity|set_solver]]|]).
  destruct H.
Qed.

Lemma normalize_part_eq (part : string) :
  normalize_part part
  = if bracketed (Py.lower part) then Py.lower part
    else default (Py.lower part) (token_map !! Py.lower part).
Proof. reflexivity. Qed.

(** A recognized alias, in any case, goes to its canonical token. *)
Lemma normalize_part_alias (part alias canon : string) :
  (alias, canon) ∈ modifier_aliases ->
  Py.lower part = alias ->
  normalize_part part = canon.
Proof.
  intros Hin Hlow. apply token_map_aliases in Hin as (Hmap & Hbr & _).
  rewrite normalize_part_eq, Hlow, Hbr, Hmap. reflexivity.
Qed.

(** A token in brackets is kept, in lower case. *)
Lemma normalize_part_bracketed (part : string) :
  bracketed part = true -> normalize_part part = Py.lower part.
Proof.
  intros H. rewrite normalize_part_eq, bracketed_lower, H. reflexivity.
Qed.

Lemma canonical_settled (canon : string) :
  canon ∈ ["<ctrl>"; "<alt>"; "<shift>"; "<cmd>"] -> settled canon.
Proof.
  rewrite !elem_of_cons, elem_of_nil.
  intros [->|[->|[->|[->|[]]]]]; repeat split; vm_compute; reflexivity.
Qed.

Lemma normalize_part_settled (part : string) :
  Py.contains "+" part = false -> Py.strip part = part ->
  Py.nonempty part = true ->
  settled (normalize_part part).
Proof.
  intros Hplus Hstrip Hne. rewrite normalize_part_eq.
  assert (Hraw : Py.contains "+" (Py.lower part) = false
                 /\ Py.strip (Py.lower part) = Py.lower part
                 /\ Py.nonempty (Py.lower part) = true).
  { rewrite contains_plus_lower, strip_lower, nonempty_lower, Hstrip. auto. }
  destruct Hraw as (H1 & H2 & H3).
  destruct (bracketed (Py.lower part)) eqn:Hbr.
  - repeat split; trivial.
    rewrite normalize_part_eq, lower_idem, Hbr. reflexivity.
  - destruct (token_map !! Py.lower part) as [v|] eqn:Hmap; simpl.
    + apply token_map_values, token_map_aliases in Hmap as (_ & _ & Hv).
      now apply canonical_settled.
    + repeat split; trivial.
      rewrite normalize_part_eq, lower_idem, Hbr, Hmap. reflexivity.
Qed.

Lemma hotkey_parts_join (tokens : list string) :
  tokens <> [] ->
  Forall (fun t => Py.contains "+" t = false) tokens ->
  hotkey_parts (Py.join "+" tokens)
  = List.filter Py.nonempty (map Py.strip tokens).
Proof.
  intros Hne H. unfold hotkey_parts.
  change "+" with (Py.str ["+"%char]). now rewrite split_join.
Qed.

Lemma hotkey_parts_shape (hotkey part : string) :
  In part (hotkey_parts hotkey) ->
  Py.contains "+" part = false /\ Py.strip part = part
  /\ Py.nonempty part = true.
Proof.
  unfold hotkey_parts. rewrite filter_In, in_map_iff.
  intros [(t & <- & Ht) Hne].
  split; [|split; [apply strip_idem|exact Hne]].
  apply contains_strip, contains_In.
  unfold Py.split in Ht. apply in_map_iff in Ht as (l & <- & Hl).
  rewrite chars_str.
  pose proof (split_chars_parts "+" (Py.chars hotkey)) as Hall.
  rewrite List.Forall_forall in Hall. now apply Hall.
Qed.

Lemma filter_settled (parts : list string) :
  Forall settled parts ->
  List.filter Py.nonempty (map Py.strip parts) = parts
  /\ map normalize_part parts = parts
  /\ Forall (fun t => Py.contains "+" t = false) parts.
Proof.
  induction 1 as [|n parts (H1 & H2 & H3 & H4) _ (IH1 & IH2 & IH3)]; simpl.
  - repeat split; constructor.
  - rewrite H2, H3, H4, IH1, IH2. repeat split. now constructor.
Qed.

Lemma normalize_hotkey_settled (ns : list string) :
  ns <> [] -> Forall settled ns ->
  normalize_hotkey (Py.join "+" ns) = Ok (Py.join "+" ns).
Proof.
  intros Hne Hall.
  destruct (filter_settled _ Hall) as (Hfilter & Hmap & Hplus).
  unfold normalize_hotkey.
  rewrite hotkey_parts_join, Hfilter by trivial.
  destruct ns as [|n ns']; [easy|]. now rewrite Hmap.
Qed.

(** Normalizing what [normalize_hotkey] returned returns it. *)
Lemma normalize_hotkey_idem (hotkey out : string) :
  normalize_hotkey hotkey = Ok out -> normalize_hotkey out = Ok out.
Proof.
  unfold normalize_hotkey at 1.
  destruct (hotkey_parts hotkey) as [|p ps] eqn:Hparts; [discriminate|].
  intros [= <-].
  apply (normalize_hotkey_settled (map normalize_part (p :: ps)));
    [discriminate|].
  apply Forall_map, List.Forall_forall. intros part Hin.
  rewrite <- Hparts in Hin.
  apply hotkey_parts_shape in Hin as (H1 & H2 & H3).
  now apply normalize_part_settled.
Qed.

(** Claim C4, where it fails: a token in brackets with a capital letter does
    not pass through unchanged, it comes out in lower case. *)
Lemma normalize_hotkey_bracketed_capital :
  bracketed "<Ctrl>" = true
  /\ normalize_part "<Ctrl>" = "<ctrl>"
  /\ normalize_hotkey "<Ctrl>+d" = Ok "<ctrl>+d"
  /\ normalize_hotkey "<Ctrl>+d" <> Ok "<Ctrl>+d".
Proof. repeat split; try (vm_compute; reflexivity). vm_compute. discriminate. Qed.

(** Claim C4, amended.  A chord made of tokens joined by ["+"], at least one
    of them not blank: the blank tokens are dropped, every other token is
    stripped of the white space around it and normalized on its own.  A
    token whose lower-case form is a recognized alias becomes the canonical
    token of that alias; a token in brackets is kept in lower case, so
    unchanged when it holds no capital letter; and normalizing the chord
    that [normalize_hotkey] returned returns that chord. *)
Theorem normalize_hotkey_canonical :
  (forall tokens : list string,
     tokens <> [] ->
     Forall (fun t => Py.contains "+" t = false) tokens ->
     List.filter Py.nonempty (map Py.strip tokens) <> [] ->
     normalize_hotkey (Py.join "+" tokens)
     = Ok (Py.join "+"
             (map normalize_part
                  (List.filter Py.nonempty (map Py.strip tokens)))))
  /\ (forall part alias canon : string,
        (alias, canon) ∈ modifier_aliases ->
        Py.lower part = alias -> normalize_part part = canon)
  /\ (forall part : string,
        bracketed part = true ->
        normalize_part part = Py.lower part
        /\ (Py.lower part = part -> normalize_part part = part))
  /\ (forall hotkey out : string,
        normalize_hotkey hotkey = Ok out -> normalize_hotkey out = Ok out).
Proof.
  split; [|split; [|split]].
  - intros tokens Hne Hplus Hparts. unfold normalize_hotkey.
    rewrite hotkey_parts_join by trivial.
    destruct (List.filter _ _); [easy|reflexivity].
  - apply normalize_part_alias.
  - intros part H. rewrite (normalize_part_bracketed part H).
    split; [reflexivity|easy].
  - apply normalize_hotkey_idem.
Qed.

Lemma normalize_hotkey_canonical_witness :
  normalize_hotkey (Py.join "+" ["Control "; "  "; " <ALT>"; "d"])
    = Ok "<ctrl>+<alt>+d"
  /\ normalize_part "Windows" = "<cmd>"
  /\ normalize_part "<f5>" = "<f5>"
  /\ normalize_hotkey "<ctrl>+<alt>+d" = Ok "<ctrl>+<alt>+d".
Proof.
  destruct normalize_hotkey_canonical as (Htokens & Halias & Hbr & Hidem).
  split; [|split; [|split]].
  - rewrite (Htokens ["Control "; "  "; " <ALT>"; "d"]).
    + vm_compute. reflexivity.
    + discriminate.
    + repeat constructor.
    + vm_compute. discriminate.
  - apply (Halias "Windows" "windows" "<cmd>"); [|reflexivity].
    unfold modifier_aliases. rewrite !elem_of_cons.
    do 8 right. left. reflexivity.
  - apply (Hbr "<f5>"); reflexivity.
  - apply (Hidem "Control+<ALT>+d"). vm_compute. reflexivity.
Defined.

(** ** Loading the configuration *)

Lemma int_of_str_cases (s : string) :
  (exists n, int_of_str s = Ok n)
  \/ (exists msg, int_of_str s = Raise (ValueError msg)).
Proof.
  unfold int_of_str.
  destruct (split_sign _) as [negative l].
  destruct (lex_digits l) as [[d rest]|]; [|right; now eexists].
  destruct (misplaced_underscore rest); [right; now eexists|].
  destruct (int_max_str_digits <? _); [right; now eexists|].
  destruct (forallb isspace_int rest); [left; eauto|right; now eexists].
Qed.

Lemma as_int_total (value : option toml_value) (fallback : Z) :
  (forall negative shown,
     value <> Some (TFloat (S754_infinity negative) shown)) ->
  (forall n, py_int value = Ok n -> _as_int value fallback = Ok n)
  /\ (is_ok (py_int value) = false -> _as_int value fallback = Ok fallback).
Proof.
  intros Hfinite. unfold _as_int. split.
  - now intros n ->.
  - destruct value as [[s|n|x shown|b|shown]|]; simpl; try discriminate;
      try reflexivity.
    + destruct (int_of_str_cases s) as [[n ->]|[msg ->]];
        [discriminate|reflexivity].
    + destruct x; simpl; try discriminate; try reflexivity.
      exfalso. eapply Hfinite. reflexivity.
Qed.

(** A string of more than 4300 digits is no number for [int()]: the default
    is taken. *)
Lemma as_int_long_string (s : string) (count : Z) (fallback : Z) :
  int_of_str s = Raise (int_limit count) ->
  _as_int (Some (TStr s)) fallback = Ok fallback.
Proof. unfold _as_int. simpl. now intros ->. Qed.

(** Loading a file the library reads. *)
Lemma load_config_loads {tomllib : Tomllib} (fs : gmap string node)
    (config_path text : string) (data : gmap string toml_value) :
  fs !! config_path = Some (File text) ->
  loads text = Ok data ->
  load_config fs config_path
  = (let* engine_ := _as_str (data !! "engine") "whisper" in
     let* hotkey_ := _as_str (data !! "hotkey") "<ctrl>+<alt>+d" in
     let* language_ := _as_str (data !! "language") "nl" in
     let* rate := _as_int (data !! "sample_rate") 16000 in
     let space := _as_bool (data !! "append_space") true in
     let* model := _as_str (data !! "whisper_model") "small" in
     let* device := _as_str (data !! "whisper_device") "auto" in
     let* compute_type := _as_str (data !! "whisper_compute_type") "int8" in
     let* assemblyai_key :=
       _as_str (data !! "assemblyai_api_key") EmptyString in
     let* credentials :=
       _as_str (data !! "google_credentials_path") EmptyString in
     let* gemini_key := _as_str (data !! "gemini_api_key") EmptyString in
     Ok {| engine := Py.lower engine_; hotkey := hotkey_;
           language := language_; sample_rate := rate;
           append_space := space; whisper_model := model;
           whisper_device := device; whisper_compute_type := compute_type;
           assemblyai_api_key := assemblyai_key;
           google_credentials_path := credentials;
           gemini_api_key := gemini_key |}).
Proof. intros Hfile Hdata. unfold load_config. now rewrite Hfile, Hdata. Qed.

(** Claim C5, where it fails: a word that is no boolean in [append_space]
    does not give the default [true], it reads as [false], whatever the
    library does with the documents the reader does not cover. *)
Lemma load_config_word_for_bool :
  toml_loads maybe_toml = Read {[ "append_space" := TStr "maybe" ]}
  /\ append_space default_config = true
  /\ forall tomllib : Tomllib,
       exists config,
         load_config {[ "voice-typer.toml" := File maybe_toml ]}
                     "voice-typer.toml"
         = Ok config
         /\ append_space config = false.
Proof.
  assert (H : toml_loads maybe_toml
              = Read {[ "append_space" := TStr "maybe" ]})
    by (vm_compute; reflexivity).
  split; [exact H|]. split; [reflexivity|]. intros tomllib.
  rewrite (load_config_loads _ _ maybe_toml
             {[ "append_space" := TStr "maybe" ]});
    [|apply lookup_singleton_eq|now apply loads_read].
  eexists. split; [vm_compute; reflexivity|reflexivity].
Qed.

(** A sample rate that is the float infinity is not replaced by the default:
    the overflow error of [int()] leaves [_as_int] and [load_config]. *)
Lemma load_config_infinite_rate :
  toml_loads infinite_toml
    = Read {[ "sample_rate" := TFloat (S754_infinity false) "inf" ]}
  /\ forall tomllib : Tomllib,
       load_config {[ "voice-typer.toml" := File infinite_toml ]}
                   "voice-typer.toml"
       = Raise (OverflowError "cannot convert float infinity to integer").
Proof.
  assert (H : toml_loads infinite_toml
              = Read {[ "sample_rate" := TFloat (S754_infinity false) "inf" ]})
    by (vm_compute; reflexivity).
  split; [exact H|]. intros tomllib.
  rewrite (load_config_loads _ _ infinite_toml
             {[ "sample_rate" := TFloat (S754_infinity false) "inf" ]});
    [|apply lookup_singleton_eq|now apply loads_read].
  vm_compute. reflexivity.
Qed.

(** Claim C5, amended.  Without a file [load_config] returns the documented
    defaults.  With a file that the library reads as the document [data],
    in which [str()] of the value of each string key returns and the sample
    rate is not an infinite float, [load_config] returns a configuration,
    field by field:
    - a string field takes its default when the key is missing and
      otherwise [str()] of the value, whatever its kind ([engine] in lower
      case);
    - [sample_rate] is [int()] of the value when [int()] accepts it, and the
      default 16000 when it does not (a missing key, a string that is no
      number or has more than 4300 digits, a NaN, an array, a table, a
      date);
    - [append_space] takes the default [true] when the key is missing or
      holds an array, a table or a date; a boolean is taken as it is, a
      number as being non-zero, and a string as [true] exactly when,
      stripped and in lower case, it is one of the words 1, true, yes, y,
      on. *)
Theorem load_config_field_by_field {tomllib : Tomllib}
    (fs : gmap string node) (config_path : string) :
  (fs !! config_path = None ->
   load_config fs config_path
   = Ok {| engine := "whisper"; hotkey := "<ctrl>+<alt>+d";
           language := "nl"; sample_rate := 16000; append_space := true;
           whisper_model := "small"; whisper_device := "auto";
           whisper_compute_type := "int8";
           assemblyai_api_key := EmptyString;
           google_credentials_path := EmptyString;
           gemini_api_key := EmptyString |})
  /\ (forall (text : string) (data : gmap string toml_value),
        fs !! config_path = Some (File text) ->
        loads text = Ok data ->
        (forall v, data !! "engine" = Some v -> is_ok (py_str v) = true) ->
        (forall key field fallback v,
           (key, field, fallback) ∈ string_fields ->
           data !! key = Some v -> is_ok (py_str v) = true) ->
        (forall negative shown,
           data !! "sample_rate"
           <> Some (TFloat (S754_infinity negative) shown)) ->
        exists config,
          load_config fs config_path = Ok config
          /\ match data !! "engine" with
             | None => engine config = "whisper"
             | Some v =>
                 exists shown,
                   py_str v = Ok shown /\ engine config = Py.lower shown
             end
          /\ (forall key field fallback,
                (key, field, fallback) ∈ string_fields ->
                match data !! key with
                | None => field config = fallback
                | Some v => py_str v = Ok (field config)
                end)
          /\ (forall n, py_int (data !! "sample_rate") = Ok n ->
                        sample_rate config = n)
          /\ (is_ok (py_int (data !! "sample_rate")) = false ->
              sample_rate config = 16000)
          /\ append_space config
             = match data !! "append_space" with
               | None | Some (TOther _) => true
               | Some (TBool b) => b
               | Some (TInt n) => negb (n =? 0)
               | Some (TFloat x _) => float_truth x
               | Some (TStr s) =>
                   bool_decide (Py.lower (Py.strip s)
                                ∈ ["1"; "true"; "yes"; "y"; "on"])
               end).
Proof.
  split.
  - intros H. unfold load_config. now rewrite H.
  - intros text data Hfile Hdata Hengine Hstr Hfinite.
    destruct (as_int_total (data !! "sample_rate") 16000 Hfinite)
      as [Hint Hdefault].
    rewrite (load_config_loads fs config_path text data Hfile Hdata).
    assert (Hshown : forall key fallback,
      (key = "engine"
       \/ exists field, (key, field, fallback) ∈ string_fields) ->
      exists shown,
        _as_str (data !! key) fallback = Ok shown
        /\ match data !! key with
           | None => shown = fallback
           | Some v => py_str v = Ok shown
           end).
    { intros key fallback Hkey. unfold _as_str.
      destruct (data !! key) as [v|] eqn:Ev; [|eauto].
      assert (Hok : is_ok (py_str v) = true).
      { destruct Hkey as [->|[field Hin]]; [now apply Hengine|].
        now apply (Hstr key field fallback). }
      destruct (py_str v) as [shown|e]; [eauto|discriminate]. }
    assert (Hfield : forall key field fallback,
      (key, field, fallback) ∈ string_fields ->
      exists shown,
        _as_str (data !! key) fallback = Ok shown
        /\ match data !! key with
           | None => shown = fallback
           | Some v => py_str v = Ok shown
           end).
    { intros key field fallback Hin. apply Hshown. right. eauto. }
    destruct (Hshown "engine" "whisper") as (engine_ & -> & He); [now left|].
    destruct (Hfield "hotkey" hotkey "<ctrl>+<alt>+d")
      as (hotkey_ & -> & H1); [unfold string_fields; rewrite !elem_of_cons; auto 12|].
    destruct (Hfield "language" language "nl")
      as (language_ & -> & H2); [unfold string_fields; rewrite !elem_of_cons; auto 12|].
    destruct (Hfield "whisper_model" whisper_model "small")
      as (model & -> & H3); [unfold string_fields; rewrite !elem_of_cons; auto 12|].
    destruct (Hfield "whisper_device" whisper_device "auto")
      as (device & -> & H4); [unfold string_fields; rewrite !elem_of_cons; auto 12|].
    destruct (Hfield "whisper_compute_type" whisper_compute_type "int8")
      as (compute_type & -> & H5); [unfold string_fields; rewrite !elem_of_cons; auto 12|].
    destruct (Hfield "assemblyai_api_key" assemblyai_api_key EmptyString)
      as (assemblyai_key & -> & H6); [unfold string_fields; rewrite !elem_of_cons; auto 12|].
    destruct (Hfield "google_credentials_path" google_credentials_path
                EmptyString)
      as (credentials & -> & H7); [unfold string_fields; rewrite !elem_of_cons; auto 12|].
    destruct (Hfield "gemini_api_key" gemini_api_key EmptyString)
      as (gemini_key & -> & H8); [unfold string_fields; rewrite !elem_of_cons; auto 12|].
    cbn [bind].
    destruct (_as_int (data !! "sample_rate") 16000) as [rate|e].
    2:{ exfalso. destruct (py_int (data !! "sample_rate")) as [n|e'].
        - discriminate (Hint n eq_refl).
        - discriminate (Hdefault eq_refl). }
    cbn [bind]. eexists. split; [reflexivity|]. cbn [engine append_space
      sample_rate].
    split.
    { destruct (data !! "engine") as [v|]; [eauto|now subst]. }
    split.
    { intros key field fallback Hin. unfold string_fields in Hin.
      rewrite !elem_of_cons, elem_of_nil in Hin.
      repeat (destruct Hin as [Heq|Hin];
              [injection Heq as Ekey Efield Efallback;
               rewrite Ekey, Efield, Efallback; assumption|]).
      destruct Hin. }
    split; [intros n Hn; specialize (Hint n Hn); congruence|].
    split; [intros Hn; specialize (Hdefault Hn); congruence|].
    destruct (data !! "append_space") as [[s|n|x shown|b|shown]|];
      simpl; try reflexivity.
    unfold truthy_words. simpl.
    rewrite !orb_false_r.
    destruct (bool_decide _) eqn:Hdec.
    + apply bool_decide_eq_true in Hdec.
      rewrite !elem_of_cons, elem_of_nil in Hdec.
      destruct Hdec as [->|[->|[->|[->|[->|[]]]]]]; reflexivity.
    + apply bool_decide_eq_false in Hdec.
      repeat match goal with
      | |- context [String.eqb ?a ?b] =>
          destruct (String.eqb_spec a b) as [Heq|_];
          [exfalso; apply Hdec; rewrite Heq; set_solver|]
      end.
      reflexivity.
Qed.

Lemma load_config_field_by_field_witness :
  load_config (tomllib := mixed_tomllib) ∅ "voice-typer.toml"
  = Ok default_config
  /\ exists config,
       load_config (tomllib := mixed_tomllib)
                   {[ "voice-typer.toml" := File mixed_toml ]}
                   "voice-typer.toml"
       = Ok config
       /\ engine config = "whisper"
       /\ hotkey config = "[1, 2]"
       /\ language config = "{'a': 1}"
       /\ whisper_model config = "16"
       /\ sample_rate config = 44100
       /\ append_space config = true.
Proof.
  split.
  - apply (load_config_field_by_field (tomllib := mixed_tomllib)
             ∅ "voice-typer.toml"). reflexivity.
  - destruct (load_config_field_by_field (tomllib := mixed_tomllib)
                {[ "voice-typer.toml" := File mixed_toml ]}
                "voice-typer.toml")
      as [_ H].
    destruct (H mixed_toml mixed_data) as (config & Hload & Hengine & Hstr
                                           & Hrate & _ & Hspace).
    + reflexivity.
    + vm_compute. reflexivity.
    + intros v Hv. vm_compute in Hv. discriminate Hv.
    + intros key field fallback v Hin Hv. unfold string_fields in Hin.
      rewrite !elem_of_cons, elem_of_nil in Hin.
      repeat (destruct Hin as [Heq|Hin];
              [injection Heq as Ekey _ _; rewrite Ekey in Hv;
               vm_compute in Hv; try discriminate Hv;
               injection Hv as <-; reflexivity|]).
      destruct Hin.
    + vm_compute. discriminate.
    + exists config. split; [exact Hload|].
      split; [exact Hengine|].
      split.
      { pose proof (Hstr "hotkey" hotkey "<ctrl>+<alt>+d") as Hh.
        change (mixed_data !! "hotkey") with (Some (TOther (Ok "[1, 2]")))
          in Hh.
        assert (Hin : ("hotkey", hotkey, "<ctrl>+<alt>+d") ∈ string_fields)
          by (unfold string_fields; rewrite !elem_of_cons; auto).
        specialize (Hh Hin). now injection Hh as <-. }
      split.
      { pose proof (Hstr "language" language "nl") as Hh.
        change (mixed_data !! "language")
          with (Some (TOther (Ok "{'a': 1}"))) in Hh.
        assert (Hin : ("language", language, "nl") ∈ string_fields)
          by (unfold string_fields; rewrite !elem_of_cons; auto).
        specialize (Hh Hin). now injection Hh as <-. }
      split.
      { pose proof (Hstr "whisper_model" whisper_model "small") as Hh.
        change (mixed_data !! "whisper_model") with (Some (TInt 16)) in Hh.
        assert (Hin : ("whisper_model", whisper_model, "small")
                      ∈ string_fields)
          by (unfold string_fields; rewrite !elem_of_cons; auto).
        specialize (Hh Hin).
        change (py_str (TInt 16)) with (Ok "16" : result string) in Hh.
        now injection Hh as <-. }
      split; [apply Hrate; vm_compute; reflexivity|].
      rewrite Hspace. vm_compute. reflexivity.
Defined.

(** ** Saving and loading again *)

(** Claim C6, at a configuration that [load_config] itself returns: the
    language holds a line feed, [save_config] writes it as it is between the
    quotes, and the file it wrote cannot be loaded, whatever the library
    does with the documents the reader does not cover. *)
Lemma save_config_line_feed :
  engine two_line_language = "whisper"
  /\ forall tomllib : Tomllib,
       load_config {[ "voice-typer.toml" := File escaped_toml ]}
                   "voice-typer.toml"
       = Ok two_line_language
       /\ exists fs,
            save_config two_line_language "voice-typer.toml" (Saved ∅) ∅
            = (Ok tt, fs)
            /\ load_config fs "voice-typer.toml" = Raise TOMLDecodeError.
Proof.
  split; [reflexivity|]. intros tomllib. split.
  - rewrite (load_config_loads _ _ escaped_toml
               {[ "language" := TStr (language two_line_language) ]});
      [vm_compute; reflexivity|apply lookup_singleton_eq|].
    apply loads_read. vm_compute. reflexivity.
  - eexists. split; [reflexivity|].
    unfold load_config. rewrite lookup_insert_eq.
    rewrite (loads_refused _ TOMLDecodeError); [reflexivity|].
    vm_compute. reflexivity.
Qed.

(** *** Integers in decimal *)

Lemma lex_digits_tail_chars (d : Decimal.uint) (rest : list ascii) :
  ends_number rest = true ->
  lex_digits_tail (digit_chars d ++ rest) = (d, rest).
Proof.
  intros Hrest. induction d; simpl; try (rewrite IHd; reflexivity).
  destruct rest as [|c rest]; [reflexivity|].
  assert (digit_of_char c = None /\ Ascii.eqb c "_" = false) as [Hd Hu].
  { revert Hrest. unfold ends_number, toml_ws.
    destruct c as [[] [] [] [] [] [] [] []]; vm_compute; intros H;
      try discriminate H; split; reflexivity. }
  cbn [lex_digits_tail]. now rewrite Hd, Hu.
Qed.

Lemma lex_toml_digits_chars (d : Decimal.uint) (rest : list ascii) :
  no_leading_zero d = true -> ends_number rest = true ->
  lex_toml_digits (digit_chars d ++ rest) = Some (d, rest).
Proof.
  intros Hd Hrest.
  destruct d as [|d|d|d|d|d|d|d|d|d|d]; try discriminate Hd;
    try (simpl; now rewrite lex_digits_tail_chars).
  destruct d; try discriminate Hd. reflexivity.
Qed.

Lemma split_sign_digits (d : Decimal.uint) (rest : list ascii) :
  split_sign (digit_chars d ++ rest)
  = match d with
    | Decimal.Nil => split_sign rest
    | _ => (false, (digit_chars d ++ rest)%list)
    end.
Proof. destruct d; reflexivity. Qed.

Lemma to_uint_no_leading_zero (p : positive) :
  no_leading_zero (Pos.to_uint p) = true.
Proof.
  pose proof (DecimalPos.Unsigned.to_of (Pos.to_uint p)) as Hnorm.
  rewrite DecimalPos.Unsigned.of_to in Hnorm. simpl in Hnorm.
  pose proof (DecimalPos.Unsigned.to_uint_nonnil p) as Hnn.
  destruct (Pos.to_uint p) as [|d|d|d|d|d|d|d|d|d|d] eqn:E;
    try reflexivity; [easy|].
  destruct d; try reflexivity; exfalso;
    unfold Decimal.unorm in Hnorm;
    match type of Hnorm with
    | _ = match ?h with _ => _ end =>
        destruct h eqn:Hh;
        try discriminate Hnorm;
        symmetry in Hnorm; revert Hnorm; rewrite <- Hh;
        apply DecimalFacts.nzhead_nonzero
    end.
Qed.

Lemma of_uint_to_uint (p : positive) : Z.of_uint (Pos.to_uint p) = Z.pos p.
Proof. unfold Z.of_uint. now rewrite DecimalPos.Unsigned.of_to. Qed.

(** The number the reader finds is the number that was printed. *)
Lemma parse_number_int_chars (z : Z) (rest : list ascii) :
  digits z <= int_max_str_digits ->
  ends_number rest = true ->
  parse_number (int_chars z ++ rest) = Read (TInt z, rest).
Proof.
  intros Hdigits Hrest. apply Z.ltb_ge in Hdigits.
  revert Hdigits. unfold digits, int_chars, parse_number.
  destruct z as [|p|p]; simpl Z.to_int; cbv iota; intros Hdigits.
  - simpl. now rewrite Hrest.
  - pose proof (to_uint_no_leading_zero p) as Hp.
    rewrite split_sign_digits.
    destruct (Pos.to_uint p) eqn:E; try discriminate Hp;
      rewrite <- E in *;
      rewrite lex_toml_digits_chars, Hrest, Hdigits by trivial;
      unfold signed; now rewrite of_uint_to_uint.
  - pose proof (to_uint_no_leading_zero p) as Hp.
    change (split_sign (("-"%char :: digit_chars (Pos.to_uint p)) ++ rest))
      with (true, (digit_chars (Pos.to_uint p) ++ rest)%list).
    cbv beta iota.
    rewrite lex_toml_digits_chars, Hrest, Hdigits by trivial.
    unfold signed. now rewrite of_uint_to_uint.
Qed.

Lemma int_chars_head (z : Z) :
  match int_chars z with
  | c :: _ => c = "-"%char \/ digit_of_char c <> None
  | [] => False
  end.
Proof.
  unfold int_chars. destruct z as [|p|p]; simpl Z.to_int; cbv iota.
  - right. discriminate.
  - pose proof (DecimalPos.Unsigned.to_uint_nonnil p) as Hnn.
    destruct (Pos.to_uint p); try easy; right; discriminate.
  - left. reflexivity.
Qed.

Lemma parse_value_number (c : ascii) (l : list ascii) :
  c = "-"%char \/ digit_of_char c <> None ->
  parse_value (c :: l) = parse_number (c :: l).
Proof.
  intros H.
  assert (Ascii.eqb c DQUOTE = false /\ Ascii.eqb c "'" = false
          /\ Ascii.eqb "t" c = false /\ Ascii.eqb "f" c = false
          /\ Ascii.eqb c "[" = false /\ Ascii.eqb c "{" = false)
    as (H1 & H2 & H3 & H4 & H5 & H6).
  { destruct H as [->|H]; [repeat split|].
    revert H. destruct c as [[] [] [] [] [] [] [] []]; vm_compute;
      intros H; try (exfalso; apply H; reflexivity); repeat split. }
  unfold parse_value. rewrite H1, H2, H5, H6.
  cbn [starts_with Py.chars list_ascii_of_string]. now rewrite H3, H4.
Qed.

(** *** Quoted strings *)

Lemma chars_append (a b : string) :
  Py.chars (a +:+ b) = (Py.chars a ++ Py.chars b)%list.
Proof.
  induction a as [|c a IH]; simpl; [reflexivity|].
  unfold Py.chars in *. simpl. now rewrite IH.
Qed.

Lemma quote_chars (s : string) :
  Py.chars (quote s) = DQUOTE :: (escaped_chars (Py.chars s) ++ [DQUOTE])%list.
Proof.
  unfold quote, Py.replace. rewrite !chars_append, !chars_str. reflexivity.
Qed.

Lemma escaped_chars_cons (c : ascii) (l : list ascii) :
  escaped_chars (c :: l)
  = ((if Ascii.eqb c BACKSLASH then [BACKSLASH; BACKSLASH]
      else if Ascii.eqb c DQUOTE then [BACKSLASH; DQUOTE]
      else [c]) ++ escaped_chars l)%list.
Proof.
  unfold escaped_chars, Py.replace_chars. cbn [flat_map].
  rewrite flat_map_app. f_equal.
  destruct (Ascii.eqb_spec c BACKSLASH) as [->|Hb]; [reflexivity|].
  cbn [flat_map]. rewrite app_nil_r.
  destruct (Ascii.eqb c DQUOTE); reflexivity.
Qed.

Lemma basic_str_escaped (l rest : list ascii) :
  forallb (fun c => negb (illegal_ctrl c)) l = true ->
  basic_str (escaped_chars l ++ DQUOTE :: rest) = Read (l, rest).
Proof.
  induction l as [|c l IH]; intros Hl.
  - reflexivity.
  - cbn [forallb] in Hl. apply andb_prop in Hl as [Hc Hl].
    apply negb_true_iff in Hc. specialize (IH Hl).
    rewrite escaped_chars_cons.
    destruct (Ascii.eqb_spec c BACKSLASH) as [->|Hb].
    + cbn [app basic_str].
      change (Ascii.eqb BACKSLASH DQUOTE) with false.
      change (Ascii.eqb BACKSLASH BACKSLASH) with true.
      change (escape_of BACKSLASH) with (Escaped BACKSLASH).
      cbv iota. now rewrite IH.
    + destruct (Ascii.eqb_spec c DQUOTE) as [->|Hq].
      * cbn [app basic_str].
        change (Ascii.eqb BACKSLASH DQUOTE) with false.
        change (Ascii.eqb BACKSLASH BACKSLASH) with true.
        change (escape_of DQUOTE) with (Escaped DQUOTE).
        cbv iota. now rewrite IH.
      * cbn [app basic_str].
        apply Ascii.eqb_neq in Hb, Hq. rewrite Hq, Hb, Hc, IH. reflexivity.
Qed.

Lemma escaped_chars_head (l : list ascii) :
  starts_with [DQUOTE; DQUOTE] (escaped_chars l ++ [DQUOTE]) = false.
Proof.
  destruct l as [|c l]; [reflexivity|].
  rewrite escaped_chars_cons.
  destruct (Ascii.eqb_spec c BACKSLASH) as [->|Hb]; [reflexivity|].
  destruct (Ascii.eqb_spec c DQUOTE) as [->|Hq]; [reflexivity|].
  cbn [app starts_with]. apply Ascii.eqb_neq in Hq.
  now rewrite Ascii.eqb_sym, Hq.
Qed.

(** The string the reader finds is the string that was quoted. *)
Lemma parse_value_quote (s : string) :
  plain s = true -> parse_value (Py.chars (quote s)) = Read (TStr s, []).
Proof.
  intros Hs. rewrite quote_chars. unfold parse_value.
  change (Ascii.eqb DQUOTE DQUOTE) with true. cbv iota.
  rewrite escaped_chars_head, basic_str_escaped by exact Hs.
  simpl. now rewrite str_chars.
Qed.

Lemma parse_value_int_chars (z : Z) :
  digits z <= int_max_str_digits ->
  parse_value (int_chars z) = Read (TInt z, []).
Proof.
  intros Hdigits.
  pose proof (int_chars_head z) as H.
  pose proof (parse_number_int_chars z [] Hdigits eq_refl) as Hn.
  rewrite app_nil_r in Hn.
  destruct (int_chars z) as [|c l]; [easy|].
  now rewrite parse_value_number.
Qed.

(** *** Lines *)

Lemma bare_key_char_not_ws (c : ascii) :
  bare_key_char c = true -> toml_ws c = false.
Proof.
  destruct c as [[] [] [] [] [] [] [] []]; vm_compute; congruence.
Qed.

(** A line [key = value], the key bare and the value at the end of the
    line, reads as that key with the value found. *)
Lemma parse_line_pair (key : string) (value : list ascii) (v : toml_value) :
  Py.nonempty key = true ->
  forallb bare_key_char (Py.chars key) = true ->
  parse_value value = Read (v, []) ->
  match value with c :: _ => toml_ws c = false | [] => True end ->
  parse_line (Py.chars key ++ Py.chars " = " ++ value) = Read (Some (key, v)).
Proof.
  intros Hne Hbare Hvalue Hhead. rewrite nonempty_chars in Hne.
  destruct (Py.chars key) as [|c k] eqn:Ekey; [discriminate|].
  assert (Hc : bare_key_char c = true)
    by (cbn [forallb] in Hbare; now apply andb_prop in Hbare as [? _]).
  destruct (takewhile_app_stop bare_key_char (c :: k) " "%char
              ("="%char :: " "%char :: value) Hbare eq_refl) as [Htake Hdrop].
  change ((c :: k) ++ Py.chars " = " ++ value)%list
    with ((c :: k) ++ " "%char :: "="%char :: " "%char :: value)%list.
  unfold parse_line.
  rewrite (dropwhile_fixed toml_ws ((c :: k) ++ _))
    by (apply bare_key_char_not_ws, Hc).
  cbn [app]. rewrite Hc.
  change (c :: (k ++ " "%char :: "="%char :: " "%char :: value))%list
    with ((c :: k) ++ " "%char :: "="%char :: " "%char :: value)%list.
  rewrite Htake, Hdrop.
  cbn [Py.dropwhile]. change (toml_ws " ") with true.
  change (toml_ws "=") with false. cbv iota.
  change (Ascii.eqb "=" "=") with true. cbv iota.
  cbn [Py.dropwhile]. change (toml_ws " ") with true. cbv iota.
  replace (Py.dropwhile toml_ws value) with value.
  2:{ destruct value as [|x value]; [reflexivity|].
      cbn [Py.dropwhile]. now rewrite Hhead. }
  rewrite Hvalue. unfold and_then, end_of_line. cbn [Py.dropwhile].
  rewrite <- Ekey, str_chars. reflexivity.
Qed.

Lemma parse_line_str (key s : string) :
  Py.nonempty key = true ->
  forallb bare_key_char (Py.chars key) = true ->
  plain s = true ->
  parse_line (Py.chars (key +:+ " = " +:+ quote s))
  = Read (Some (key, TStr s)).
Proof.
  intros Hne Hbare Hs. rewrite !chars_append.
  apply parse_line_pair; trivial.
  - now apply parse_value_quote.
  - now rewrite quote_chars.
Qed.

Lemma parse_line_int (key : string) (z : Z) :
  Py.nonempty key = true ->
  forallb bare_key_char (Py.chars key) = true ->
  digits z <= int_max_str_digits ->
  parse_line (Py.chars (key +:+ " = " +:+ decimal z))
  = Read (Some (key, TInt z)).
Proof.
  intros Hne Hbare Hdigits. rewrite !chars_append. unfold decimal.
  rewrite chars_str.
  apply parse_line_pair; trivial.
  - now apply parse_value_int_chars.
  - pose proof (int_chars_head z) as H.
    destruct (int_chars z) as [|c l]; [exact I|].
    destruct H as [->|H]; [reflexivity|].
    revert H. destruct c as [[] [] [] [] [] [] [] []]; vm_compute;
      intros H; try reflexivity; exfalso; apply H; reflexivity.
Qed.

Lemma parse_line_bool (key : string) (b : bool) :
  Py.nonempty key = true ->
  forallb bare_key_char (Py.chars key) = true ->
  parse_line (Py.chars (key +:+ " = " +:+ (if b then "true" else "false")))
  = Read (Some (key, TBool b)).
Proof.
  intros Hne Hbare. rewrite !chars_append.
  apply parse_line_pair; trivial; destruct b; reflexivity.
Qed.

(** *** Documents *)

Lemma unix_newlines_id (l : list ascii) :
  ~ In CR l -> unix_newlines l = l.
Proof.
  induction l as [|c l IH]; [reflexivity|]. intros H.
  assert (Hc : Ascii.eqb c CR = false)
    by (apply Ascii.eqb_neq; intros ->; apply H; now left).
  cbn [unix_newlines]. rewrite Hc. cbn [andb].
  rewrite IH by (intros Hin; apply H; now right).
  now destruct l.
Qed.

Lemma join_chars_In (x : ascii) (sep : list ascii)
    (parts : list (list ascii)) :
  In x (Py.join_chars sep parts) ->
  In x sep \/ exists p, In p parts /\ In x p.
Proof.
  induction parts as [|p parts IH]; [easy|].
  destruct parts as [|q parts].
  - intros H. right. exists p. split; [now left|exact H].
  - change (Py.join_chars sep (p :: q :: parts))
      with (p ++ sep ++ Py.join_chars sep (q :: parts))%list.
    rewrite !in_app_iff. intros [H|[H|H]].
    + right. exists p. split; [now left|exact H].
    + now left.
    + destruct (IH H) as [Hs|(p' & Hp' & Hx)]; [now left|].
      right. exists p'. split; [now right|exact Hx].
Qed.

Lemma plain_In (x : ascii) (l : list ascii) :
  forallb (fun c => negb (illegal_ctrl c)) l = true -> In x l ->
  illegal_ctrl x = false.
Proof.
  rewrite forallb_forall. intros H Hin.
  apply negb_true_iff. now apply H.
Qed.

Lemma plain_escaped (l : list ascii) :
  forallb (fun c => negb (illegal_ctrl c)) l = true ->
  forallb (fun c => negb (illegal_ctrl c)) (escaped_chars l) = true.
Proof.
  induction l as [|c l IH]; [reflexivity|]. cbn [forallb].
  intros H. apply andb_prop in H as [Hc Hl].
  rewrite escaped_chars_cons, forallb_app, (IH Hl), andb_true_r.
  destruct (Ascii.eqb c BACKSLASH); [reflexivity|].
  destruct (Ascii.eqb c DQUOTE); [reflexivity|].
  cbn [forallb]. now rewrite Hc.
Qed.

Lemma plain_quote (s : string) : plain s = true -> plain (quote s) = true.
Proof.
  unfold plain. intros H. rewrite quote_chars. cbn [forallb].
  rewrite forallb_app, (plain_escaped _ H). reflexivity.
Qed.

Lemma plain_digit_chars (d : Decimal.uint) :
  forallb (fun c => negb (illegal_ctrl c)) (digit_chars d) = true.
Proof. induction d; simpl; trivial. Qed.

Lemma plain_decimal (z : Z) : plain (decimal z) = true.
Proof.
  unfold plain, decimal, int_chars. rewrite chars_str.
  destruct (Z.to_int z); [|cbn [forallb]]; now rewrite plain_digit_chars.
Qed.

Lemma plain_append (a b : string) :
  plain (a +:+ b) = plain a && plain b.
Proof. unfold plain. now rewrite chars_append, forallb_app. Qed.

(** The lines of a configuration whose sample rate can be printed. *)
Lemma config_lines_decimal (config : AppConfig) :
  digits (sample_rate config) <= int_max_str_digits ->
  config_lines config
  = Ok [ "engine = " +:+ quote (engine config);
         "hotkey = " +:+ quote (hotkey config);
         "language = " +:+ quote (language config);
         "sample_rate = " +:+ decimal (sample_rate config);
         "append_space = "
           +:+ (if append_space config then "true" else "false");
         "whisper_model = " +:+ quote (whisper_model config);
         "whisper_device = " +:+ quote (whisper_device config);
         "whisper_compute_type = " +:+ quote (whisper_compute_type config);
         "assemblyai_api_key = " +:+ quote (assemblyai_api_key config);
         "google_credentials_path = "
           +:+ quote (google_credentials_path config);
         "gemini_api_key = " +:+ quote (gemini_api_key config);
         EmptyString ].
Proof.
  intros H. apply Z.ltb_ge in H. unfold config_lines, str_of_int.
  now rewrite H.
Qed.

(** And those of one whose sample rate cannot. *)
Lemma config_lines_limit (config : AppConfig) :
  int_max_str_digits < digits (sample_rate config) ->
  config_lines config = Raise str_limit.
Proof.
  intros H. apply Z.ltb_lt in H. unfold config_lines, str_of_int.
  now rewrite H.
Qed.

Lemma plain_config_lines (config : AppConfig) (ls : list string) :
  plain_config config = true ->
  config_lines config = Ok ls ->
  Forall (fun line => plain line = true) ls.
Proof.
  unfold plain_config. rewrite !andb_true_iff.
  intros ((((((((H1 & H2) & H3) & H4) & H5) & H6) & H7) & H8) & H9).
  unfold config_lines.
  destruct (str_of_int (sample_rate config)) as [rate|e] eqn:Erate;
    [|discriminate].
  assert (Hrate : plain rate = true).
  { unfold str_of_int in Erate. destruct (_ <? _); [discriminate|].
    injection Erate as <-. apply plain_decimal. }
  cbn [bind]. intros [= <-].
  repeat (constructor;
          [rewrite ?plain_append, ?plain_quote, ?Hrate by trivial;
           try reflexivity; now destruct (append_space config)|]).
  constructor.
Qed.

Lemma add_line_pair (data : gmap string toml_value) (line : list ascii)
    (key : string) (v : toml_value) :
  parse_line line = Read (Some (key, v)) ->
  data !! key = None ->
  add_line (Read data) line = Read (<[key := v]> data).
Proof.
  intros Hline Hnew. unfold add_line. cbn [and_then]. rewrite Hline.
  cbn [and_then]. now rewrite Hnew.
Qed.

Ltac fresh_key :=
  rewrite ?lookup_insert_ne by discriminate; apply lookup_empty.

(** The file [save_config] writes reads as the configuration it was given. *)
Lemma toml_loads_saved (config : AppConfig) (ls : list string) :
  plain_config config = true ->
  config_lines config = Ok ls ->
  toml_loads (Py.join (Py.str [LF]) ls) = Read (saved_data config).
Proof.
  intros Hplain Els.
  pose proof (plain_config_lines config ls Hplain Els) as Hlines.
  assert (Hdigits : digits (sample_rate config) <= int_max_str_digits).
  { revert Els. unfold config_lines, str_of_int.
    destruct (_ <? _) eqn:E; [discriminate|]. intros _.
    now apply Z.ltb_ge in E. }
  rewrite (config_lines_decimal config Hdigits) in Els.
  injection Els as Els.
  unfold toml_loads, Py.join. rewrite !chars_str.
  assert (Hfree : forall x, illegal_ctrl x = true -> x <> LF ->
            ~ In x (Py.join_chars [LF] (map Py.chars ls))).
  { intros x Hx Hlf Hin. apply join_chars_In in Hin as [[<-|[]]|Hin];
      [congruence|].
    destruct Hin as (p & Hp & Hxp). apply in_map_iff in Hp as (line & <- & Hl).
    rewrite List.Forall_forall in Hlines. specialize (Hlines line Hl).
    rewrite (plain_In x _ Hlines Hxp) in Hx. discriminate. }
  rewrite unix_newlines_id by (apply Hfree; [reflexivity|discriminate]).
  rewrite split_join_chars.
  2:{ rewrite <- Els. discriminate. }
  2:{ apply Forall_map. eapply Forall_impl; [exact Hlines|].
      intros line Hline Hin.
      pose proof (plain_In LF _ Hline Hin) as H. discriminate H. }
  unfold plain_config in Hplain. rewrite !andb_true_iff in Hplain.
  destruct Hplain as ((((((((H1 & H2) & H3) & H4) & H5) & H6) & H7) & H8) & H9).
  rewrite <- Els. cbn [map fold_left].
  rewrite (add_line_pair ∅ _ "engine" (TStr (engine config)));
    [|apply (parse_line_str "engine"); trivial|fresh_key].
  rewrite (add_line_pair _ _ "hotkey" (TStr (hotkey config)));
    [|apply (parse_line_str "hotkey"); trivial|fresh_key].
  rewrite (add_line_pair _ _ "language" (TStr (language config)));
    [|apply (parse_line_str "language"); trivial|fresh_key].
  rewrite (add_line_pair _ _ "sample_rate" (TInt (sample_rate config)));
    [|apply (parse_line_int "sample_rate"); trivial|fresh_key].
  rewrite (add_line_pair _ _ "append_space" (TBool (append_space config)));
    [|apply (parse_line_bool "append_space"); trivial|fresh_key].
  rewrite (add_line_pair _ _ "whisper_model" (TStr (whisper_model config)));
    [|apply (parse_line_str "whisper_model"); trivial|fresh_key].
  rewrite (add_line_pair _ _ "whisper_device" (TStr (whisper_device config)));
    [|apply (parse_line_str "whisper_device"); trivial|fresh_key].
  rewrite (add_line_pair _ _ "whisper_compute_type"
             (TStr (whisper_compute_type config)));
    [|apply (parse_line_str "whisper_compute_type"); trivial|fresh_key].
  rewrite (add_line_pair _ _ "assemblyai_api_key"
             (TStr (assemblyai_api_key config)));
    [|apply (parse_line_str "assemblyai_api_key"); trivial|fresh_key].
  rewrite (add_line_pair _ _ "google_credentials_path"
             (TStr (google_credentials_path config)));
    [|apply (parse_line_str "google_credentials_path"); trivial|fresh_key].
  rewrite (add_line_pair _ _ "gemini_api_key" (TStr (gemini_api_key config)));
    [|apply (parse_line_str "gemini_api_key"); trivial|fresh_key].
  reflexivity.
Qed.

(** What [load_config] makes of the document [save_config] writes: the
    configuration, its engine in lower case. *)
Lemma load_config_saved_data {tomllib : Tomllib} (fs : gmap string node)
    (config_path text : string) (config : AppConfig) :
  fs !! config_path = Some (File text) ->
  toml_loads text = Read (saved_data config) ->
  load_config fs config_path
  = Ok (with_engine (Py.lower (engine config)) config).
Proof.
  intros Hfile Hread.
  rewrite (load_config_loads fs config_path text (saved_data config) Hfile)
    by now apply loads_read.
  unfold saved_data.
  repeat (rewrite lookup_insert_eq
          || rewrite lookup_insert_ne by discriminate).
  cbn [_as_int py_int bind _as_str _as_bool py_str].
  now destruct config.
Qed.

(** Where [quote] is enough: a configuration whose engine is one of the four,
    whose strings hold no control character but TAB and whose sample rate
    has at most 4300 digits is loaded back as it was saved. *)
Lemma load_config_save_config {tomllib : Tomllib} (config : AppConfig)
    (config_path : string) (made fs : gmap string node) :
  engine config ∈ engines ->
  plain_config config = true ->
  digits (sample_rate config) <= int_max_str_digits ->
  exists fs',
    save_config config config_path (Saved made) fs = (Ok tt, fs')
    /\ load_config fs' config_path = Ok config.
Proof.
  intros Hengine Hplain Hdigits. unfold save_config.
  destruct (config_lines config) as [ls|e] eqn:Els;
    [|now rewrite config_lines_decimal in Els].
  eexists. split; [reflexivity|].
  rewrite (load_config_saved_data _ _ (Py.join (Py.str [LF]) ls) config);
    [|apply lookup_insert_eq|now apply toml_loads_saved].
  assert (Hlower : Py.lower (engine config) = engine config).
  { unfold engines in Hengine. rewrite !elem_of_cons, elem_of_nil in Hengine.
    destruct Hengine as [->|[->|[->|[->|[]]]]]; reflexivity. }
  rewrite Hlower. now destruct config.
Qed.

(** * More of the program *)

(** ** A recording, block by block *)

Section Recording.

Import AudioRecorder.

(** Feeding the recorder the blocks the driver delivers, with whatever
    status each one comes. *)
Lemma callbacks_heard (blocks : list (chunk * option string))
    (r : AudioRecorder.t) :
  fold_left (fun r b => (_callback b.1 b.2 r).2) blocks r
  = {| sample_rate := sample_rate r;
       _frames := _frames r ++ map fst blocks;
       _stream := _stream r |}.
Proof.
  revert r. induction blocks as [|b blocks IH]; intros r; simpl.
  - rewrite app_nil_r. now destruct r.
  - rewrite IH. simpl. now rewrite <- app_assoc.
Qed.

Lemma callbacks_fold (blocks : list chunk) (r : AudioRecorder.t) :
  fold_left (fun r b => (_callback b None r).2) blocks r
  = {| sample_rate := sample_rate r;
       _frames := _frames r ++ blocks;
       _stream := _stream r |}.
Proof.
  revert r. induction blocks as [|b blocks IH]; intros r; simpl.
  - rewrite app_nil_r. now destruct r.
  - rewrite IH. simpl. now rewrite <- app_assoc.
Qed.

(** X1.  A recording holds every block delivered between [start()] and
    [stop()], in order, and nothing else, whether or not the driver flags a
    block with a status: what the recorder held before is dropped by
    [start()], and a second [start()] in the middle is refused without
    losing a block. *)
Theorem recording_keeps_every_block (r : AudioRecorder.t) (o : opening)
    (before during : list (chunk * option string)) (path : string)
    (files : gmap string file) :
  _stream r = None ->
  (before ++ during)%list <> [] ->
  let feed := fold_left (fun r b => (_callback b.1 b.2 r).2) in
  let r1 := (start Started r).2 in
  let r2 := feed before r1 in
  let r3 := feed during (start o r2).2 in
  (start Started r).1 = Ok tt
  /\ (start o r2).1 = Raise already_started
  /\ stop Closed (Written path) r3 files
     = (Ok path,
        {| sample_rate := sample_rate r;
           _frames := map fst (before ++ during);
           _stream := None |},
        <[path := Wav (sample_rate r) (concat (map fst (before ++ during)))]>
          files).
Proof.
  intros Hclosed Hsome feed r1 r2 r3.
  subst r1 r2 r3 feed. rewrite (start_closed r Hclosed). cbn [fst snd].
  rewrite callbacks_heard. cbn [_frames _stream sample_rate app].
  rewrite start_open by (cbn; discriminate). cbn [fst snd].
  rewrite callbacks_heard. cbn [_frames _stream sample_rate].
  split; [reflexivity|]. split; [reflexivity|].
  unfold stop. cbn [_frames _stream sample_rate].
  rewrite <- map_app.
  destruct (before ++ during)%list as [|b bs] eqn:E; [contradiction|].
  reflexivity.
Qed.

Lemma recording_keeps_every_block_witness :
  let r := {| sample_rate := 16000; _frames := [[9; 9]];
              _stream := None |} in
  let feed := fold_left (fun r b => (_callback b.1 b.2 r).2) in
  let r2 := feed [([1; 2], None)] (start Started r).2 in
  let r3 := feed [([3], Some "input overflow")] (start Started r2).2 in
  (start Started r).1 = Ok tt
  /\ (start Started r2).1 = Raise already_started
  /\ stop Closed (Written "/tmp/voice_typer_b.wav") r3 ∅
     = (Ok "/tmp/voice_typer_b.wav",
        {| sample_rate := 16000; _frames := [[1; 2]; [3]];
           _stream := None |},
        {[ "/tmp/voice_typer_b.wav" := Wav 16000 [1; 2; 3] ]}).
Proof.
  intros r.
  apply (recording_keeps_every_block r Started [([1; 2], None)]
           [([3], Some "input overflow")] "/tmp/voice_typer_b.wav" ∅).
  - reflexivity.
  - discriminate.
Defined.

End Recording.

(** ** The session, failure by failure *)

Section Failures.

Import VoiceTyperApp.

Lemma state_recording (app : VoiceTyperApp.t) :
  state app = Some Recording
  <-> _is_recording app = true /\ _is_busy app = false.
Proof.
  unfold state. destruct (_is_recording app), (_is_busy app);
    split; try intros [? ?]; try discriminate; auto.
Qed.

Lemma step_wedged (st : VoiceTyperApp.t * World) (e : event) :
  wedged st -> wedged (step st e).
Proof.
  destruct st as [app w]. unfold wedged. cbn [fst snd].
  intros (Hopen & Hrec & Hbusy).
  destruct e as [d|indata|indata flags|i b|i]; cbn [step].
  - unfold toggle_recording. rewrite Hbusy, Hrec. cbn [negb].
    rewrite start_open by exact Hopen. cbn. auto.
  - unfold deliver.
    destruct (AudioRecorder._stream (recorder app)) eqn:E; [|now auto].
    cbn. rewrite E. split; [discriminate|auto].
  - unfold deliver.
    destruct (AudioRecorder._stream (recorder app)) eqn:E; [|now auto].
    cbn. rewrite E. split; [discriminate|auto].
  - destruct (threads w !! i) as [[audio_path|]|]; cbn; auto.
    destruct (transcribe_and_unlink _ _ _ _) as [[u|exc] w']; cbn; auto.
  - destruct (threads w !! i) as [[audio_path|]|]; cbn; auto.
Qed.

Lemma run_wedged (events : list event) (st : VoiceTyperApp.t * World) :
  wedged st -> wedged (run events st).
Proof.
  revert st. induction events as [|e events IH]; intros st H; [exact H|].
  apply IH, step_wedged, H.
Qed.

Lemma toggle_wedged (d : Driver) (st : VoiceTyperApp.t * World) :
  wedged st ->
  toggle_recording d st
  = (st.1, eprint "Kon opname niet starten: Opname is al gestart." st.2).
Proof.
  destruct st as [app w]. intros (Hopen & Hrec & Hbusy). cbn [fst snd] in *.
  unfold toggle_recording. rewrite Hbusy, Hrec. cbn [negb].
  rewrite start_open by exact Hopen. now destruct app.
Qed.

(** X2.  Once the driver fails to start a stream it has opened, or to stop
    or close the stream of a recording, the app never records again: the
    stream handle stays set, so whatever happens next the session is Idle
    and every press of the hotkey only reports that the recording was
    already started. *)
Theorem stream_failure_ends_recording (app : VoiceTyperApp.t) (w : World)
    (d : Driver) (events : list event) :
  (state app = Some Idle
   /\ AudioRecorder._stream (recorder app) = None
   /\ exists e, on_start d = StartFails e)
  \/ (state app = Some Recording
      /\ AudioRecorder._stream (recorder app) <> None
      /\ exists e, on_stop d = StopFails e \/ on_stop d = CloseFails e) ->
  let st := run events (toggle_recording d (app, w)) in
  state st.1 = Some Idle
  /\ forall d',
       toggle_recording d' st
       = (st.1, eprint "Kon opname niet starten: Opname is al gestart." st.2).
Proof.
  intros H st.
  assert (Hw : wedged (toggle_recording d (app, w))).
  { unfold toggle_recording.
    destruct H as [(Hidle & Hclosed & e & He)|(Hrec & Hopen & e & He)].
    - apply state_idle in Hidle as [Hr Hb]. rewrite Hb, Hr. cbn [negb].
      unfold AudioRecorder.start. rewrite Hclosed, He. unfold wedged. cbn.
      split; [discriminate|auto].
    - apply state_recording in Hrec as [Hr Hb]. rewrite Hb, Hr. cbn [negb].
      unfold AudioRecorder.stop.
      destruct (AudioRecorder._stream (recorder app)) eqn:E; [|congruence].
      destruct He as [-> | ->]; unfold wedged; cbn; rewrite E;
        (split; [discriminate|auto]). }
  pose proof (run_wedged events _ Hw) as Hst. fold st in Hst.
  split.
  - destruct Hst as (_ & Hr & Hb). apply state_idle. auto.
  - intros d'. now apply toggle_wedged.
Qed.

Lemma stream_failure_ends_recording_witness :
  let d := {| on_start := StartFails (OSError "Error starting stream");
              on_stop := Closed;
              on_write := Written "/tmp/voice_typer_a.wav" |} in
  let good := willing "/tmp/voice_typer_a.wav" in
  let st := run [Hotkey good; Audio [1]; Hotkey good]
                (toggle_recording d (fresh_app, empty_world)) in
  state st.1 = Some Idle
  /\ forall d',
       toggle_recording d' st
       = (st.1, eprint "Kon opname niet starten: Opname is al gestart." st.2).
Proof.
  intros d good.
  apply (stream_failure_ends_recording fresh_app empty_world d
           [Hotkey good; Audio [1]; Hotkey good]).
  left. split; [reflexivity|]. split; [reflexivity|].
  eexists. reflexivity.
Defined.

Lemma set_tmp_same (w : World) : set_tmp (tmp w) w = w.
Proof. now destruct w. Qed.

(** A press that starts a recording. *)
Lemma toggle_starts (d : Driver) (app : VoiceTyperApp.t) (w : World) :
  _is_busy app = false -> _is_recording app = false ->
  AudioRecorder._stream (recorder app) = None ->
  on_start d = Started ->
  toggle_recording d (app, w)
  = (set_is_recording true
       (set_recorder
          {| AudioRecorder.sample_rate :=
               AudioRecorder.sample_rate (recorder app);
             AudioRecorder._frames := [];
             AudioRecorder._stream :=
               Some (InputStream (AudioRecorder.sample_rate (recorder app)))
          |} app),
     print "Opname gestart..." w).
Proof.
  intros Hb Hr Hclosed Hd. unfold toggle_recording. rewrite Hb, Hr.
  cbn [negb]. unfold AudioRecorder.start. now rewrite Hclosed, Hd.
Qed.

(** A press that ends a recording in which blocks arrived. *)
Lemma toggle_stops (d : Driver) (app : VoiceTyperApp.t) (w : World)
    (s : stream) (b : chunk) (blocks : list chunk) (path : string) :
  _is_busy app = false -> _is_recording app = true ->
  AudioRecorder._stream (recorder app) = Some s ->
  AudioRecorder._frames (recorder app) = b :: blocks ->
  on_stop d = Closed -> on_write d = Written path ->
  toggle_recording d (app, w)
  = (set_is_busy true (set_is_recording false
       (set_recorder
          {| AudioRecorder.sample_rate :=
               AudioRecorder.sample_rate (recorder app);
             AudioRecorder._frames := b :: blocks;
             AudioRecorder._stream := None |} app)),
     spawn path
       (print "Transcriberen..."
          (set_tmp (<[path := Wav (AudioRecorder.sample_rate (recorder app))
                                  (concat (b :: blocks))]> (tmp w)) w))).
Proof.
  intros Hb Hr Hopen Hframes Hstop Hwrite. unfold toggle_recording.
  rewrite Hb, Hr. cbn [negb]. unfold AudioRecorder.stop.
  now rewrite Hopen, Hstop, Hframes, Hwrite.
Qed.

(** A press that ends a recording in which no block arrived. *)
Lemma toggle_stops_silent (d : Driver) (app : VoiceTyperApp.t) (w : World)
    (s : stream) :
  _is_busy app = false -> _is_recording app = true ->
  AudioRecorder._stream (recorder app) = Some s ->
  AudioRecorder._frames (recorder app) = [] ->
  on_stop d = Closed ->
  toggle_recording d (app, w)
  = (set_is_recording false
       (set_recorder
          {| AudioRecorder.sample_rate :=
               AudioRecorder.sample_rate (recorder app);
             AudioRecorder._frames := [];
             AudioRecorder._stream := None |} app),
     eprint
       "Kon opname niet stoppen: Geen audio ontvangen. Controleer microfooninstellingen."
       w).
Proof.
  intros Hb Hr Hopen Hframes Hstop. unfold toggle_recording.
  rewrite Hb, Hr. cbn [negb]. unfold AudioRecorder.stop.
  rewrite Hopen, Hstop, Hframes. now rewrite set_tmp_same.
Qed.

(** X3.  A recording in which no block arrived costs nothing: the second
    press reports the missing audio, the session is Idle again with no
    background thread and no file, and the next press records. *)
Theorem silence_is_recoverable (app : VoiceTyperApp.t) (w : World)
    (d1 d2 d3 : Driver) :
  state app = Some Idle ->
  AudioRecorder._stream (recorder app) = None ->
  on_start d1 = Started -> on_stop d2 = Closed -> on_start d3 = Started ->
  let st := toggle_recording d2 (toggle_recording d1 (app, w)) in
  state st.1 = Some Idle
  /\ threads st.2 = threads w
  /\ tmp st.2 = tmp w
  /\ typed st.2 = typed w
  /\ stderr st.2
     = (stderr w ++
        ["Kon opname niet stoppen: Geen audio ontvangen. Controleer microfooninstellingen."])%list
  /\ state (toggle_recording d3 st).1 = Some Recording.
Proof.
  intros Hidle Hclosed H1 H2 H3 st. subst st.
  apply state_idle in Hidle as [Hr Hb].
  rewrite (toggle_starts d1 app w Hb Hr Hclosed H1).
  erewrite toggle_stops_silent; [|exact Hb|reflexivity..|exact H2].
  cbn [fst snd]. split; [apply state_idle; now split|].
  repeat (split; [reflexivity|]).
  erewrite toggle_starts; [|exact Hb|reflexivity..|exact H3].
  apply state_recording. now split.
Qed.

Lemma silence_is_recoverable_witness :
  let d := willing "/tmp/voice_typer_a.wav" in
  let st := toggle_recording d (toggle_recording d (fresh_app, empty_world)) in
  state st.1 = Some Idle
  /\ threads st.2 = []
  /\ tmp st.2 = ∅
  /\ typed st.2 = []
  /\ stderr st.2
     = ["Kon opname niet stoppen: Geen audio ontvangen. Controleer microfooninstellingen."]
  /\ state (toggle_recording d st).1 = Some Recording.
Proof.
  intros d.
  apply (silence_is_recoverable fresh_app empty_world d d d); reflexivity.
Defined.

End Failures.

(** ** What the session keeps, run after run *)

Section Keeping.

Import VoiceTyperApp.

Lemma stop_files (c : closing) (o : writing) (r : AudioRecorder.t)
    (files : gmap string file) :
  match AudioRecorder.stop c o r files with
  | (Ok path, _, files') =>
      exists rate samples, files' = <[path := Wav rate samples]> files
  | (Raise _, _, files') =>
      files' = files \/ exists path, files' = <[path := Partial]> files
  end.
Proof.
  unfold AudioRecorder.stop.
  destruct (AudioRecorder._stream r); [|now left].
  destruct c; try now left.
  destruct (AudioRecorder._frames r); [now left|].
  destruct o; cbn; eauto.
Qed.

Lemma elem_of_delete_other {A} (l : list A) (i : nat) (x y : A) :
  x ∈ l -> l !! i = Some y -> x <> y -> x ∈ delete i l.
Proof.
  revert i. induction l as [|a l IH]; intros i Hin Hi Hne; [easy|].
  destruct i as [|i]; cbn in *.
  - injection Hi as ->. apply elem_of_cons in Hin as [->|Hin]; easy.
  - apply elem_of_cons in Hin as [->|Hin]; [left|right; eauto].
Qed.

Lemma elem_of_insert_other {A} (l : list A) (i : nat) (x y z : A) :
  x ∈ l -> l !! i = Some y -> x <> y -> x ∈ <[i := z]> l.
Proof.
  intros Hin Hi Hne. apply list_elem_of_lookup in Hin as [j Hj].
  apply list_elem_of_lookup. exists j.
  rewrite list_lookup_insert_ne; [exact Hj|]. intros ->. congruence.
Qed.

(** A stuck session stays stuck. *)
Lemma step_stuck (st : VoiceTyperApp.t * World) (e : event) :
  _is_busy st.1 = true -> threads st.2 = [] ->
  let st' := step st e in
  _is_busy st'.1 = true /\ threads st'.2 = []
  /\ _is_recording st'.1 = _is_recording st.1
  /\ tmp st'.2 = tmp st.2 /\ typed st'.2 = typed st.2
  /\ uncaught st'.2 = uncaught st.2.
Proof.
  destruct st as [app w]. cbn [fst snd]. intros Hbusy Hnone.
  destruct e as [d|indata|indata flags|i b|i]; cbn [step].
  - rewrite (toggle_busy d app w Hbusy). cbn. auto 10.
  - unfold deliver. destruct (AudioRecorder._stream (recorder app)); cbn; auto 10.
  - unfold deliver. destruct (AudioRecorder._stream (recorder app)); cbn; auto 10.
  - rewrite Hnone. cbn. auto 10.
  - rewrite Hnone. cbn. auto 10.
Qed.

Lemma run_stuck (events : list event) (st : VoiceTyperApp.t * World) :
  _is_busy st.1 = true -> threads st.2 = [] ->
  let st' := run events st in
  _is_busy st'.1 = true /\ threads st'.2 = []
  /\ _is_recording st'.1 = _is_recording st.1
  /\ tmp st'.2 = tmp st.2 /\ typed st'.2 = typed st.2
  /\ uncaught st'.2 = uncaught st.2.
Proof.
  revert st. induction events as [|e events IH]; intros st Hbusy Hnone.
  - cbn. auto 10.
  - destruct (step_stuck st e Hbusy Hnone) as (H1 & H2 & H3 & H4 & H5 & H6).
    destruct (IH (step st e) H1 H2) as (I1 & I2 & I3 & I4 & I5 & I6).
    change (run (e :: events) st) with (run events (step st e)). cbn zeta.
    rewrite I3, I4, I5, I6. auto 10.
Qed.

(** Every sound file has its thread, or the session is stuck. *)
Lemma step_owned (st : VoiceTyperApp.t * World) (e : event) :
  one_thread st ->
  owned st \/ stuck st -> owned (step st e) \/ stuck (step st e).
Proof.
  intros Hone [H|(Hbusy & Hnone & Hexc)].
  2:{ right. destruct (step_stuck st e Hbusy Hnone) as (H1 & H2 & _ & _ & _ & H6).
      unfold stuck. now rewrite H6. }
  destruct st as [app w]. unfold owned, one_thread in *. cbn [fst snd] in *.
  destruct Hone as [Hmost _].
  destruct e as [d|indata|indata flags|i b|i]; cbn [step].
  - left. unfold toggle_recording.
    destruct (_is_busy app); [exact H|].
    destruct (negb (_is_recording app)).
    + destruct (AudioRecorder.start _ _) as [[u|exc] r]; exact H.
    + pose proof (stop_files (on_stop d) (on_write d) (recorder app) (tmp w))
        as Hstop.
      destruct (AudioRecorder.stop _ _ _ _) as [[[audio_path|exc] r] files];
        cbn [fst snd tmp threads spawn print eprint set_tmp set_threads].
      * destruct Hstop as (rate & samples & ->).
        intros path rate' samples' Hpath. apply elem_of_app.
        destruct (decide (path = audio_path)) as [->|Hne].
        -- right. now left.
        -- left. rewrite lookup_insert_ne in Hpath by congruence. eauto.
      * destruct Hstop as [->|[partial ->]]; [exact H|].
        intros path rate' samples' Hpath.
        destruct (decide (path = partial)) as [->|Hne].
        -- rewrite lookup_insert_eq in Hpath. discriminate.
        -- rewrite lookup_insert_ne in Hpath by congruence. eauto.
  - left. unfold deliver.
    destruct (AudioRecorder._stream (recorder app)); exact H.
  - left. unfold deliver.
    destruct (AudioRecorder._stream (recorder app)); exact H.
  - destruct (threads w !! i) as [[audio_path|]|] eqn:E; try (left; exact H).
    pose proof (transcribe_and_unlink_tmp audio_path b app w) as Htmp.
    pose proof (transcribe_and_unlink_outcome audio_path b app w) as Hout.
    pose proof (transcribe_and_unlink_threads audio_path b app w)
      as [_ Hunc].
    destruct (transcribe_and_unlink audio_path b app w) as [[u|exc] w'];
      cbn [fst snd] in *.
    + left. cbn [fst snd tmp threads set_threads].
      destruct (unlinked b); [discriminate Hout|]. rewrite Htmp.
      intros path rate samples Hpath.
      apply lookup_delete_Some in Hpath as [Hne Hpath].
      eapply elem_of_insert_other; [eauto|exact E|congruence].
    + right. unfold stuck. cbn.
      assert (Hlen : (i < length (threads w))%nat)
        by (apply lookup_lt_is_Some; rewrite E; eauto).
      destruct (_is_busy app); [|lia].
      split; [reflexivity|]. split.
      * destruct (threads w) as [|t [|t' ts]]; cbn in *; try lia.
        now destruct i.
      * intros Hnil. now apply app_eq_nil in Hnil as [_ ?].
  - left. destruct (threads w !! i) as [[audio_path|]|] eqn:E; try exact H.
    cbn [fst snd tmp threads set_threads].
    intros path rate samples Hpath.
    eapply elem_of_delete_other; [eauto|exact E|discriminate].
Qed.

Lemma run_owned (events : list event) (st : VoiceTyperApp.t * World) :
  one_thread st -> owned st \/ stuck st ->
  owned (run events st) \/ stuck (run events st).
Proof.
  revert st. induction events as [|e events IH]; intros st Hone H; [exact H|].
  apply IH; [apply step_one_thread, Hone|apply step_owned; assumption].
Qed.

(** X4.  A sound file outlives its transcription only when deleting it
    raised.  Start the app with no background thread and no sound file in
    the temporary directory: after any presses, blocks and steps of
    background threads, every sound file there belongs to a thread that is
    still transcribing it, or the session is stuck (the busy flag set, no
    thread left, a thread ended by an exception); and whenever the busy
    flag is clear there is no sound file. *)
Theorem sound_files_are_owned (c : AppConfig) (r : AudioRecorder.t)
    (ty : TextTyper) (tr : Transcriber) (w : World) (events : list event) :
  threads w = [] ->
  (forall path rate samples, tmp w !! path <> Some (Wav rate samples)) ->
  let st := run events (assemble c r ty tr, w) in
  ((forall path rate samples,
      tmp st.2 !! path = Some (Wav rate samples) ->
      Running path ∈ threads st.2)
   \/ stuck st)
  /\ (_is_busy st.1 = false ->
      forall path rate samples, tmp st.2 !! path <> Some (Wav rate samples)).
Proof.
  intros Hthreads Hnone st.
  assert (Hstart : one_thread (assemble c r ty tr, w)).
  { unfold one_thread. cbn. rewrite Hthreads. cbn. split; [lia|auto]. }
  assert (Howned : owned st \/ stuck st).
  { apply run_owned; [exact Hstart|]. left.
    intros path rate samples Hpath. now apply Hnone in Hpath. }
  assert (Hone : one_thread st) by (apply run_one_thread, Hstart).
  split; [exact Howned|].
  intros Hfree path rate samples Hpath.
  destruct Howned as [Howned|(Hbusy & _)]; [|congruence].
  apply Howned in Hpath. destruct Hone as [Hmost _]. rewrite Hfree in Hmost.
  destruct (threads st.2); [|cbn in Hmost; lia].
  now apply elem_of_nil in Hpath.
Qed.

Lemma sound_files_are_owned_witness :
  let d := willing "/tmp/voice_typer_a.wav" in
  let st := run [Hotkey d; Audio [1]; Hotkey d; Transcribes 0 backend_down;
                 Releases 0]
                (fresh_app, empty_world) in
  _is_busy st.1 = false
  /\ forall path rate samples, tmp st.2 !! path <> Some (Wav rate samples).
Proof.
  intros d.
  destruct (sound_files_are_owned default_config idle_recorder Controller
    (WhisperTranscriber (WhisperModel "small" "auto" "int8") (Some "nl"))
    empty_world
    [Hotkey d; Audio [1]; Hotkey d; Transcribes 0 backend_down; Releases 0])
    as [_ H].
  - reflexivity.
  - intros path rate samples. cbn. now rewrite lookup_empty.
  - split; [reflexivity|]. apply H. reflexivity.
Defined.

(** X5.  Started with no thread, the app never has two transcriptions
    under way, whatever the order of presses and of the threads' steps: at
    most one background thread exists while the busy flag is set and none
    while it is clear; and as long as no thread was ended by an exception,
    exactly one exists while the flag is set. *)
Theorem one_transcription_at_a_time (c : AppConfig) (r : AudioRecorder.t)
    (ty : TextTyper) (tr : Transcriber) (w : World) (events : list event) :
  threads w = [] ->
  let st := run events (assemble c r ty tr, w) in
  (length (threads st.2) <= if _is_busy st.1 then 1 else 0)%nat
  /\ (uncaught st.2 = [] ->
      length (threads st.2) = (if _is_busy st.1 then 1 else 0)%nat).
Proof.
  intros Hthreads st.
  apply (run_one_thread events (assemble c r ty tr, w)).
  unfold one_thread. cbn. rewrite Hthreads. cbn. split; [lia|auto].
Qed.

Lemma one_transcription_at_a_time_witness :
  let d := willing "/tmp/voice_typer_a.wav" in
  let st := run [Hotkey d; Audio [1]; Hotkey d; Hotkey d; Hotkey d]
                (fresh_app, empty_world) in
  (length (threads st.2) <= if _is_busy st.1 then 1 else 0)%nat
  /\ (uncaught st.2 = [] ->
      length (threads st.2) = (if _is_busy st.1 then 1 else 0)%nat).
Proof.
  intros d.
  apply (one_transcription_at_a_time default_config idle_recorder Controller
    (WhisperTranscriber (WhisperModel "small" "auto" "int8") (Some "nl"))
    empty_world [Hotkey d; Audio [1]; Hotkey d; Hotkey d; Hotkey d]).
  reflexivity.
Defined.

Lemma transcribe_and_unlink_typed (audio_path : string) (b : Backend)
    (app : VoiceTyperApp.t) (w : World) :
  typed (transcribe_and_unlink audio_path b app w).2
  = (typed w ++ spoken_text app b)%list.
Proof.
  unfold transcribe_and_unlink, spoken_text, unlink.
  destruct (unlinked b), (heard b) as [answer|exc], (refused b) as [exc'|];
    cbn; try destruct (Py.nonempty (Py.strip answer)); cbn;
    now rewrite ?app_nil_r.
Qed.

Lemma toggle_typed (d : Driver) (st : VoiceTyperApp.t * World) :
  typed (toggle_recording d st).2 = typed st.2.
Proof.
  destruct st as [app w]. unfold toggle_recording.
  destruct (_is_busy app); [reflexivity|].
  destruct (negb (_is_recording app)).
  - now destruct (AudioRecorder.start _ _) as [[u|exc] r].
  - now destruct (AudioRecorder.stop _ _ _ _) as [[[path|exc] r] files].
Qed.

End Keeping.

(** ** What is typed *)

Section Typing.

Import VoiceTyperApp.

Lemma run_app (events events' : list event) (st : VoiceTyperApp.t * World) :
  run (events ++ events') st = run events' (run events st).
Proof. unfold run. apply fold_left_app. Qed.

(** A stripped text that is not empty is still more than white space with a
    space after it. *)
Lemma strip_space_nonempty (s : string) :
  Py.nonempty (Py.strip s) = true ->
  Py.nonempty (Py.strip (Py.strip s +:+ " ")) = true.
Proof.
  unfold Py.strip. rewrite !nonempty_str, chars_append, chars_str.
  pose proof (strip_chars_head (Py.chars s)) as Hhead.
  destruct (Py.strip_chars (Py.chars s)) as [|c l]; [discriminate|].
  intros _. unfold Py.strip_chars, Py.lstrip_chars, Py.rstrip_chars.
  cbn [app Py.dropwhile]. rewrite Hhead.
  change (c :: (l ++ Py.chars " ")%list) with ((c :: l) ++ Py.chars " ")%list.
  rewrite rev_app_distr. cbn [Py.chars list_ascii_of_string rev app].
  cbn [Py.dropwhile]. change (Py.isspace " ") with true. cbn iota.
  rewrite dropwhile_app_stop by exact Hhead.
  rewrite rev_app_distr. reflexivity.
Qed.

Lemma spoken_text_nonblank (app : VoiceTyperApp.t) (b : Backend) :
  Forall (fun text => Py.nonempty (Py.strip text) = true) (spoken_text app b).
Proof.
  unfold spoken_text.
  destruct (heard b) as [answer|exc], (refused b) as [exc'|]; auto.
  destruct (Py.nonempty (Py.strip answer)) eqn:E; [|auto].
  constructor; [|auto].
  destruct (append_space (config app)).
  - now apply strip_space_nonempty.
  - now rewrite strip_idem.
Qed.

Lemma step_typed (st : VoiceTyperApp.t * World) (e : event) :
  exists new,
    typed (step st e).2 = (typed st.2 ++ new)%list
    /\ Forall (fun text => Py.nonempty (Py.strip text) = true) new.
Proof.
  destruct st as [app w].
  destruct e as [d|indata|indata flags|i b|i]; cbn [step].
  - exists []. rewrite toggle_typed, app_nil_r. auto.
  - exists []. rewrite app_nil_r. unfold deliver.
    destruct (AudioRecorder._stream (recorder app)); auto.
  - exists []. rewrite app_nil_r. unfold deliver.
    destruct (AudioRecorder._stream (recorder app)); auto.
  - destruct (threads w !! i) as [[audio_path|]|];
      try (exists []; rewrite app_nil_r; now auto).
    exists (spoken_text app b). split; [|apply spoken_text_nonblank].
    pose proof (transcribe_and_unlink_typed audio_path b app w) as Htyped.
    destruct (transcribe_and_unlink audio_path b app w) as [[u|exc] w'];
      exact Htyped.
  - exists []. rewrite app_nil_r.
    destruct (threads w !! i) as [[audio_path|]|]; auto.
Qed.

(** X6.  The app never types a blank text: whatever the presses, the blocks
    and the answers of the backends, what a run adds to the typed texts is
    a list of texts that are each more than white space, and the texts
    typed before stay as they were. *)
Theorem never_types_blank (events : list event)
    (st : VoiceTyperApp.t * World) :
  exists new,
    typed (run events st).2 = (typed st.2 ++ new)%list
    /\ Forall (fun text => Py.nonempty (Py.strip text) = true) new.
Proof.
  revert st. induction events as [|e events IH]; intros st.
  - exists []. rewrite app_nil_r. auto.
  - destruct (step_typed st e) as (new1 & E1 & H1).
    destruct (IH (step st e)) as (new2 & E2 & H2).
    exists (new1 ++ new2)%list. split.
    + change (run (e :: events) st) with (run events (step st e)).
      rewrite E2, E1, app_assoc. reflexivity.
    + apply Forall_app. auto.
Qed.

Lemma transcribe_and_unlink_returns (audio_path : string) (b : Backend)
    (app : VoiceTyperApp.t) (w : World) :
  unlinked b = None ->
  transcribe_and_unlink audio_path b app w
  = (Ok tt, (transcribe_and_unlink audio_path b app w).2).
Proof.
  intros H. pose proof (transcribe_and_unlink_outcome audio_path b app w) as E.
  rewrite H in E.
  destruct (transcribe_and_unlink audio_path b app w) as [outcome w'].
  cbn in *. now subst.
Qed.

Lemma transcribe_and_unlink_raises (audio_path : string) (b : Backend)
    (app : VoiceTyperApp.t) (w : World) (exc : exn) :
  unlinked b = Some exc ->
  transcribe_and_unlink audio_path b app w
  = (Raise exc, (transcribe_and_unlink audio_path b app w).2).
Proof.
  intros H. pose proof (transcribe_and_unlink_outcome audio_path b app w) as E.
  rewrite H in E.
  destruct (transcribe_and_unlink audio_path b app w) as [outcome w'].
  cbn in *. now subst.
Qed.

(** X7.  One dictation, from Idle back to Idle: a press, the blocks of the
    recording, a press, and the background thread running to its end, the
    sound file deleted without an exception.  The app is Idle again with
    its stream closed, no thread is left, the sound file is gone, and what
    was typed is the stripped answer of the backend (with its space when
    asked for), or nothing when the answer was blank, the backend failed or
    the keyboard refused. *)
Theorem dictation_round (app : VoiceTyperApp.t) (w : World) (d1 d2 : Driver)
    (block : chunk) (blocks : list chunk) (path : string) (b : Backend) :
  state app = Some Idle ->
  AudioRecorder._stream (recorder app) = None ->
  threads w = [] ->
  on_start d1 = Started -> on_stop d2 = Closed ->
  on_write d2 = Written path ->
  unlinked b = None ->
  let st :=
    run ([Hotkey d1] ++ map Audio (block :: blocks)
         ++ [Hotkey d2; Transcribes 0 b; Releases 0]) (app, w) in
  state st.1 = Some Idle
  /\ AudioRecorder._stream (recorder st.1) = None
  /\ config st.1 = config app
  /\ transcriber st.1 = transcriber app
  /\ threads st.2 = []
  /\ tmp st.2 = delete path (tmp w)
  /\ typed st.2 = (typed w ++ spoken_text app b)%list.
Proof.
  intros Hidle Hclosed Hthreads H1 H2 Hpath Hunlink st. subst st.
  apply state_idle in Hidle as [Hr Hb].
  rewrite !run_app.
  change (run [Hotkey d1] (app, w)) with (toggle_recording d1 (app, w)).
  rewrite (toggle_starts d1 app w Hb Hr Hclosed H1).
  rewrite run_audio by (cbn; discriminate).
  rewrite callbacks_fold. cbn [recorder set_recorder set_is_recording
    AudioRecorder._frames AudioRecorder._stream AudioRecorder.sample_rate
    Datatypes.app].
  change [Hotkey d2; Transcribes 0 b; Releases 0]
    with ([Hotkey d2] ++ [Transcribes 0 b; Releases 0])%list.
  rewrite run_app.
  match goal with
  | |- context [run [Hotkey d2] ?s] =>
      change (run [Hotkey d2] s) with (toggle_recording d2 s)
  end.
  erewrite toggle_stops;
    [|exact Hb|reflexivity|reflexivity|reflexivity|exact H2|exact Hpath].
  rewrite (thread_runs path) by (cbn; now rewrite Hthreads).
  unfold _transcribe_and_type.
  rewrite transcribe_and_unlink_returns by exact Hunlink.
  cbn [fst snd].
  split; [apply state_idle; cbn; auto|].
  split; [reflexivity|]. split; [reflexivity|]. split; [reflexivity|].
  split; [reflexivity|].
  cbn [tmp typed set_threads]. rewrite transcribe_and_unlink_tmp, Hunlink.
  rewrite transcribe_and_unlink_typed.
  cbn [tmp typed spawn print eprint set_tmp set_threads threads stdout stderr].
  split; [apply delete_insert_eq|].
  unfold spoken_text. reflexivity.
Qed.

Lemma dictation_round_witness :
  let d := willing "/tmp/voice_typer_a.wav" in
  let st :=
    run ([Hotkey d] ++ map Audio [[1; 2]; [3]]
         ++ [Hotkey d; Transcribes 0 (backend_hears " hallo  "); Releases 0])
        (fresh_app, empty_world) in
  state st.1 = Some Idle
  /\ AudioRecorder._stream (recorder st.1) = None
  /\ config st.1 = default_config
  /\ transcriber st.1 = transcriber fresh_app
  /\ threads st.2 = []
  /\ tmp st.2 = delete "/tmp/voice_typer_a.wav" ∅
  /\ typed st.2 = ["hallo "].
Proof.
  intros d.
  apply (dictation_round fresh_app empty_world d d [1; 2] [[3]]
           "/tmp/voice_typer_a.wav" (backend_hears " hallo  "));
    reflexivity.
Defined.

(** X29.  A sound file that cannot be deleted ends the dictations.  When
    [unlink] raises in the background thread of a Transcribing session, the
    exception leaves the thread before the busy flag is cleared: whatever
    happens next the session is Transcribing with no thread left, the sound
    file is as it was, nothing more is typed than what that thread typed,
    and every press of the hotkey only prints the busy notice. *)
Theorem unlink_failure_is_final (app : VoiceTyperApp.t) (w : World)
    (path : string) (b : Backend) (exc : exn) (events : list event) :
  state app = Some Transcribing ->
  threads w = [Running path] ->
  unlinked b = Some exc ->
  let st := run (Transcribes 0 b :: events) (app, w) in
  state st.1 = Some Transcribing
  /\ threads st.2 = []
  /\ uncaught st.2 = (uncaught w ++ [exc])%list
  /\ tmp st.2 = tmp w
  /\ typed st.2 = (typed w ++ spoken_text app b)%list
  /\ forall d, toggle_recording d st = (st.1, print busy_notice st.2).
Proof.
  intros Hstate Hthreads Hunlink st.
  apply state_transcribing in Hstate as [Hrec Hbusy].
  assert (Estep : step (app, w) (Transcribes 0 b)
                  = (app,
                     escape_thread exc
                       (set_threads []
                          (transcribe_and_unlink path b app w).2))).
  { cbn [step]. rewrite Hthreads. cbn [lookup list_lookup].
    now rewrite (transcribe_and_unlink_raises path b app w exc Hunlink). }
  subst st.
  change (run (Transcribes 0 b :: events) (app, w))
    with (run events (step (app, w) (Transcribes 0 b))).
  rewrite Estep.
  match goal with
  | |- context [run events ?s] =>
      destruct (run_stuck events s Hbusy eq_refl)
        as (H1 & H2 & H3 & H4 & H5 & H6);
      destruct (run events s) as [app' w'] eqn:Erun
  end.
  cbn [fst snd] in *.
  split; [apply state_transcribing; split; congruence|].
  split; [exact H2|].
  split; [rewrite H6; cbn; f_equal;
          apply (transcribe_and_unlink_threads path b app w)|].
  split; [rewrite H4; cbn; rewrite transcribe_and_unlink_tmp, Hunlink;
          reflexivity|].
  split; [rewrite H5; cbn; apply transcribe_and_unlink_typed|].
  intros d. now apply toggle_busy.
Qed.

Lemma unlink_failure_is_final_witness :
  let d := willing "/tmp/voice_typer_b.wav" in
  let app := set_is_busy true fresh_app in
  let w := spawn "/tmp/voice_typer_a.wav"
             (set_tmp {[ "/tmp/voice_typer_a.wav" := Wav 16000 [1; 2; 3] ]}
                      empty_world) in
  let st := run [Transcribes 0 (file_stays " hallo  "); Hotkey d; Releases 0;
                 Audio [4]; Hotkey d]
                (app, w) in
  state st.1 = Some Transcribing
  /\ threads st.2 = []
  /\ uncaught st.2 = [OSError "[Errno 13] Permission denied"]
  /\ tmp st.2 = {[ "/tmp/voice_typer_a.wav" := Wav 16000 [1; 2; 3] ]}
  /\ typed st.2 = ["hallo "]
  /\ forall d', toggle_recording d' st = (st.1, print busy_notice st.2).
Proof.
  intros d app w.
  apply (unlink_failure_is_final app w "/tmp/voice_typer_a.wav"
           (file_stays " hallo  ") (OSError "[Errno 13] Permission denied")
           [Hotkey d; Releases 0; Audio [4]; Hotkey d]);
    reflexivity.
Defined.

End Typing.

(** ** Language codes, once more *)

Section Languages.

(** The first part of a split is what stands before the first separator. *)
Lemma split_chars_first (sep : ascii) (l : list ascii) :
  exists first parts rest,
    Py.split_chars sep l = first :: parts
    /\ l = (first ++ rest)%list
    /\ ~ In sep first
    /\ match rest with [] => True | c :: _ => c = sep end.
Proof.
  induction l as [|c l (first & parts & rest & E & -> & Hfree & Hrest)].
  - exists [], [], []. cbn. auto.
  - cbn [Py.split_chars]. destruct (Ascii.eqb_spec c sep) as [->|Hne].
    + exists [], (Py.split_chars sep (first ++ rest)), (sep :: first ++ rest)%list.
      cbn. auto.
    + rewrite E. exists (c :: first), parts, rest. cbn.
      repeat split; auto. intros [->|H]; auto.
Qed.

Lemma normalize_assemblyai_language_shape (language : string) :
  Py.contains "-" (normalize_assemblyai_language language) = false
  /\ exists rest,
       language = normalize_assemblyai_language language +:+ rest
       /\ (rest = EmptyString \/ Py.startswith "-" rest = true).
Proof.
  unfold normalize_assemblyai_language.
  destruct (Py.contains "-" language) eqn:E.
  - unfold Py.split.
    destruct (split_chars_first "-" (Py.chars language))
      as (first & parts & rest & -> & Hl & Hfree & Hrest).
    cbn [map]. split.
    + apply contains_In. now rewrite chars_str.
    + exists (Py.str rest). split.
      * apply chars_inj. now rewrite chars_append, !chars_str.
      * destruct rest as [|c rest]; [now left|right].
        unfold Py.startswith. rewrite chars_str, Hrest.
        reflexivity.
  - split; [exact E|]. exists EmptyString. split; [|now left].
    apply chars_inj. rewrite chars_append. cbn. now rewrite app_nil_r.
Qed.

(** X9.  The code sent to AssemblyAI is what stands before the first ["-"]
    of the configured language: it holds no ["-"], normalizing it again
    changes nothing, and the language is that code, followed by nothing or
    by a part that starts with ["-"]. *)
Theorem normalize_assemblyai_language_prefix (language : string) :
  let code := normalize_assemblyai_language language in
  Py.contains "-" code = false
  /\ normalize_assemblyai_language code = code
  /\ exists rest,
       language = code +:+ rest
       /\ (rest = EmptyString \/ Py.startswith "-" rest = true).
Proof.
  intros code.
  destruct (normalize_assemblyai_language_shape language) as [Hfree Hrest].
  fold code in Hfree, Hrest. clearbody code.
  split; [exact Hfree|]. split; [|exact Hrest].
  unfold normalize_assemblyai_language. now rewrite Hfree.
Qed.

Lemma google_defaults_values (code locale : string) :
  google_defaults !! code = Some locale ->
  Py.contains "-" locale = true
  /\ normalize_assemblyai_language locale = code.
Proof.
  unfold google_defaults. intros H.
  repeat (apply lookup_insert_Some in H as [[<- <-]|[_ H]];
          [split; reflexivity|]).
  apply lookup_singleton_Some in H as [<- <-]. split; reflexivity.
Qed.

(** X10.  Normalizing a language for Google twice is normalizing it once:
    what the table returns has a region, and what it does not know stays
    as it is. *)
Theorem normalize_google_language_idem (language : string) :
  normalize_google_language (normalize_google_language language)
  = normalize_google_language language.
Proof.
  unfold normalize_google_language at 2 3.
  destruct (Py.contains "-" language) eqn:E.
  - unfold normalize_google_language. now rewrite E.
  - destruct (google_defaults !! Py.lower language) as [locale|] eqn:El;
      cbn [default from_option id].
    + apply google_defaults_values in El as [Hregion _].
      unfold normalize_google_language. now rewrite Hregion.
    + unfold normalize_google_language. now rewrite E, El.
Qed.

(** X11.  The region that the Google table adds to a bare code is what the
    AssemblyAI normalizer takes off again: for a language without ["-"],
    the code AssemblyAI would get for the Google locale is the language
    itself, up to the case of its letters. *)
Theorem normalize_assemblyai_google_language (language : string) :
  Py.contains "-" language = false ->
  Py.lower
    (normalize_assemblyai_language (normalize_google_language language))
  = Py.lower language.
Proof.
  intros E. unfold normalize_google_language. rewrite E.
  destruct (google_defaults !! Py.lower language) as [locale|] eqn:El;
    cbn [default from_option id].
  - apply google_defaults_values in El as [_ ->]. apply lower_idem.
  - unfold normalize_assemblyai_language. now rewrite E.
Qed.

Lemma normalize_assemblyai_google_language_witness :
  Py.lower (normalize_assemblyai_language (normalize_google_language "NL"))
  = Py.lower "NL"
  /\ normalize_google_language "NL" = "nl-NL".
Proof.
  split; [|reflexivity].
  apply (normalize_assemblyai_google_language "NL"). reflexivity.
Defined.

End Languages.

(** ** What building a transcriber costs *)

Section Factory.

Lemma allocate_system (r : resource) (sys : System) :
  importable (allocate r sys).2 = importable sys
  /\ refuses (allocate r sys).2 = refuses sys
  /\ environ (allocate r sys).2 = environ sys
  /\ allocated (allocate r sys).2
     = (allocated sys
        ++ match (allocate r sys).1 with Ok _ => [r] | Raise _ => [] end)%list.
Proof.
  unfold allocate. destruct (refuses sys r); cbn; rewrite ?app_nil_r; auto.
Qed.

Lemma setdefault_env_system (name value : string) (sys : System) :
  importable (setdefault_env name value sys) = importable sys
  /\ refuses (setdefault_env name value sys) = refuses sys
  /\ allocated (setdefault_env name value sys) = allocated sys.
Proof. unfold setdefault_env. destruct (environ sys !! name); cbn; auto. Qed.

Lemma create_transcriber_system (config : AppConfig) (sys : System) :
  importable (create_transcriber config sys).2 = importable sys
  /\ refuses (create_transcriber config sys).2 = refuses sys
  /\ allocated (create_transcriber config sys).2
     = (allocated sys
        ++ match (create_transcriber config sys).1 with
           | Ok t => built t
           | Raise _ => []
           end)%list.
Proof.
  unfold create_transcriber.
  repeat match goal with
  | |- context [String.eqb ?a ?b] => destruct (String.eqb a b)
  end.
  - unfold new_WhisperTranscriber. case_decide; [|cbn; rewrite ?app_nil_r; auto].
    match goal with
    | |- context [allocate ?r sys] =>
        pose proof (allocate_system r sys) as Halloc;
        destruct (allocate r sys) as [[u|e] sys']
    end; cbn in *; tauto.
  - unfold new_AssemblyAITranscriber.
    case_decide; [|cbn; rewrite ?app_nil_r; auto].
    destruct (Py.nonempty _); cbn; rewrite ?app_nil_r; auto.
  - unfold new_GoogleTranscriber.
    match goal with
    | |- context [decide (_ ∈ importable ?s)] =>
        assert (Hs : importable s = importable sys /\ refuses s = refuses sys
                     /\ allocated s = allocated sys)
          by (destruct (Py.nonempty _);
              [apply setdefault_env_system|auto]);
        generalize dependent s
    end.
    intros s (Hi & Hr & Ha). case_decide; [|cbn; rewrite ?app_nil_r; auto].
    pose proof (allocate_system SpeechClient s) as Halloc.
    destruct (allocate SpeechClient s) as [[u|e] sys']; cbn in *;
      rewrite <- Hi, <- Hr, <- Ha; tauto.
  - unfold new_GeminiTranscriber. case_decide; [|cbn; rewrite ?app_nil_r; auto].
    destruct (Py.nonempty _); [|cbn; rewrite ?app_nil_r; auto].
    match goal with
    | |- context [allocate ?r sys] =>
        pose proof (allocate_system r sys) as Halloc;
        destruct (allocate r sys) as [[u|e] sys']
    end; cbn in *; tauto.
  - cbn. rewrite ?app_nil_r. auto.
Qed.

(** X8.  The factory builds what the transcriber it returns holds, and
    nothing else: a model for Whisper and for Gemini, a client for Google,
    nothing for AssemblyAI, and nothing at all when it fails.  What can be
    imported, and what the machine refuses to build, stay as they were. *)
Theorem create_transcriber_builds (config : AppConfig) (sys : System) :
  let out := create_transcriber config sys in
  allocated out.2
  = (allocated sys
     ++ match out.1 with Ok t => built t | Raise _ => [] end)%list
  /\ (forall r, r ∈ match out.1 with Ok t => built t | Raise _ => [] end ->
                refuses sys r = None)
  /\ importable out.2 = importable sys
  /\ refuses out.2 = refuses sys.
Proof.
  intros out. subst out.
  destruct (create_transcriber_system config sys) as (Hi & Hr & Ha).
  split; [exact Ha|]. split; [|auto].
  intros r. unfold create_transcriber.
  repeat match goal with
  | |- context [String.eqb ?a ?b] => destruct (String.eqb a b)
  end.
  - unfold new_WhisperTranscriber, allocate. case_decide; cbn; [|set_solver].
    match goal with |- context [refuses sys ?m] =>
      destruct (refuses sys m) eqn:E end; cbn; [set_solver|].
    intros ->%list_elem_of_singleton. exact E.
  - unfold new_AssemblyAITranscriber.
    case_decide; [|cbn; set_solver].
    destruct (Py.nonempty _); cbn; set_solver.
  - unfold new_GoogleTranscriber, allocate.
    match goal with
    | |- context [decide (_ ∈ importable ?s)] =>
        assert (Hs : refuses s = refuses sys)
          by (destruct (Py.nonempty _);
              [apply setdefault_env_system|auto]);
        generalize dependent s
    end.
    intros s Hs. rewrite <- Hs. case_decide; cbn; [|set_solver].
    destruct (refuses s SpeechClient) eqn:E; cbn; [set_solver|].
    intros ->%list_elem_of_singleton. exact E.
  - unfold new_GeminiTranscriber, allocate. case_decide; cbn; [|set_solver].
    destruct (Py.nonempty _); cbn; [|set_solver].
    match goal with |- context [refuses sys ?m] =>
      destruct (refuses sys m) eqn:E end; cbn; [set_solver|].
    intros ->%list_elem_of_singleton. exact E.
  - cbn. set_solver.
Qed.


Ltac other_variant :=
  unfold new_WhisperTranscriber, new_AssemblyAITranscriber,
    new_GoogleTranscriber, new_GeminiTranscriber;
  repeat case_decide; try discriminate;
  repeat match goal with
  | |- context [if Py.nonempty ?s then _ else _] =>
      destruct (Py.nonempty s) eqn:?
  | |- context [allocate ?r ?s] => destruct (allocate r s) as [[?|?] ?]
  end; try discriminate.

(** X12.  The key of an AssemblyAI transcriber is never empty: it is the
    key of the configuration when there is one, and only otherwise the
    value of [ASSEMBLYAI_API_KEY]; the language it holds has no region;
    and building it changes nothing on the machine. *)
Theorem assemblyai_key_precedence (config : AppConfig) (sys sys' : System)
    (key lang : string) :
  create_transcriber config sys
  = (Ok (AssemblyAITranscriber key lang), sys') ->
  Py.nonempty key = true
  /\ (Py.nonempty (assemblyai_api_key config) = true ->
      key = assemblyai_api_key config)
  /\ (Py.nonempty (assemblyai_api_key config) = false ->
      environ sys !! "ASSEMBLYAI_API_KEY" = Some key)
  /\ Py.contains "-" lang = false
  /\ sys' = sys.
Proof.
  unfold create_transcriber.
  repeat match goal with
  | |- context [String.eqb ?a ?b] => destruct (String.eqb a b)
  end; try (other_variant; fail).
  unfold new_AssemblyAITranscriber. case_decide; [|discriminate].
  destruct (Py.nonempty (or_else _ _)) eqn:Hkey; [|discriminate].
  intros [= <- <- <-]. split; [exact Hkey|].
  unfold or_else in *.
  destruct (Py.nonempty (assemblyai_api_key config)) eqn:Hc.
  - split; [reflexivity|]. split; [discriminate|].
    split; [apply normalize_assemblyai_language_shape|reflexivity].
  - split; [discriminate|]. split.
    + intros _. unfold getenv in *.
      destruct (environ sys !! "ASSEMBLYAI_API_KEY"); [reflexivity|].
      discriminate Hkey.
    + split; [apply normalize_assemblyai_language_shape|reflexivity].
Qed.

Lemma assemblyai_key_precedence_witness :
  let config :=
    Build_AppConfig "assemblyai" "<ctrl>+<alt>+d" "nl-NL" 16000 true
      "small" "auto" "int8" EmptyString EmptyString EmptyString in
  let sys := set_environ {[ "ASSEMBLYAI_API_KEY" := "k" ]} bare_machine in
  create_transcriber config sys = (Ok (AssemblyAITranscriber "k" "nl"), sys)
  /\ Py.nonempty "k" = true
  /\ environ sys !! "ASSEMBLYAI_API_KEY" = Some "k".
Proof.
  intros config sys.
  assert (E : create_transcriber config sys
              = (Ok (AssemblyAITranscriber "k" "nl"), sys))
    by (vm_compute; reflexivity).
  destruct (assemblyai_key_precedence config sys sys "k" "nl" E)
    as (Hkey & _ & Henv & _).
  split; [exact E|]. split; [exact Hkey|]. apply Henv. reflexivity.
Defined.

(** X13.  The model of a Gemini transcriber is [gemini-2.0-flash] under a
    key that is never empty: the key of the configuration when there is
    one, and only otherwise the value of [GEMINI_API_KEY].  The language it
    holds is never empty, and the model is all that was built. *)
Theorem gemini_key_precedence (config : AppConfig) (sys sys' : System)
    (model : resource) (lang : string) :
  create_transcriber config sys = (Ok (GeminiTranscriber model lang), sys') ->
  exists key,
    model = GenerativeModel key "gemini-2.0-flash"
    /\ Py.nonempty key = true
    /\ (Py.nonempty (gemini_api_key config) = true ->
        key = gemini_api_key config)
    /\ (Py.nonempty (gemini_api_key config) = false ->
        environ sys !! "GEMINI_API_KEY" = Some key)
    /\ Py.nonempty lang = true
    /\ allocated sys' = (allocated sys ++ [model])%list.
Proof.
  unfold create_transcriber.
  repeat match goal with
  | |- context [String.eqb ?a ?b] => destruct (String.eqb a b)
  end; try (other_variant; fail).
  unfold new_GeminiTranscriber. case_decide; [|discriminate].
  destruct (Py.nonempty (or_else (gemini_api_key config) _)) eqn:Hkey;
    [|discriminate].
  unfold allocate. destruct (refuses sys _); [discriminate|].
  intros [= <- <- <-]. eexists. split; [reflexivity|].
  split; [exact Hkey|]. cbn [allocated].
  assert (Hlang : Py.nonempty (or_else (language config) "nl") = true).
  { unfold or_else. now destruct (Py.nonempty (language config)) eqn:E. }
  unfold or_else in Hkey |- *.
  destruct (Py.nonempty (gemini_api_key config)) eqn:Hc.
  - split; [reflexivity|]. split; [discriminate|]. auto.
  - split; [discriminate|]. split; [|auto].
    intros _. unfold getenv in *.
    destruct (environ sys !! "GEMINI_API_KEY"); [reflexivity|].
    discriminate Hkey.
Qed.

Lemma gemini_key_precedence_witness :
  exists key,
    GenerativeModel "k" "gemini-2.0-flash"
    = GenerativeModel key "gemini-2.0-flash"
    /\ Py.nonempty key = true
    /\ key = gemini_api_key gemini_with_key.
Proof.
  destruct (gemini_key_precedence gemini_with_key bare_machine
              (create_transcriber gemini_with_key bare_machine).2
              (GenerativeModel "k" "gemini-2.0-flash")
              (language gemini_with_key))
    as (key & Hmodel & Hkey & Hconfig & _).
  - vm_compute. reflexivity.
  - exists key. split; [exact Hmodel|]. split; [exact Hkey|].
    apply Hconfig. reflexivity.
Defined.

(** X14.  The only environment variable the factory ever sets is
    [GOOGLE_APPLICATION_CREDENTIALS], and only for the engine [google] with
    a credentials path in the configuration while the variable is not set:
    a value that is there wins over the configuration.  The variable is set
    whether or not the client could then be built. *)
Theorem google_credentials_setdefault (config : AppConfig) (sys : System) :
  let sys' := (create_transcriber config sys).2 in
  (forall name,
     name <> "GOOGLE_APPLICATION_CREDENTIALS" ->
     environ sys' !! name = environ sys !! name)
  /\ environ sys' !! "GOOGLE_APPLICATION_CREDENTIALS"
     = match environ sys !! "GOOGLE_APPLICATION_CREDENTIALS" with
       | Some value => Some value
       | None =>
           if String.eqb (engine config) "google"
              && Py.nonempty (google_credentials_path config)
           then Some (google_credentials_path config)
           else None
       end.
Proof.
  intros sys'. subst sys'. unfold create_transcriber.
  destruct (String.eqb (engine config) "whisper") eqn:E1.
  { apply String.eqb_eq in E1. rewrite E1. cbn [String.eqb Ascii.eqb andb].
    change ("whisper" =? "google")%string with false. cbn [andb].
    unfold new_WhisperTranscriber. case_decide;
      [|cbn; split; [auto|now destruct (environ sys !! _)]].
    match goal with |- context [allocate ?r sys] =>
      pose proof (allocate_system r sys) as (_ & _ & He & _);
      destruct (allocate r sys) as [[u|e] s] end;
      cbn in *; rewrite He; split; auto; now destruct (environ sys !! _). }
  destruct (String.eqb (engine config) "assemblyai") eqn:E2.
  { apply String.eqb_eq in E2. rewrite E2.
    change ("assemblyai" =? "google")%string with false. cbn [andb].
    unfold new_AssemblyAITranscriber. case_decide;
      [|cbn; split; [auto|now destruct (environ sys !! _)]].
    destruct (Py.nonempty _); cbn; (split; [auto|]);
      now destruct (environ sys !! _). }
  destruct (String.eqb (engine config) "google") eqn:E3.
  { cbn [andb]. unfold new_GoogleTranscriber.
    set (s := if Py.nonempty (google_credentials_path config)
              then setdefault_env "GOOGLE_APPLICATION_CREDENTIALS"
                     (google_credentials_path config) sys
              else sys).
    assert (Hs : (forall name,
                    name <> "GOOGLE_APPLICATION_CREDENTIALS" ->
                    environ s !! name = environ sys !! name)
                 /\ environ s !! "GOOGLE_APPLICATION_CREDENTIALS"
                    = match environ sys !! "GOOGLE_APPLICATION_CREDENTIALS"
                      with
                      | Some value => Some value
                      | None =>
                          if Py.nonempty (google_credentials_path config)
                          then Some (google_credentials_path config)
                          else None
                      end).
    { subst s. destruct (Py.nonempty (google_credentials_path config)).
      - unfold setdefault_env.
        destruct (environ sys !! "GOOGLE_APPLICATION_CREDENTIALS") eqn:E.
        + rewrite E. auto.
        + cbn. rewrite lookup_insert_eq. split; [|reflexivity].
          intros name Hname. now rewrite lookup_insert_ne.
      - split; [auto|]. now destruct (environ sys !! _). }
    clearbody s. case_decide; [|exact Hs].
    pose proof (allocate_system SpeechClient s) as (_ & _ & He & _).
    destruct (allocate SpeechClient s) as [[u|e] s']; cbn in *;
      rewrite He; exact Hs. }
  cbn [andb].
  destruct (String.eqb (engine config) "gemini") eqn:E4;
    [|cbn; split; [auto|now destruct (environ sys !! _)]].
  unfold new_GeminiTranscriber. case_decide;
    [|cbn; split; [auto|now destruct (environ sys !! _)]].
  destruct (Py.nonempty _);
    [|cbn; split; [auto|now destruct (environ sys !! _)]].
  match goal with |- context [allocate ?r sys] =>
    pose proof (allocate_system r sys) as (_ & _ & He & _);
    destruct (allocate r sys) as [[u|e] s] end;
    cbn in *; rewrite He; split; auto; now destruct (environ sys !! _).
Qed.


(** X15.  The app is built recorder first, then typer, then transcriber.
    When [numpy], [sounddevice] or [pynput.keyboard] cannot be imported the
    constructor fails with the machine untouched, no model loaded and no
    variable set, whatever the engine.  When it succeeds the app is Idle,
    holds the configuration it was given and a recorder at the configured
    rate with no stream and no block, and the machine is the one the
    factory left. *)
Theorem app_built_in_order (c : AppConfig) (sys : System) :
  (("numpy" ∉ importable sys \/ "sounddevice" ∉ importable sys
    \/ "pynput.keyboard" ∉ importable sys) ->
   exists e, VoiceTyperApp.new c sys = (Raise e, sys))
  /\ (forall app sys',
        VoiceTyperApp.new c sys = (Ok app, sys') ->
        VoiceTyperApp.state app = Some Idle
        /\ VoiceTyperApp.config app = c
        /\ VoiceTyperApp.recorder app
           = {| AudioRecorder.sample_rate := sample_rate c;
                AudioRecorder._frames := [];
                AudioRecorder._stream := None |}
        /\ create_transcriber c sys
           = (Ok (VoiceTyperApp.transcriber app), sys')
        /\ "pynput.keyboard" ∈ importable sys').
Proof.
  unfold VoiceTyperApp.new, AudioRecorder.new, new_TextTyper. split.
  - intros H. case_decide as Haudio; [|eauto].
    case_decide as Hkeys; [|eauto]. tauto.
  - intros app sys'. case_decide as Haudio; [|discriminate].
    case_decide as Hkeys; [|discriminate].
    pose proof (create_transcriber_system c sys) as (Hi & _).
    destruct (create_transcriber c sys) as [[tr|e] s]; [|discriminate].
    intros [= <- <-]. cbn in Hi. rewrite Hi. auto.
Qed.

Lemma app_built_in_order_witness :
  (exists e,
     VoiceTyperApp.new gemini_with_key
       {| environ := ∅; importable := {[ "numpy"; "sounddevice" ]};
          refuses := fun _ => None; allocated := [] |}
     = (Raise e,
        {| environ := ∅; importable := {[ "numpy"; "sounddevice" ]};
           refuses := fun _ => None; allocated := [] |}))
  /\ VoiceTyperApp.state fresh_app = Some Idle.
Proof.
  split.
  - apply (app_built_in_order gemini_with_key
      {| environ := ∅; importable := {[ "numpy"; "sounddevice" ]};
         refuses := fun _ => None; allocated := [] |}).
    right. right. cbn [importable].
    intros [H|H]%elem_of_union; apply elem_of_singleton in H; discriminate.
  - destruct (app_built_in_order default_config bare_machine) as [_ H].
    apply (H fresh_app (VoiceTyperApp.new default_config bare_machine).2).
    vm_compute. reflexivity.
Defined.

End Factory.

(** ** Chords, once more *)

Section Chords.

Lemma dropwhile_nil {A} (p : A -> bool) (l : list A) :
  Py.dropwhile p l = [] <-> forallb p l = true.
Proof.
  induction l as [|x l IH]; cbn; [easy|].
  destruct (p x); cbn; [exact IH|easy].
Qed.

Lemma strip_chars_nil (l : list ascii) :
  Py.strip_chars l = [] <-> forallb Py.isspace l = true.
Proof.
  unfold Py.strip_chars, Py.lstrip_chars, Py.rstrip_chars.
  rewrite <- dropwhile_nil.
  pose proof (dropwhile_head Py.isspace l) as Hhead.
  destruct (Py.dropwhile Py.isspace l) as [|x l']; [easy|].
  split; [|discriminate]. cbn [rev].
  rewrite dropwhile_app_stop by exact Hhead.
  intros H. apply (f_equal (@length ascii)) in H.
  rewrite length_rev, length_app in H. cbn in H. lia.
Qed.

Lemma split_chars_forallb (sep : ascii) (p : ascii -> bool)
    (l : list ascii) :
  forallb (forallb p) (Py.split_chars sep l)
  = forallb (fun c => Ascii.eqb c sep || p c) l.
Proof.
  induction l as [|c l IH]; [reflexivity|].
  cbn [Py.split_chars forallb]. rewrite <- IH.
  destruct (Ascii.eqb c sep); cbn [orb forallb andb]; [reflexivity|].
  destruct (Py.split_chars sep l) as [|w ws]; cbn [forallb andb].
  - now rewrite !andb_true_r.
  - now rewrite andb_assoc.
Qed.

Lemma hotkey_parts_nil (hotkey : string) :
  hotkey_parts hotkey = [] <-> forallb blank_char (Py.chars hotkey) = true.
Proof.
  unfold hotkey_parts, Py.split, blank_char.
  rewrite <- (split_chars_forallb "+" Py.isspace).
  induction (Py.split_chars "+" (Py.chars hotkey)) as [|p ps IH];
    [easy|].
  cbn [map List.filter forallb]. unfold Py.strip at 1.
  rewrite nonempty_str, chars_str.
  destruct (Py.strip_chars p) as [|x l] eqn:E.
  - apply strip_chars_nil in E. rewrite E. exact IH.
  - split; [discriminate|]. intros [Hp _]%andb_true_iff.
    apply strip_chars_nil in Hp. congruence.
Qed.

Lemma normalize_hotkey_parts (hotkey out : string) :
  normalize_hotkey hotkey = Ok out ->
  hotkey_parts hotkey <> []
  /\ out = Py.join "+" (map normalize_part (hotkey_parts hotkey))
  /\ Forall settled (map normalize_part (hotkey_parts hotkey)).
Proof.
  unfold normalize_hotkey.
  destruct (hotkey_parts hotkey) as [|p ps] eqn:E; [discriminate|].
  intros [= <-]. split; [discriminate|]. split; [reflexivity|].
  rewrite <- E. apply Forall_map, Forall_forall. intros part Hpart.
  apply list_elem_of_In, hotkey_parts_shape in Hpart as (H1 & H2 & H3).
  now apply normalize_part_settled.
Qed.

(** X16.  [normalize_hotkey] fails exactly on a chord that holds nothing
    but ["+"] and white space, and then with the empty-hotkey error.  A
    chord it returns has no empty part and no white space around a part:
    no ["+"] at either end, and no two in a row. *)
Theorem normalize_hotkey_blank (hotkey : string) :
  match normalize_hotkey hotkey with
  | Raise e =>
      e = ValueError "Hotkey is leeg."
      /\ forallb blank_char (Py.chars hotkey) = true
  | Ok out =>
      forallb blank_char (Py.chars hotkey) = false
      /\ Forall (fun part => Py.nonempty part = true /\ Py.strip part = part)
                (Py.split "+" out)
  end.
Proof.
  destruct (normalize_hotkey hotkey) as [out|e] eqn:E.
  - apply normalize_hotkey_parts in E as (Hne & -> & Hsettled). split.
    + destruct (forallb _ _) eqn:Hb; [|reflexivity].
      now apply hotkey_parts_nil in Hb.
    + change "+" with (Py.str ["+"%char]).
      rewrite split_join.
      * eapply Forall_impl; [exact Hsettled|].
        intros part (_ & Hs & Hn & _). auto.
      * intros Hnil. apply map_eq_nil in Hnil. auto.
      * eapply Forall_impl; [exact Hsettled|]. now intros part (Hp & _).
  - unfold normalize_hotkey in E.
    destruct (hotkey_parts hotkey) eqn:Hp; [|discriminate].
    injection E as <-. split; [reflexivity|]. now apply hotkey_parts_nil.
Qed.

Lemma split_chars_lower (l : list ascii) :
  Py.split_chars "+" (map Py.lower_char l)
  = map (map Py.lower_char) (Py.split_chars "+" l).
Proof.
  induction l as [|c l IH]; [reflexivity|].
  cbn [map Py.split_chars]. rewrite lower_char_plus, IH.
  destruct (Ascii.eqb c "+"); [reflexivity|].
  now destruct (Py.split_chars "+" l).
Qed.

Lemma hotkey_parts_lower (hotkey : string) :
  hotkey_parts (Py.lower hotkey) = map Py.lower (hotkey_parts hotkey).
Proof.
  unfold hotkey_parts, Py.split, Py.lower at 1.
  rewrite chars_str, split_chars_lower.
  induction (Py.split_chars "+" (Py.chars hotkey)) as [|p ps IH];
    [reflexivity|].
  cbn [map List.filter].
  replace (Py.strip (Py.str (map Py.lower_char p)))
    with (Py.lower (Py.strip (Py.str p))).
  - rewrite nonempty_lower.
    destruct (Py.nonempty (Py.strip (Py.str p))); cbn [map]; now rewrite IH.
  - rewrite <- strip_lower. unfold Py.lower. now rewrite chars_str.
Qed.

Lemma normalize_part_lower (part : string) :
  normalize_part (Py.lower part) = normalize_part part
  /\ Py.lower (normalize_part part) = normalize_part part.
Proof.
  rewrite !normalize_part_eq, !lower_idem. split; [reflexivity|].
  destruct (bracketed (Py.lower part)); [apply lower_idem|].
  destruct (token_map !! Py.lower part) as [canon|] eqn:E;
    cbn [default from_option id]; [|apply lower_idem].
  apply token_map_values in E. unfold modifier_aliases in E.
  rewrite !elem_of_cons, elem_of_nil in E.
  repeat (destruct E as [[= _ ->]|E]; [reflexivity|]). destruct E.
Qed.

Lemma join_chars_lower (parts : list (list ascii)) :
  map Py.lower_char (Py.join_chars ["+"%char] parts)
  = Py.join_chars ["+"%char] (map (map Py.lower_char) parts).
Proof.
  induction parts as [|p ps IH]; [reflexivity|].
  destruct ps as [|q qs]; [reflexivity|].
  cbn [Py.join_chars map] in *. rewrite !map_app, IH. reflexivity.
Qed.

(** X17.  [normalize_hotkey] does not tell capitals from small letters: a
    chord and its lower-case form are normalized alike, and a chord that is
    returned is in lower case. *)
Theorem normalize_hotkey_lower (hotkey : string) :
  normalize_hotkey (Py.lower hotkey) = normalize_hotkey hotkey
  /\ match normalize_hotkey hotkey with
     | Ok out => Py.lower out = out
     | Raise _ => True
     end.
Proof.
  unfold normalize_hotkey. rewrite hotkey_parts_lower.
  destruct (hotkey_parts hotkey) as [|p ps]; [easy|].
  cbn [map]. split.
  - f_equal. f_equal. f_equal; [apply normalize_part_lower|].
    rewrite map_map. apply map_ext. intros part. apply normalize_part_lower.
  - change (normalize_part p :: map normalize_part ps)
      with (map normalize_part (p :: ps)).
    generalize (p :: ps). intros parts.
    unfold Py.lower, Py.join. rewrite chars_str.
    change (Py.chars "+") with ["+"%char].
    rewrite join_chars_lower, !map_map. f_equal. f_equal.
    apply map_ext. intros part.
    destruct (normalize_part_lower part) as [_ H].
    rewrite <- H at 2. unfold Py.lower. now rewrite chars_str.
Qed.

End Chords.

(** ** The configuration file, once more *)

Section ConfigFile.

Lemma lex_digits_chars (d : Decimal.uint) :
  d <> Decimal.Nil -> lex_digits (digit_chars d) = Some (d, []).
Proof.
  intros Hd. destruct d as [|d|d|d|d|d|d|d|d|d|d]; [contradiction|..];
    cbn [digit_chars lex_digits digit_of_char];
    rewrite <- (app_nil_r (digit_chars d));
    rewrite lex_digits_tail_chars by reflexivity; reflexivity.
Qed.

Lemma digit_chars_head (d : Decimal.uint) :
  match digit_chars d with
  | c :: _ => isspace_int c = false /\ Ascii.eqb c "-" = false
              /\ Ascii.eqb c "+" = false
  | [] => True
  end.
Proof. destruct d; cbn; auto. Qed.

Lemma int_of_digit_chars (negative : bool) (d : Decimal.uint) :
  d <> Decimal.Nil ->
  int_of_str
    (Py.str (if negative then "-"%char :: digit_chars d else digit_chars d))
  = (let count := Z.of_nat (Decimal.nb_digits d) in
     if int_max_str_digits <? count then Raise (int_limit count)
     else Ok (signed negative d)).
Proof.
  intros Hd. unfold int_of_str. rewrite chars_str.
  pose proof (digit_chars_head d) as Hhead.
  pose proof (lex_digits_chars d Hd) as Hlex.
  destruct negative.
  - cbn [Py.dropwhile]. change (isspace_int "-") with false.
    cbn [split_sign]. change (Ascii.eqb "-" "-") with true. cbn iota.
    rewrite Hlex. cbn [misplaced_underscore forallb]. reflexivity.
  - destruct (digit_chars d) as [|c l]; [discriminate|].
    destruct Hhead as (Hs & Hm & Hp).
    cbn [Py.dropwhile split_sign]. rewrite Hs. cbn [split_sign].
    rewrite Hm, Hp, Hlex. cbn [misplaced_underscore forallb]. reflexivity.
Qed.

(** [int()] of a number written in decimal: the number, or the refusal of
    more than 4300 digits. *)
Lemma int_of_str_decimal (z : Z) :
  int_of_str (decimal z)
  = if int_max_str_digits <? digits z then Raise (int_limit (digits z))
    else Ok z.
Proof.
  unfold decimal, digits, int_chars. destruct z as [|p|p]; [reflexivity|..];
    cbn [Z.to_int].
  - rewrite (int_of_digit_chars false)
      by (intros H; apply (DecimalPos.Unsigned.to_uint_nonnil p H)).
    cbn [signed]. now rewrite of_uint_to_uint.
  - rewrite (int_of_digit_chars true)
      by (intros H; apply (DecimalPos.Unsigned.to_uint_nonnil p H)).
    cbn [signed]. now rewrite of_uint_to_uint.
Qed.

Lemma as_int_decimal (z fallback : Z) :
  digits z <= int_max_str_digits ->
  _as_int (Some (TStr (decimal z))) fallback = Ok z.
Proof.
  intros H. apply Z.ltb_ge in H. unfold _as_int, py_int.
  now rewrite int_of_str_decimal, H.
Qed.

(** X18.  A number of at most 4300 digits goes through [str()] and back
    through [_as_int] unchanged, whatever the fallback: the sample rate
    that the setup dialogue offers as its default is read back as it was.
    A number of more digits is refused by [str()], its decimal digits read
    by [_as_int] as the fallback; and [_as_int] takes an integer as it is,
    however long. *)
Theorem as_int_str_of_int (z fallback : Z) :
  match str_of_int z with
  | Ok shown =>
      digits z <= 4300
      /\ shown = decimal z
      /\ _as_int (Some (TStr shown)) fallback = Ok z
  | Raise e =>
      4300 < digits z
      /\ e = str_limit
      /\ _as_int (Some (TStr (decimal z))) fallback = Ok fallback
  end
  /\ _as_int (Some (TInt z)) fallback = Ok z.
Proof.
  split; [|reflexivity].
  unfold str_of_int, _as_int, py_int. rewrite int_of_str_decimal.
  change int_max_str_digits with 4300.
  destruct (4300 <? digits z) eqn:E.
  - apply Z.ltb_lt in E. auto.
  - apply Z.ltb_ge in E. rewrite int_of_str_decimal.
    change int_max_str_digits with 4300.
    apply Z.ltb_ge in E. rewrite E. apply Z.ltb_ge in E. auto.
Qed.

Lemma as_int_raises (value : option toml_value) (fallback : Z) (e : exn) :
  _as_int value fallback = Raise e ->
  e = OverflowError "cannot convert float infinity to integer"
  /\ exists negative shown,
       value = Some (TFloat (S754_infinity negative) shown).
Proof.
  unfold _as_int, py_int.
  destruct value as [[s|n|x shown|b|shown]|]; try discriminate.
  - destruct (int_of_str_cases s) as [[n ->]|[msg ->]]; discriminate.
  - destruct x as [negative|negative| |negative m ex]; try discriminate.
    cbn. intros [= <-]. eauto.
Qed.

(** [str()] raises for an integer of more than 4300 digits, and for
    an array or a table that holds one. *)
Lemma py_str_raises (v : toml_value) (e : exn) :
  py_str v = Raise e ->
  (exists n, v = TInt n /\ 4300 < digits n /\ e = str_limit)
  \/ v = TOther (Raise e).
Proof.
  destruct v as [s|n|x shown|b|shown]; cbn; try discriminate.
  - unfold str_of_int. change int_max_str_digits with 4300.
    destruct (4300 <? digits n) eqn:E; [|discriminate].
    intros [= <-]. apply Z.ltb_lt in E. left. eauto.
  - intros ->. now right.
Qed.

Lemma as_str_raises (data : gmap string toml_value) (key fallback : string)
    (e : exn) :
  _as_str (data !! key) fallback = Raise e ->
  exists v, data !! key = Some v /\ py_str v = Raise e.
Proof.
  unfold _as_str. destruct (data !! key) as [v|]; [eauto|discriminate].
Qed.

(** X19.  [load_config] fails in four ways only: the file is there and
    cannot be opened or read, and the error is that of the file system; it
    is read and the parser refuses it, and the error is the parser's; a
    string field holds a value for which [str()] raises, an integer of more
    than 4300 digits or an array or a table that cannot be printed; or the
    sample rate is an infinite float, and the error is the [OverflowError]
    of [int()].  A missing file never makes it fail. *)
Theorem load_config_failures {tomllib : Tomllib} (fs : gmap string node)
    (config_path : string) (e : exn) :
  load_config fs config_path = Raise e ->
  fs !! config_path = Some (Unreadable e)
  \/ exists text,
       fs !! config_path = Some (File text)
       /\ (loads text = Raise e
           \/ exists data,
                loads text = Ok data
                /\ ((exists key v,
                       (key = "engine"
                        \/ exists field fallback,
                             (key, field, fallback) ∈ string_fields)
                       /\ data !! key = Some v
                       /\ py_str v = Raise e
                       /\ ((exists n, v = TInt n /\ 4300 < digits n
                                      /\ e = str_limit)
                           \/ v = TOther (Raise e)))
                    \/ (exists negative shown,
                          data !! "sample_rate"
                          = Some (TFloat (S754_infinity negative) shown)
                          /\ e = OverflowError
                                   "cannot convert float infinity to integer"))).
Proof.
  intros H.
  destruct (fs !! config_path) as [[text|e']|] eqn:Hfile.
  3:{ unfold load_config in H. now rewrite Hfile in H. }
  2:{ unfold load_config in H. rewrite Hfile in H. left. congruence. }
  right. exists text. split; [reflexivity|].
  destruct (loads text) as [data|e'] eqn:Hdata.
  2:{ unfold load_config in H. rewrite Hfile, Hdata in H. left.
      cbn [bind] in H. congruence. }
  right. exists data. split; [reflexivity|].
  rewrite (load_config_loads fs config_path text data Hfile Hdata) in H.
  assert (Hkey : forall key fallback,
    (key = "engine"
     \/ exists field fallback, (key, field, fallback) ∈ string_fields) ->
    _as_str (data !! key) fallback = Raise e ->
    exists key v,
      (key = "engine"
       \/ exists field fallback, (key, field, fallback) ∈ string_fields)
      /\ data !! key = Some v
      /\ py_str v = Raise e
      /\ ((exists n, v = TInt n /\ 4300 < digits n /\ e = str_limit)
          \/ v = TOther (Raise e))).
  { intros key fallback Hin Hraise.
    apply as_str_raises in Hraise as (v & Hv & Hstr).
    exists key, v. split; [exact Hin|]. split; [exact Hv|].
    split; [exact Hstr|]. now apply py_str_raises. }
  assert (Hfield : forall key field fallback,
    (key, field, fallback) ∈ string_fields ->
    key = "engine"
    \/ exists field fallback, (key, field, fallback) ∈ string_fields)
    by (intros; right; eauto).
  repeat match type of H with
    | bind (_as_str (data !! ?key) ?fallback) _ = Raise e =>
        destruct (_as_str (data !! key) fallback) as [?|e'] eqn:E;
        [cbn [bind] in H; clear E
        |cbn [bind] in H; injection H as ->; left;
         apply (Hkey key fallback); [|exact E]]
    | bind (_as_int (data !! "sample_rate") ?fallback) _ = Raise e =>
        destruct (_as_int (data !! "sample_rate") fallback) as [?|e'] eqn:E;
        [cbn [bind] in H; clear E
        |cbn [bind] in H; injection H as ->; right;
         apply as_int_raises in E as (-> & negative & shown & E); eauto]
    end;
    try discriminate H;
    try (now left);
    (eapply Hfield; unfold string_fields; rewrite !elem_of_cons; auto 12).
Qed.

Lemma load_config_failures_witness :
  ({[ "voice-typer.toml" := File infinite_toml ]} : gmap string node)
    !! "voice-typer.toml"
  = Some (Unreadable
            (OverflowError "cannot convert float infinity to integer"))
  \/ exists text,
       ({[ "voice-typer.toml" := File infinite_toml ]} : gmap string node)
         !! "voice-typer.toml"
       = Some (File text)
       /\ (loads (Tomllib := strict_tomllib) text
           = Raise (OverflowError "cannot convert float infinity to integer")
           \/ exists data,
                loads (Tomllib := strict_tomllib) text = Ok data
                /\ ((exists key v,
                       (key = "engine"
                        \/ exists field fallback,
                             (key, field, fallback) ∈ string_fields)
                       /\ data !! key = Some v
                       /\ py_str v
                          = Raise (OverflowError
                                     "cannot convert float infinity to integer")
                       /\ ((exists n,
                              v = TInt n /\ 4300 < digits n
                              /\ OverflowError
                                   "cannot convert float infinity to integer"
                                 = str_limit)
                           \/ v = TOther
                                    (Raise
                                       (OverflowError
                                          "cannot convert float infinity to integer"))))
                    \/ (exists negative shown,
                          data !! "sample_rate"
                          = Some (TFloat (S754_infinity negative) shown)
                          /\ OverflowError
                               "cannot convert float infinity to integer"
                             = OverflowError
                                 "cannot convert float infinity to integer"))).
Proof.
  apply (load_config_failures (tomllib := strict_tomllib)
           {[ "voice-typer.toml" := File infinite_toml ]}
           "voice-typer.toml").
  vm_compute. reflexivity.
Defined.

(** A file that was saved is loaded back. *)
Lemma load_config_saved {tomllib : Tomllib} (config : AppConfig)
    (config_path : string) (o : saving) (fs fs' : gmap string node) :
  plain_config config = true ->
  save_config config config_path o fs = (Ok tt, fs') ->
  load_config fs' config_path
  = Ok (with_engine (Py.lower (engine config)) config).
Proof.
  intros Hplain. unfold save_config.
  destruct o as [e|made|made e kept]; [discriminate|..];
    (destruct (config_lines config) as [ls|e'] eqn:Els; [|discriminate]);
    [|discriminate].
  intros [= <-].
  apply (load_config_saved_data _ _ (Py.join (Py.str [LF]) ls));
    [apply lookup_insert_eq|now apply toml_loads_saved].
Qed.

(** What was there stays, but for the file itself. *)
Lemma save_config_others (config : AppConfig) (config_path : string)
    (o : saving) (fs : gmap string node) (other : string) (n : node) :
  other <> config_path ->
  fs !! other = Some n ->
  (save_config config config_path o fs).2 !! other = Some n.
Proof.
  intros Hother Hn. unfold save_config.
  destruct o as [e|made|made e kept]; cbn [snd]; [exact Hn|..];
    (destruct (config_lines config) as [ls|e']; cbn [snd]);
    try destruct kept as [text|];
    rewrite ?lookup_insert_ne by congruence;
    now apply lookup_union_Some_l.
Qed.

(** X20.  What is saved is loaded back: when [save_config] returns for a
    configuration whose strings hold no control character but TAB, the
    file gives back the configuration as it was saved, its engine in lower
    case, whatever the file held before.  Saving touches nothing else that
    was there.  And with a file system that makes the directories and
    writes the file, [save_config] returns exactly when the sample rate has
    at most 4300 digits: a longer one makes the line of the sample rate
    raise before anything is written. *)
Theorem save_config_load_config {tomllib : Tomllib} (config : AppConfig)
    (config_path : string) (fs : gmap string node) :
  plain_config config = true ->
  (forall o fs',
     save_config config config_path o fs = (Ok tt, fs') ->
     load_config fs' config_path
     = Ok (with_engine (Py.lower (engine config)) config))
  /\ (forall o other n,
        other <> config_path ->
        fs !! other = Some n ->
        (save_config config config_path o fs).2 !! other = Some n)
  /\ (forall made,
        if 4300 <? digits (sample_rate config)
        then save_config config config_path (Saved made) fs
             = (Raise str_limit, fs ∪ made)
        else exists text,
               save_config config config_path (Saved made) fs
               = (Ok tt, <[config_path := File text]> (fs ∪ made))).
Proof.
  intros Hplain. split.
  { intros o fs'. now apply load_config_saved. }
  split.
  { intros o other n. apply save_config_others. }
  intros made. unfold save_config.
  destruct (4300 <? digits (sample_rate config)) eqn:E.
  - apply Z.ltb_lt in E. now rewrite config_lines_limit.
  - apply Z.ltb_ge in E. rewrite config_lines_decimal by exact E. eauto.
Qed.

Lemma save_config_load_config_witness :
  plain_config odd_config = true
  /\ save_config odd_config "voice-typer.toml" (Saved ∅) ∅
     = (Ok tt,
        (save_config odd_config "voice-typer.toml" (Saved ∅) ∅).2)
  /\ load_config (tomllib := strict_tomllib)
       (save_config odd_config "voice-typer.toml" (Saved ∅) ∅).2
       "voice-typer.toml"
     = Ok (with_engine "gemini" odd_config).
Proof.
  split; [reflexivity|]. split; [reflexivity|].
  destruct (save_config_load_config (tomllib := strict_tomllib) odd_config
              "voice-typer.toml" ∅ eq_refl) as [Hload _].
  apply (Hload (Saved ∅)). reflexivity.
Defined.

End ConfigFile.

(** ** Overrides from the command line *)

Section Overrides.

(** X21.  The overrides of the command line touch the engine, the hotkey,
    the language and the trailing space, and nothing else.  The trailing
    space can be turned off and never on; an engine, a hotkey or a language
    that was not empty is not empty afterwards, since an empty override
    counts as none; and overriding twice is overriding once. *)
Theorem apply_runtime_overrides_fields (config : AppConfig)
    (args : Namespace) :
  let out := apply_runtime_overrides config args in
  (sample_rate out = sample_rate config
   /\ whisper_model out = whisper_model config
   /\ whisper_device out = whisper_device config
   /\ whisper_compute_type out = whisper_compute_type config
   /\ assemblyai_api_key out = assemblyai_api_key config
   /\ google_credentials_path out = google_credentials_path config
   /\ gemini_api_key out = gemini_api_key config)
  /\ append_space out = append_space config && negb (args_no_space args)
  /\ (Py.nonempty (engine config) = true -> Py.nonempty (engine out) = true)
  /\ (Py.nonempty (hotkey config) = true -> Py.nonempty (hotkey out) = true)
  /\ (Py.nonempty (language config) = true ->
      Py.nonempty (language out) = true)
  /\ apply_runtime_overrides out args = out.
Proof.
  intros out. subst out. unfold apply_runtime_overrides, given.
  destruct (args_engine args) as [e|]; [destruct (Py.nonempty e) eqn:He|];
    (destruct (args_hotkey args) as [h|]; [destruct (Py.nonempty h) eqn:Hh|]);
    (destruct (args_language args) as [l|];
     [destruct (Py.nonempty l) eqn:Hl|]);
    destruct (args_no_space args); destruct config; cbn;
    rewrite ?andb_true_r, ?andb_false_r; repeat split; auto.
Qed.

Lemma apply_runtime_overrides_fields_witness :
  let args :=
    {| args_command := Some "run"; args_config := "voice-typer.toml";
       args_engine := None; args_hotkey := Some EmptyString;
       args_language := Some "en"; args_no_space := true |} in
  let out := apply_runtime_overrides default_config args in
  Py.nonempty (hotkey out) = true
  /\ append_space out = false
  /\ apply_runtime_overrides out args = out.
Proof.
  intros args out.
  destruct (apply_runtime_overrides_fields default_config args)
    as (_ & Hspace & _ & Hhotkey & _ & Hagain).
  split; [apply Hhotkey; reflexivity|]. split; [exact Hspace|exact Hagain].
Defined.

End Overrides.

(** ** The setup dialogue *)

Section Setup.

Lemma then_done {A B} (c : console A) (k : A -> console B) (t t1 : Terminal)
    (a : A) :
  c t = (Done a, t1) -> then_ c k t = k a t1.
Proof. intros H. unfold then_. now rewrite H. Qed.

Lemma then_inv {A B} (c : console A) (k : A -> console B) (t t' : Terminal)
    (b : B) :
  then_ c k t = (Done b, t') ->
  exists a t1, c t = (Done a, t1) /\ k a t1 = (Done b, t').
Proof.
  unfold then_. destruct (c t) as [[a| |e] t1]; try discriminate. eauto.
Qed.

Lemma known_engine_elem (e : string) :
  known_engine e = true <-> e ∈ engines.
Proof.
  unfold known_engine, engines. cbn [existsb].
  rewrite !orb_true_iff, !String.eqb_eq, !elem_of_cons, elem_of_nil.
  intuition discriminate.
Qed.

Lemma ask_engine_again_known (fallback : string) (lines : list string) :
  forall e out e' t',
    ask_engine_again fallback e lines out = (Done e', t') ->
    known_engine e' = true.
Proof.
  induction lines as [|line rest IH]; intros e out e' t';
    cbn [ask_engine_again]; destruct (known_engine e) eqn:E.
  - intros [= <- _]. exact E.
  - discriminate.
  - intros [= <- _]. exact E.
  - apply IH.
Qed.

Lemma setup_dialogue_engine (existing config : AppConfig)
    (t t' : Terminal) :
  setup_dialogue existing t = (Done config, t') ->
  engine config ∈ engines.
Proof.
  unfold setup_dialogue. cbv zeta. intros H.
  apply then_inv in H as (e & t1 & He & H).
  repeat (apply then_inv in H as (? & ? & _ & H)).
  injection H as <- _. cbn [engine]. apply known_engine_elem.
  unfold ask_engine in He. apply then_inv in He as (e0 & t0 & _ & He).
  eapply ask_engine_again_known, He.
Qed.

(** X22.  Whatever the file held and whatever is typed, when [run_setup]
    returns, the configuration it saved has one of the four engines; it is
    saved at the path of the configuration, and apart from the directories
    that had to be made for it nothing else changes. *)
Theorem run_setup_engine {tomllib : Tomllib} (config_path : string)
    (o : saving) (fs fs' : gmap string node) (t t' : Terminal) :
  run_setup config_path o fs t = (Done tt, t', fs') ->
  exists config made,
    o = Saved made
    /\ save_config config config_path o fs = (Ok tt, fs')
    /\ engine config ∈ engines
    /\ forall other,
         other <> config_path -> fs' !! other = (fs ∪ made) !! other.
Proof.
  unfold run_setup.
  match goal with
  | |- context [then_ ?c ?k t] =>
      destruct (then_ c k t) as [[config| |e] t1] eqn:Hdialogue
  end; try discriminate.
  destruct (save_config config config_path o fs) as [[u|e] fs1] eqn:Hsave;
    [|discriminate].
  destruct u. intros [= <- <-].
  apply then_inv in Hdialogue as (existing & t2 & _ & H).
  apply then_inv in H as (u' & t3 & _ & Hconfig).
  exists config.
  assert (Hmade : exists made,
            o = Saved made
            /\ forall other, other <> config_path ->
                             fs1 !! other = (fs ∪ made) !! other).
  { revert Hsave. unfold save_config.
    destruct o as [e|made|made e kept]; [discriminate|..];
      (destruct (config_lines config) as [ls|e']; [|discriminate]);
      [|discriminate].
    intros [= <-]. exists made. split; [reflexivity|].
    intros other Hother. now rewrite lookup_insert_ne. }
  destruct Hmade as (made & -> & Hothers). exists made.
  split; [reflexivity|]. split; [exact Hsave|].
  split; [eapply setup_dialogue_engine, Hconfig|exact Hothers].
Qed.

Lemma run_setup_engine_witness :
  let t := {| pending := ["Wisper"; " GEMINI "; "f9"; "en"; "x"; "N"; "k"];
              shown := [] |} in
  let out := run_setup (tomllib := strict_tomllib) "voice-typer.toml"
                       (Saved ∅) ∅ t in
  exists config made,
    Saved ∅ = Saved made
    /\ save_config config "voice-typer.toml" (Saved ∅) ∅ = (Ok tt, out.2)
    /\ engine config ∈ engines
    /\ forall other,
         other <> "voice-typer.toml" ->
         out.2 !! other = ((∅ : gmap string node) ∪ made) !! other.
Proof.
  intros t out.
  apply (run_setup_engine (tomllib := strict_tomllib) "voice-typer.toml"
           (Saved ∅) ∅ out.2 t out.1.2).
  vm_compute. reflexivity.
Defined.

Lemma prompt_blank (question fallback answer : string)
    (rest out : list string) :
  Py.strip answer = EmptyString ->
  prompt question fallback {| pending := answer :: rest; shown := out |}
  = (Done fallback,
     {| pending := rest;
        shown := out ++ [question +:+ " [" +:+ fallback +:+ "]: "] |}).
Proof.
  intros H. unfold prompt, then_, input, ret. cbn [pending shown].
  now rewrite H.
Qed.

Lemma ask_engine_blank (fallback answer : string) (rest out : list string) :
  Py.strip answer = EmptyString -> fallback ∈ engines ->
  ask_engine fallback {| pending := answer :: rest; shown := out |}
  = (Done fallback,
     {| pending := rest;
        shown := out ++ [engine_question +:+ " [" +:+ fallback +:+ "]: "] |}).
Proof.
  intros H Hknown. unfold ask_engine.
  rewrite (then_done _ _ _ _ _ (prompt_blank _ _ _ _ _ H)).
  cbn [pending shown].
  assert (Hlower : Py.lower fallback = fallback).
  { unfold engines in Hknown. rewrite !elem_of_cons, elem_of_nil in Hknown.
    destruct Hknown as [->|[->|[->|[->|[]]]]]; reflexivity. }
  rewrite Hlower. apply known_engine_elem in Hknown.
  destruct rest; cbn [ask_engine_again]; now rewrite Hknown.
Qed.

Ltac enter H :=
  erewrite then_done; [|apply prompt_blank; exact H]; cbv beta.

(** X23.  Answering every question of the setup dialogue with the Enter
    key keeps the configuration, when its engine is one of the four and its
    sample rate has at most 4300 digits, but for one field: the key or the
    credentials path that the engine asks for, when it was empty, is saved
    as the text the prompt showed for it.  With a longer sample rate the
    dialogue ends in the [ValueError] of [str()] before it asks for the
    sample rate. *)
Theorem setup_dialogue_enter (existing : AppConfig) (answers out : list string) :
  engine existing ∈ engines ->
  Forall (fun answer => Py.strip answer = EmptyString) answers ->
  (8 <= length answers)%nat ->
  exists t',
    setup_dialogue existing {| pending := answers; shown := out |}
    = (if 4300 <? digits (sample_rate existing)
       then Throws str_limit
       else Done (accepted existing),
       t').
Proof.
  intros Hengine Hblank Hlen.
  destruct answers as [|a1 [|a2 [|a3 [|a4 [|a5 [|a6 [|a7 [|a8 rest]]]]]]]];
    cbn in Hlen; try lia.
  apply Forall_cons in Hblank as [H1 Hblank].
  apply Forall_cons in Hblank as [H2 Hblank].
  apply Forall_cons in Hblank as [H3 Hblank].
  apply Forall_cons in Hblank as [H4 Hblank].
  apply Forall_cons in Hblank as [H5 Hblank].
  apply Forall_cons in Hblank as [H6 Hblank].
  apply Forall_cons in Hblank as [H7 Hblank].
  apply Forall_cons in Hblank as [H8 _].
  unfold setup_dialogue, accepted. cbv zeta.
  erewrite then_done; [|apply ask_engine_blank; [exact H1|exact Hengine]].
  cbv beta. enter H2. enter H3.
  unfold lift at 1. unfold str_of_int. change int_max_str_digits with 4300.
  destruct (4300 <? digits (sample_rate existing)) eqn:Hdigits.
  { unfold then_ at 1. eauto. }
  unfold then_ at 1. enter H4.
  unfold lift at 1.
  rewrite as_int_decimal by (now apply Z.ltb_ge in Hdigits).
  unfold then_ at 1. enter H5.
  assert (Hspace : Py.startswith "y"
                     (Py.lower (if append_space existing then "y" else "n"))
                   = append_space existing)
    by now destruct (append_space existing).
  rewrite Hspace.
  unfold engines in Hengine. rewrite !elem_of_cons, elem_of_nil in Hengine.
  destruct existing as [e h l r sp wm wd wc ak gp gk].
  cbn [engine hotkey language sample_rate append_space whisper_model
       whisper_device whisper_compute_type assemblyai_api_key
       google_credentials_path gemini_api_key] in *.
  destruct Hengine as [->|[->|[->|[->|[]]]]].
  - change (String.eqb "whisper" "whisper") with true.
    change (String.eqb "whisper" "assemblyai") with false.
    change (String.eqb "whisper" "google") with false.
    change (String.eqb "whisper" "gemini") with false. cbv iota.
    erewrite then_done;
      [|enter H6; enter H7; enter H8; unfold ret; reflexivity].
    cbv beta. unfold then_, ret. cbn [fst snd]. eauto.
  - change (String.eqb "assemblyai" "whisper") with false.
    change (String.eqb "assemblyai" "assemblyai") with true.
    change (String.eqb "assemblyai" "google") with false.
    change (String.eqb "assemblyai" "gemini") with false. cbv iota.
    unfold then_ at 1. unfold ret at 1. cbv iota beta.
    enter H6. unfold then_, ret. cbn [fst snd]. eauto.
  - change (String.eqb "google" "whisper") with false.
    change (String.eqb "google" "assemblyai") with false.
    change (String.eqb "google" "google") with true.
    change (String.eqb "google" "gemini") with false. cbv iota.
    unfold then_ at 1. unfold ret at 1. cbv iota beta.
    unfold then_ at 1. unfold ret at 1. cbv iota beta.
    enter H6. unfold then_, ret. cbn [fst snd]. eauto.
  - change (String.eqb "gemini" "whisper") with false.
    change (String.eqb "gemini" "assemblyai") with false.
    change (String.eqb "gemini" "google") with false.
    change (String.eqb "gemini" "gemini") with true. cbv iota.
    unfold then_ at 1. unfold ret at 1. cbv iota beta.
    unfold then_ at 1. unfold ret at 1. cbv iota beta.
    unfold then_ at 1. unfold ret at 1. cbv iota beta.
    enter H6. unfold then_, ret. cbn [fst snd]. eauto.
Qed.

Lemma setup_dialogue_enter_witness :
  exists t',
    setup_dialogue assemblyai_without_key
      {| pending := repeat " " 8; shown := [] |}
    = (Done (accepted assemblyai_without_key), t')
    /\ assemblyai_api_key (accepted assemblyai_without_key)
       = "plak-hier-je-key".
Proof.
  destruct (setup_dialogue_enter assemblyai_without_key (repeat " " 8) [])
    as [t' H].
  - unfold engines. rewrite !elem_of_cons. right. left. reflexivity.
  - repeat constructor.
  - cbn. lia.
  - exists t'. split; [exact H|reflexivity].
Defined.

End Setup.

(** ** From the command line to the exit code *)

Section Main.

Import VoiceTyperApp.

Lemma new_parts (c : AppConfig) (sys sys' : System) (app : VoiceTyperApp.t) :
  VoiceTyperApp.new c sys = (Ok app, sys') ->
  config app = c /\ "pynput.keyboard" ∈ importable sys'.
Proof.
  unfold VoiceTyperApp.new, AudioRecorder.new, new_TextTyper.
  case_decide as Haudio; [|discriminate].
  case_decide as Hkeys; [|discriminate].
  pose proof (create_transcriber_system c sys) as (Hi & _).
  destruct (create_transcriber c sys) as [[tr|e] s]; [|discriminate].
  intros [= <- <-]. cbn in Hi. rewrite Hi. auto.
Qed.

Lemma last_eprint (msg : string) (w : World) :
  last (stderr (eprint msg w)) = Some msg.
Proof. cbn. apply last_snoc. Qed.

(** X24.  How [main] ends for the command [run].  An error of
    [load_config] leaves [main] as it is, nothing printed and nothing
    built.  Otherwise [main] returns 0 or 1, and the machine is the one the
    constructor of the app left: it returns 0 exactly when the app could be
    built, its hotkey is a chord and the listener did not fail, and when it
    returns 1 the last line on the standard error is [Fout:] with the
    message of an exception. *)
Theorem main_run_exit {tomllib : Tomllib} (args : Namespace)
    (fs : gmap string node) (sys : System) (l : listening) (events : list event) (w : World) :
  let out := main_run args fs sys l events w in
  match load_config fs (args_config args) with
  | Raise e => out = (Raise e, sys, w)
  | Ok loaded =>
      let config := apply_runtime_overrides loaded args in
      let built := VoiceTyperApp.new config sys in
      out.1.2 = built.2
      /\ exists code,
           out.1.1 = Ok code
           /\ (code = 0 \/ code = 1)
           /\ (code = 0 <->
               is_ok built.1 = true
               /\ is_ok (normalize_hotkey (hotkey config)) = true
               /\ forall e, l <> Crashes e)
           /\ (code = 1 ->
               exists exc,
                 last (stderr out.2) = Some ("Fout: " +:+ exn_str exc))
  end.
Proof.
  intros out. subst out. unfold main_run.
  destruct (load_config fs (args_config args)) as [loaded|e]; [|reflexivity].
  cbv zeta.
  destruct (VoiceTyperApp.new (apply_runtime_overrides loaded args) sys)
    as [[app|exc] sys'] eqn:Hnew; cbn [fst snd is_ok].
  - apply new_parts in Hnew as [Hconfig Hkeys]. unfold app_run.
    rewrite decide_True by exact Hkeys. rewrite Hconfig.
    destruct (normalize_hotkey (hotkey (apply_runtime_overrides loaded args)))
      as [normalized|exc]; cbn [is_ok].
    + destruct l as [| |exc]; cbn [fst snd]; (split; [reflexivity|]).
      * exists 0. repeat split; auto; try discriminate.
      * exists 0. repeat split; auto; try discriminate.
      * exists 1. split; [reflexivity|]. split; [auto|]. split.
        -- split; [discriminate|]. intros (_ & _ & H). now destruct (H exc).
        -- intros _. exists exc. apply last_eprint.
    + cbn [fst snd]. split; [reflexivity|].
      exists 1. split; [reflexivity|]. split; [auto|]. split.
      * split; [discriminate|]. now intros (_ & H & _).
      * intros _. exists exc. apply last_eprint.
  - split; [reflexivity|].
    exists 1. split; [reflexivity|]. split; [auto|]. split.
    + split; [discriminate|]. now intros (H & _).
    + intros _. exists exc. apply last_eprint.
Qed.

End Main.

(** ** Saving from the settings window *)

Section Settings.

Import SettingsWindow.

Lemma forallb_In {A} (q : A -> bool) (l l' : list A) :
  (forall x, In x l -> q x = true \/ In x l') ->
  (forall x, In x l' -> In x l) ->
  forallb q l' = forallb q l.
Proof.
  intros H1 H2. apply eq_true_iff_eq. rewrite !forallb_forall. split.
  - intros H x Hx. destruct (H1 x Hx); auto.
  - auto.
Qed.

Lemma dropwhile_keeps {A} (p : A -> bool) (l : list A) (x : A) :
  In x l -> p x = true \/ In x (Py.dropwhile p l).
Proof.
  induction l as [|a l IH]; [easy|]. cbn [Py.dropwhile].
  destruct (p a) eqn:E; [|now right].
  intros [->|H]; [now left|auto].
Qed.

Lemma forallb_blank_strip (s : string) :
  forallb blank_char (Py.chars (Py.strip s))
  = forallb blank_char (Py.chars s).
Proof.
  unfold Py.strip. rewrite chars_str. apply forallb_In.
  - intros x Hx. unfold Py.strip_chars, Py.rstrip_chars, Py.lstrip_chars.
    destruct (dropwhile_keeps Py.isspace _ x Hx) as [Hs|Hx'].
    { left. unfold blank_char. rewrite Hs. apply orb_true_r. }
    apply in_rev in Hx'.
    destruct (dropwhile_keeps Py.isspace _ x Hx') as [Hs|Hx''].
    { left. unfold blank_char. rewrite Hs. apply orb_true_r. }
    right. now apply in_rev in Hx''.
  - intros x. apply strip_chars_In.
Qed.

Lemma on_save_saved (win win' : SettingsWindow.t) (o : saving)
    (fs fs' : gmap string node) (saved : AppConfig) :
  _on_save win o fs = (Ok tt, win', fs') ->
  result_ win = None -> result_ win' = Some saved ->
  save_config saved (config_path win) o fs = (Ok tt, fs').
Proof.
  unfold _on_save. cbv zeta. intros H Hnone.
  destruct (negb _).
  { injection H as <- <-. cbn. congruence. }
  destruct (normalize_hotkey _) as [normalized|exc].
  - destruct (sample_rate_var (form win)) as [rate|e]; [|discriminate].
    destruct (save_config _ (config_path win) o fs) as [[[]|e] fs1] eqn:Hsave;
      [|discriminate].
    injection H as <- <-. cbn [result_]. intros [= <-]. exact Hsave.
  - injection H as <- <-. cbn. congruence.
Qed.

(** X25.  How [_on_save] ends.  With a hotkey that holds nothing but ["+"]
    and white space it shows an error and returns, the file system, the
    result and the window as they were.  Otherwise it reads the sample
    rate: when the box holds no number the exception of reading it leaves
    the method, nothing shown, nothing saved, the window open.  With a
    number it hands [save_config] a configuration whose hotkey
    [normalize_hotkey] returns unchanged, whose language is not empty and
    whose keys and credentials path have no white space around them: when
    [save_config] returns, that configuration is the result, one message
    is shown and the window is closed; when it raises, the exception leaves
    the method and the window stays open without a result. *)
Theorem on_save_outcome (win : SettingsWindow.t) (o : saving)
    (fs : gmap string node) :
  let '(outcome, win', fs') := _on_save win o fs in
  (forallb blank_char (Py.chars (hotkey_var (form win))) = true
   /\ outcome = Ok tt
   /\ fs' = fs /\ result_ win' = result_ win
   /\ destroyed win' = destroyed win
   /\ exists message,
        dialogs win' = (dialogs win ++ [ShowError "Fout" message])%list)
  \/ (forallb blank_char (Py.chars (hotkey_var (form win))) = false
      /\ match sample_rate_var (form win) with
         | Raise e => outcome = Raise e /\ win' = win /\ fs' = fs
         | Ok rate =>
             exists saved,
               sample_rate saved = rate
               /\ normalize_hotkey (hotkey saved) = Ok (hotkey saved)
               /\ Py.nonempty (language saved) = true
               /\ Py.strip (assemblyai_api_key saved)
                  = assemblyai_api_key saved
               /\ Py.strip (google_credentials_path saved)
                  = google_credentials_path saved
               /\ Py.strip (gemini_api_key saved) = gemini_api_key saved
               /\ match save_config saved (config_path win) o fs with
                  | (Ok _, after) =>
                      outcome = Ok tt /\ fs' = after
                      /\ result_ win' = Some saved
                      /\ destroyed win' = true
                      /\ exists message,
                           dialogs win'
                           = (dialogs win
                              ++ [ShowInfo "Opgeslagen" message])%list
                  | (Raise e, after) =>
                      outcome = Raise e /\ fs' = after /\ win' = win
                  end
         end).
Proof.
  unfold _on_save. cbv zeta.
  rewrite <- (forallb_blank_strip (hotkey_var (form win))).
  set (raw := Py.strip (hotkey_var (form win))).
  destruct (Py.nonempty raw) eqn:Hne; cbn [negb].
  - destruct (normalize_hotkey raw) as [normalized|exc] eqn:Hn.
    + pose proof (normalize_hotkey_parts _ _ Hn) as (Hparts & _).
      assert (Hblank : forallb blank_char (Py.chars raw) = false).
      { destruct (forallb blank_char (Py.chars raw)) eqn:Hb; [|reflexivity].
        now apply hotkey_parts_nil in Hb. }
      destruct (sample_rate_var (form win)) as [rate|e];
        [|right; split; [exact Hblank|auto]].
      match goal with
      | |- context [save_config ?c (config_path win) o fs] =>
          set (saved := c);
          destruct (save_config saved (config_path win) o fs)
            as [[u|e] after] eqn:Hsave
      end;
        (right; split; [exact Hblank|]; exists saved;
         split; [reflexivity|];
         split; [eapply normalize_hotkey_idem, Hn|];
         split;
         [unfold saved; cbn [language]; unfold or_else;
          now destruct (Py.nonempty (Py.strip (language_var (form win))))
            eqn:E|];
         unfold saved at 1 2 3 4 5 6;
         cbn [assemblyai_api_key google_credentials_path gemini_api_key];
         rewrite !strip_idem;
         split; [reflexivity|]; split; [reflexivity|];
         split; [reflexivity|];
         fold saved; rewrite Hsave; cbn; eauto 10).
    + left. split.
      { unfold normalize_hotkey in Hn.
        destruct (hotkey_parts raw) eqn:Hp; [|discriminate].
        now apply hotkey_parts_nil. }
      cbn. eauto 10.
  - left. split; [|cbn; eauto 10].
    destruct raw; [reflexivity|discriminate].
Qed.

(** X26.  What the settings window saved is what it shows when it is
    opened again: after a save from a window that had saved nothing yet,
    a configuration whose strings hold no control character but TAB is
    loaded and shown as it was saved, its engine in lower case. *)
Theorem settings_reopen {tomllib : Tomllib} (win win' : SettingsWindow.t)
    (o : saving) (fs fs' : gmap string node) (saved : AppConfig) :
  _on_save win o fs = (Ok tt, win', fs') ->
  result_ win = None -> result_ win' = Some saved ->
  plain_config saved = true ->
  let shown := with_engine (Py.lower (engine saved)) saved in
  SettingsWindow.new (config_path win) fs'
  = Ok {| config_path := config_path win; config := shown;
          form := _populate_from_config shown;
          result_ := None; destroyed := false; dialogs := [] |}.
Proof.
  intros Hsave Hnone Hsaved Hplain shown.
  pose proof (on_save_saved _ _ _ _ _ _ Hsave Hnone Hsaved) as Hfile.
  unfold SettingsWindow.new.
  rewrite (load_config_saved saved (config_path win) o fs fs' Hplain Hfile).
  reflexivity.
Qed.

Lemma settings_reopen_witness :
  let win := {| config_path := "voice-typer.toml"; config := default_config;
                form := _populate_from_config odd_config;
                result_ := None; destroyed := false; dialogs := [] |} in
  let saved :=
    {| engine := "Gemini"; hotkey := "<ctrl>+" +:+ Py.str [DQUOTE];
       language := "nl"; sample_rate := -44100; append_space := false;
       whisper_model := "small"; whisper_device := "auto";
       whisper_compute_type := "int8"; assemblyai_api_key := EmptyString;
       google_credentials_path := "C:" +:+ Py.str [BACKSLASH] +:+ "key.json";
       gemini_api_key := "k" |} in
  let shown := with_engine "gemini" saved in
  SettingsWindow.new (tomllib := strict_tomllib) "voice-typer.toml"
    (save_config saved "voice-typer.toml" (Saved ∅) ∅).2
  = Ok {| config_path := "voice-typer.toml"; config := shown;
          form := _populate_from_config shown;
          result_ := None; destroyed := false; dialogs := [] |}.
Proof.
  intros win saved shown.
  apply (settings_reopen (tomllib := strict_tomllib) win
           (_on_save win (Saved ∅) ∅).1.2 (Saved ∅) ∅ _ saved).
  - vm_compute. reflexivity.
  - reflexivity.
  - vm_compute. reflexivity.
  - vm_compute. reflexivity.
Defined.

End Settings.

(** ** The text of a transcript *)

Section Transcripts.

Lemma strip_chars_last (l : list ascii) :
  match rev (Py.strip_chars l) with
  | [] => True
  | x :: _ => Py.isspace x = false
  end.
Proof.
  unfold Py.strip_chars, Py.rstrip_chars. rewrite rev_involutive.
  apply dropwhile_head.
Qed.

(** A text with a character that is no white space at either end. *)
Lemma strip_chars_fixed (l : list ascii) :
  match l with [] => True | x :: _ => Py.isspace x = false end ->
  match rev l with [] => True | x :: _ => Py.isspace x = false end ->
  Py.strip_chars l = l.
Proof.
  intros Hhead Hlast.
  unfold Py.strip_chars, Py.lstrip_chars, Py.rstrip_chars.
  rewrite (dropwhile_fixed Py.isspace l Hhead).
  rewrite (dropwhile_fixed Py.isspace (rev l) Hlast).
  apply rev_involutive.
Qed.

Lemma join_chars_ends (parts : list (list ascii)) :
  Forall (fun p => p <> [] /\ Py.strip_chars p = p) parts ->
  let joined := Py.join_chars [" "%char] parts in
  match joined with [] => True | x :: _ => Py.isspace x = false end
  /\ match rev joined with [] => True | x :: _ => Py.isspace x = false end
  /\ (joined = [] <-> parts = []).
Proof.
  induction 1 as [|p ps [Hne Hp] Hps IH]; [easy|].
  assert (Hhead : match p with
                  | [] => True | x :: _ => Py.isspace x = false end)
    by (rewrite <- Hp; apply strip_chars_head).
  assert (Hlast : match rev p with
                  | [] => True | x :: _ => Py.isspace x = false end)
    by (rewrite <- Hp; apply strip_chars_last).
  cbv zeta in *. destruct ps as [|q qs].
  - cbn [Py.join_chars]. split; [exact Hhead|]. split; [exact Hlast|].
    split; [contradiction|discriminate].
  - set (tail := Py.join_chars [" "%char] (q :: qs)) in *.
    change (Py.join_chars [" "%char] (p :: q :: qs))
      with (p ++ [" "%char] ++ tail)%list.
    destruct IH as (_ & IHlast & IHnil).
    destruct p as [|x p']; [contradiction|]. split; [exact Hhead|].
    split; [|split; discriminate].
    rewrite !rev_app_distr.
    destruct (rev tail) as [|y t] eqn:E; [|exact IHlast].
    apply (f_equal (@rev ascii)) in E. rewrite rev_involutive in E.
    apply IHnil in E. discriminate.
Qed.

Lemma join_stripped (texts : list string) :
  let parts := List.filter Py.nonempty (map Py.strip texts) in
  Py.strip (Py.join " " parts) = Py.join " " parts
  /\ (Py.join " " parts = EmptyString
      <-> Forall (fun text => Py.strip text = EmptyString) texts).
Proof.
  intros parts.
  assert (Hparts : Forall (fun p => p <> [] /\ Py.strip_chars p = p)
                          (map Py.chars parts)).
  { subst parts. apply Forall_map.
    induction texts as [|text texts IH]; cbn [map List.filter]; [constructor|].
    destruct (Py.nonempty (Py.strip text)) eqn:E; [|exact IH].
    constructor; [|exact IH]. split.
    - rewrite nonempty_chars in E. now destruct (Py.chars (Py.strip text)).
    - unfold Py.strip. rewrite chars_str. apply strip_chars_idem. }
  destruct (join_chars_ends _ Hparts) as (Hhead & Hlast & Hnil).
  unfold Py.join. change (Py.chars " ") with [" "%char]. split.
  - unfold Py.strip. rewrite chars_str. f_equal.
    now apply strip_chars_fixed.
  - transitivity (parts = []).
    + transitivity (map Py.chars parts = []); [|destruct parts; easy].
      rewrite <- Hnil. split.
      * intros H. apply str_inj. exact H.
      * now intros ->.
    + subst parts. clear. induction texts as [|text texts IH];
        cbn [map List.filter]; [easy|].
      rewrite Forall_cons.
      destruct (Py.strip text) eqn:E; cbn [Py.nonempty].
      * rewrite IH. tauto.
      * split; [discriminate|]. now intros [? _].
Qed.

Lemma first_alternatives (results : list (list string)) :
  flat_map (fun alternatives : list string =>
              match alternatives with
              | first :: _ => [Py.strip first]
              | [] => []
              end) results
  = map Py.strip (flat_map (take 1) results).
Proof.
  induction results as [|[|first rest] results IH]; cbn; [easy|easy|].
  now rewrite IH.
Qed.

(** X27.  The text a Whisper or a Google transcriber returns is the parts
    that are more than white space, each stripped, with one space between
    them: the [strip()] at the end changes nothing.  It is empty exactly
    when every segment (for Google, the first alternative of every result
    that has one) is blank, which is when the app reports that no text was
    recognized. *)
Theorem transcript_text :
  (forall segments : list string,
     whisper_text segments
     = Py.join " " (List.filter Py.nonempty (map Py.strip segments))
     /\ (whisper_text segments = EmptyString
         <-> Forall (fun s => Py.strip s = EmptyString) segments))
  /\ (forall results : list (list string),
        google_text results
        = Py.join " "
            (List.filter Py.nonempty
               (map Py.strip (flat_map (take 1) results)))
        /\ (google_text results = EmptyString
            <-> Forall (fun alternatives =>
                          forall first, head alternatives = Some first ->
                                        Py.strip first = EmptyString)
                       results)).
Proof.
  split.
  - intros segments. unfold whisper_text.
    destruct (join_stripped segments) as [Hstrip Hnil].
    cbv zeta in *. rewrite Hstrip. auto.
  - intros results. unfold google_text. rewrite first_alternatives.
    destruct (join_stripped (flat_map (take 1) results)) as [Hstrip Hnil].
    cbv zeta in *. rewrite Hstrip. split; [reflexivity|].
    rewrite Hnil. clear.
    induction results as [|[|first rest] results IH]; cbn [flat_map take app].
    + split; constructor.
    + rewrite Forall_cons, IH. split; [|tauto].
      intros H. split; [discriminate|exact H].
    + rewrite !Forall_cons, IH. cbn [head]. split.
      * intros [H1 H2]. split; [now intros ? [= <-]|exact H2].
      * intros [H1 H2]. split; [now apply H1|exact H2].
Qed.

End Transcripts.

(** ** What a failed write leaves behind *)

Section Leftovers.

Import VoiceTyperApp.

Lemma elem_of_delete_inv {A} (l : list A) (i : nat) (x : A) :
  x ∈ delete i l -> x ∈ l.
Proof.
  revert i. induction l as [|a l IH]; intros [|i]; cbn; try easy.
  - now right.
  - intros [->|H]%elem_of_cons; [left|right; eauto].
Qed.

Lemma step_abandoned (path : string) (st : VoiceTyperApp.t * World)
    (e : event) :
  avoids path e -> abandoned path st -> abandoned path (step st e).
Proof.
  destruct st as [app w]. unfold abandoned. cbn [fst snd].
  intros Havoids [Hfile Hfree].
  destruct e as [d|indata|indata flags|i b|i]; cbn [step avoids] in *.
  - unfold toggle_recording.
    destruct (_is_busy app); [now split|].
    destruct (negb (_is_recording app)).
    + destruct (AudioRecorder.start _ _) as [[u|exc] r]; now split.
    + unfold AudioRecorder.stop.
      destruct (AudioRecorder._stream (recorder app)); [|now split].
      destruct (on_stop d); try now split.
      destruct (AudioRecorder._frames (recorder app)); [now split|].
      unfold _recording_to_wav.
      destruct (on_write d) as [exc|p exc|p];
        cbn [fst snd tmp threads spawn print eprint set_tmp set_threads].
      * now split.
      * rewrite lookup_insert_ne by exact Havoids. now split.
      * rewrite lookup_insert_ne by exact Havoids. split; [exact Hfile|].
        rewrite elem_of_app, list_elem_of_singleton.
        intros [H|[= H]]; [auto|]. apply Havoids. now symmetry.
  - unfold deliver.
    destruct (AudioRecorder._stream (recorder app)); now split.
  - unfold deliver.
    destruct (AudioRecorder._stream (recorder app)); now split.
  - destruct (threads w !! i) as [[audio_path|]|] eqn:E; try now split.
    assert (Hne : audio_path <> path).
    { intros ->. apply Hfree. eapply list_elem_of_lookup_2, E. }
    pose proof (transcribe_and_unlink_tmp audio_path b app w) as Htmp.
    assert (Hkept : tmp (transcribe_and_unlink audio_path b app w).2 !! path
                    = Some Partial).
    { rewrite Htmp. destruct (unlinked b); [exact Hfile|].
      now rewrite lookup_delete_ne. }
    destruct (transcribe_and_unlink audio_path b app w) as [[u|exc] w'];
      cbn [fst snd tmp threads set_threads escape_thread] in *.
    + split; [exact Hkept|].
      intros H. apply list_elem_of_lookup in H as [j Hj].
      destruct (decide (i = j)) as [->|Hij].
      * rewrite list_lookup_insert_eq in Hj by (eapply lookup_lt_Some, E).
        discriminate.
      * rewrite list_lookup_insert_ne in Hj by exact Hij.
        apply Hfree. eapply list_elem_of_lookup_2, Hj.
    + split; [exact Hkept|].
      intros H. apply Hfree. eapply elem_of_delete_inv, H.
  - destruct (threads w !! i) as [[audio_path|]|] eqn:E; try now split.
    cbn [fst snd tmp threads set_threads]. split; [exact Hfile|].
    intros H. apply Hfree. eapply elem_of_delete_inv, H.
Qed.

Lemma run_abandoned (path : string) (events : list event)
    (st : VoiceTyperApp.t * World) :
  Forall (avoids path) events -> abandoned path st ->
  abandoned path (run events st).
Proof.
  intros Hevents. revert st.
  induction Hevents as [|e events He _ IH]; intros st H; [exact H|].
  apply IH, step_abandoned; assumption.
Qed.

(** X28.  A sound file that could not be written is never cleaned up.  When
    the press that ends a recording gets a path for its file and the
    writer then fails, the press only reports the error: the session is
    Idle, no thread is started, and the file the writer gave up on stays
    in the temporary directory whatever happens next, as long as no later
    file is given the same path. *)
Theorem failed_write_is_left_behind (app : VoiceTyperApp.t) (w : World)
    (d : Driver) (s : stream) (block : chunk) (blocks : list chunk)
    (path : string) (exc : exn) (events : list event) :
  state app = Some Recording ->
  AudioRecorder._stream (recorder app) = Some s ->
  AudioRecorder._frames (recorder app) = block :: blocks ->
  on_stop d = Closed -> on_write d = WriteFails path exc ->
  Running path ∉ threads w ->
  Forall (avoids path) events ->
  let st := toggle_recording d (app, w) in
  state st.1 = Some Idle
  /\ threads st.2 = threads w
  /\ stderr st.2
     = (stderr w ++ ["Kon opname niet stoppen: " +:+ exn_str exc])%list
  /\ tmp (run events st).2 !! path = Some Partial.
Proof.
  intros Hrec Hopen Hframes Hstop Hwrite Hfree Hevents st.
  apply state_recording in Hrec as [Hr Hb].
  assert (E : st = (set_is_recording false
                      (set_recorder
                         {| AudioRecorder.sample_rate :=
                              AudioRecorder.sample_rate (recorder app);
                            AudioRecorder._frames := block :: blocks;
                            AudioRecorder._stream := None |} app),
                    eprint ("Kon opname niet stoppen: " +:+ exn_str exc)
                      (set_tmp (<[path := Partial]> (tmp w)) w))).
  { subst st. unfold toggle_recording. rewrite Hb, Hr. cbn [negb].
    unfold AudioRecorder.stop. rewrite Hopen, Hstop, Hframes.
    unfold _recording_to_wav. now rewrite Hwrite. }
  rewrite E. cbn [fst snd threads stderr eprint set_tmp].
  split; [apply state_idle; cbn; auto|].
  split; [reflexivity|]. split; [reflexivity|].
  apply (run_abandoned path events); [exact Hevents|].
  split; cbn; [apply lookup_insert_eq|exact Hfree].
Qed.

Lemma failed_write_is_left_behind_witness :
  let recording :=
    (run [Hotkey (willing "/tmp/voice_typer_a.wav"); Audio [1; 2]]
         (fresh_app, empty_world)) in
  let d := {| on_start := Started; on_stop := Closed;
              on_write := WriteFails "/tmp/voice_typer_a.wav"
                            (OSError "No space left on device") |} in
  let later := willing "/tmp/voice_typer_b.wav" in
  let st := toggle_recording d recording in
  state st.1 = Some Idle
  /\ threads st.2 = []
  /\ stderr st.2 = ["Kon opname niet stoppen: No space left on device"]
  /\ tmp (run [Hotkey later; Audio [3]; Hotkey later;
               Transcribes 0 backend_down; Releases 0] st).2
       !! "/tmp/voice_typer_a.wav"
     = Some Partial.
Proof.
  intros recording d later.
  apply (failed_write_is_left_behind recording.1 recording.2 d
           (InputStream 16000) [1; 2] [] "/tmp/voice_typer_a.wav"
           (OSError "No space left on device")
           [Hotkey later; Audio [3]; Hotkey later;
            Transcribes 0 backend_down; Releases 0]);
    try reflexivity.
  - cbn. apply not_elem_of_nil.
  - repeat constructor; cbn; discriminate.
Defined.

End Leftovers.

